(** * Bulk import reconciliation of the salary tracker (src/components/BulkImport.tsx)

    A shallow embedding of the spreadsheet import planner, the import
    executor, the spreadsheet export and the backup import gate, with the
    properties the specification states about them.

    Modelling conventions.
    - A JavaScript [number] is a finite exact rational, NaN or an infinity;
      binary64 rounding is not modelled (the code never does arithmetic on
      amounts, it only compares and copies them).  [-0] is identified
      with [0], which [===], [<] and [!x] cannot tell apart either.
    - A JavaScript string is a [string] of 8-bit code units; case mapping,
      whitespace and digits are the ASCII ones, and a statement that
      depends on them is made for ASCII texts.
    - [parseInt] gives the exact integer the digits denote; a JavaScript
      number holds it exactly below 2^53, and the statement about the
      year read from a cell is made for texts short enough for that.
    - The numeric(12,2) columns of the store round what they are given to
      two decimals and refuse what does not fit.
    - A worksheet is what [XLSX.utils.sheet_to_json] returns: a list of row
      objects, each an association list from header to cell in key order
      (the order of [Object.keys], which is the column order unless a
      header is the decimal text of an array index).
    - The two per-organization tables are plain objects indexed by the
      sheet name.  A sheet whose name is a property inherited from
      [Object.prototype] ("constructor", "toString", "__proto__", ...)
      makes the lookup return a value without [includes], and the first
      classification throws; such sheet names are outside the model, and
      the statements that depend on the lookup exclude them. *)

From Stdlib Require Import List String Ascii ZArith NArith QArith Qcanon Bool Lia Arith Permutation.
From Stdlib Require Import DecimalString DecimalPos DecimalZ Btauto Sorted.
Import ListNotations.

Close Scope Qc_scope.
Close Scope Q_scope.
Local Open Scope string_scope.
Local Open Scope list_scope.

(** ** JavaScript values and built-ins used by the component *)

Module Js.

Inductive number : Type :=
| Fin (q : Qc)
| NaN
| PosInf
| NegInf.

Definition ofQ (q : Q) : number := Fin (Q2Qc q).
Definition ofZ (z : Z) : number := ofQ (inject_Z z).

(** [Number.isFinite] and [Number.isNaN]. *)
Definition isFinite (n : number) : bool :=
  match n with Fin _ => true | _ => false end.

Definition isNaN (n : number) : bool :=
  match n with NaN => true | _ => false end.

Definition Qc_ltb (x y : Qc) : bool := negb (Qle_bool (this y) (this x)).

(** [a < b]: false as soon as one side is NaN. *)
Definition lt (a b : number) : bool :=
  match a, b with
  | NaN, _ | _, NaN => false
  | Fin x, Fin y => Qc_ltb x y
  | NegInf, NegInf => false
  | NegInf, _ => true
  | _, NegInf => false
  | PosInf, _ => false
  | Fin _, PosInf => true
  end.

(** [a > b]. *)
Definition gt (a b : number) : bool := lt b a.

(** [a >= b] and [a <= b]. *)
Definition ge (a b : number) : bool :=
  match a, b with
  | NaN, _ | _, NaN => false
  | _, _ => negb (lt a b)
  end.
Definition le (a b : number) : bool := ge b a.

(** [n === 0]. *)
Definition is_zero (n : number) : bool :=
  match n with Fin q => Qeq_bool (this q) 0 | _ => false end.

(** [!n] for a number: 0 and NaN are falsy. *)
Definition falsy_number (n : number) : bool := is_zero n || isNaN n.

(** [Number(x) || 0] on a value that already is a number. *)
Definition or_zero (n : number) : number :=
  if falsy_number n then ofZ 0 else n.

(** *** Characters *)

Definition code (c : ascii) : nat := nat_of_ascii c.

Definition is_digit (c : ascii) : bool := (48 <=? code c)%nat && (code c <=? 57)%nat.
Definition is_lower (c : ascii) : bool := (97 <=? code c)%nat && (code c <=? 122)%nat.
Definition is_upper (c : ascii) : bool := (65 <=? code c)%nat && (code c <=? 90)%nat.

(** TAB, LF, VT, FF, CR and SPACE. *)
Definition is_space (c : ascii) : bool :=
  ((9 <=? code c)%nat && (code c <=? 13)%nat) || (code c =? 32)%nat.

Definition to_upper (c : ascii) : ascii :=
  if is_lower c then ascii_of_nat (code c - 32) else c.
Definition to_lower (c : ascii) : ascii :=
  if is_upper c then ascii_of_nat (code c + 32) else c.

Definition digit_val (c : ascii) : Z := Z.of_nat (code c - 48).

(** Value of a hexadecimal digit, if [c] is one. *)
Definition hex_val (c : ascii) : option Z :=
  if is_digit c then Some (digit_val c)
  else if (97 <=? code c)%nat && (code c <=? 102)%nat then Some (Z.of_nat (code c - 87))
  else if (65 <=? code c)%nat && (code c <=? 70)%nat then Some (Z.of_nat (code c - 55))
  else None.

(** *** Strings *)

Fixpoint map_string (f : ascii -> ascii) (s : string) : string :=
  match s with
  | EmptyString => EmptyString
  | String c s' => String (f c) (map_string f s')
  end.

Definition toUpperCase : string -> string := map_string to_upper.
Definition toLowerCase : string -> string := map_string to_lower.

Fixpoint filter_string (p : ascii -> bool) (s : string) : string :=
  match s with
  | EmptyString => EmptyString
  | String c s' => if p c then String c (filter_string p s') else filter_string p s'
  end.

Fixpoint trimStart (s : string) : string :=
  match s with
  | String c s' => if is_space c then trimStart s' else s
  | EmptyString => EmptyString
  end.

(** Drops the trailing whitespace: a character stays when it is not
    a space or something that stays follows it. *)
Fixpoint trimEnd (s : string) : string :=
  match s with
  | EmptyString => EmptyString
  | String c s' =>
      match trimEnd s' with
      | EmptyString => if is_space c then EmptyString else String c EmptyString
      | t => String c t
      end
  end.

Definition trim (s : string) : string := trimEnd (trimStart s).

(** [s.split(" ")]: always at least one part. *)
Fixpoint split_space (s : string) : list string :=
  match s with
  | EmptyString => [EmptyString]
  | String c s' =>
      if Ascii.eqb c " "%char then EmptyString :: split_space s'
      else match split_space s' with
           | p :: ps => String c p :: ps
           | [] => [String c EmptyString]
           end
  end.

(** [s.includes(kw)]. *)
Fixpoint includes (kw s : string) : bool :=
  prefix kw s ||
  match s with
  | EmptyString => false
  | String _ s' => includes kw s'
  end.

(** [list.includes(x)] on strings. *)
Definition list_includes (x : string) (l : list string) : bool :=
  existsb (String.eqb x) l.

(** *** Number parsing *)

(** Longest prefix of decimal digits, read as a number in base 10, with
    the count of digits read and the rest of the string. *)
Fixpoint read_digits (s : string) (acc : Z) (n : nat) : Z * nat * string :=
  match s with
  | String c s' =>
      if is_digit c then read_digits s' (10 * acc + digit_val c)%Z (S n)
      else (acc, n, s)
  | EmptyString => (acc, n, s)
  end.

Fixpoint read_hex (s : string) (acc : Z) (n : nat) : Z * nat :=
  match s with
  | String c s' =>
      match hex_val c with
      | Some d => read_hex s' (16 * acc + d)%Z (S n)
      | None => (acc, n)
      end
  | EmptyString => (acc, n)
  end.

(** A leading sign: the factor and the rest. *)
Definition read_sign (s : string) : Z * string :=
  match s with
  | String "-"%char s' => ((-1)%Z, s')
  | String "+"%char s' => (1%Z, s')
  | _ => (1%Z, s)
  end.

(** The digits of [parseInt] once the sign is read: hexadecimal after
    "0x" or "0X", decimal otherwise; [None] is NaN. *)
Definition read_int (sign : Z) (body : string) : option Z :=
  match body with
  | String "0"%char (String x hex) =>
      if Ascii.eqb x "x"%char || Ascii.eqb x "X"%char then
        let '(v, n) := read_hex hex 0%Z 0%nat in
        match n with O => None | _ => Some (sign * v)%Z end
      else
        let '(v, n, _) := read_digits body 0%Z 0%nat in
        match n with O => None | _ => Some (sign * v)%Z end
  | _ =>
      let '(v, n, _) := read_digits body 0%Z 0%nat in
      match n with O => None | _ => Some (sign * v)%Z end
  end.

(** [parseInt(s)] with no radix. *)
Definition parseInt (s : string) : option Z :=
  let '(sign, body) := read_sign (trimStart s) in
  read_int sign body.

(** [parseFloat(s)] for a string over the alphabet the component leaves
    in place (digits, '.', '+', '-'): an optional sign, digits, an
    optional fraction; at least one digit is needed. *)
Definition parseFloat (s : string) : number :=
  let '(sign, body) := read_sign s in
  let '(ip, ni, rest) := read_digits body 0%Z 0%nat in
  let '(fp, nf) :=
    match rest with
    | String "."%char frac => let '(v, n, _) := read_digits frac 0%Z 0%nat in (v, n)
    | _ => (0%Z, 0%nat)
    end in
  match (ni + nf)%nat with
  | O => NaN
  | _ => ofQ (inject_Z sign * (inject_Z ip + inject_Z fp / inject_Z (10 ^ Z.of_nat nf)))
  end.

End Js.

Import Js.

(** ** Data model (interfaces at the top of BulkImport.tsx) *)

Record LineItem : Type := mkItem { category : string; amount : number }.

Record ParsedRecord : Type := mkParsed {
  organization : string;
  month : number;
  year : number;
  earnings : list LineItem;
  deductions : list LineItem;
  totalEarnings : number;
  totalDeductions : number;
  netSalary : number
}.

Record InvalidRow : Type := mkInvalid {
  sheetName : string;
  excelRowNumber : nat;
  reason : string
}.

Record SheetPlan : Type := mkSheetPlan {
  sp_sheetName : string;
  sp_records : list ParsedRecord;
  sp_skippedRows : nat
}.

Record ImportPlan : Type := mkPlan {
  sheets : list SheetPlan;
  totalRecordsToImport : nat;
  totalSkippedRows : nat;
  invalidRows : list InvalidRow
}.

(** ** Spreadsheet rows as the codec hands them over *)

Inductive cell : Type :=
| CNum (n : number)
| CStr (s : string)
| CBool (b : bool).

(** A row object: header-keyed cells, in [Object.keys] order.  A header
    with an empty cell is absent from the row. *)
Definition Row : Type := list (string * cell).

(** [row[h]]: [None] is [undefined]. *)
Fixpoint row_get (row : Row) (h : string) : option cell :=
  match row with
  | [] => None
  | (k, v) :: rest => if String.eqb k h then Some v else row_get rest h
  end.

(** [Object.keys(row)]. *)
Definition keys (row : Row) : list string := map fst row.

(** [!v] for what a cell lookup returns. *)
Definition falsy (v : option cell) : bool :=
  match v with
  | None => true
  | Some (CNum n) => falsy_number n
  | Some (CStr s) => String.eqb s ""
  | Some (CBool b) => negb b
  end.

(** ** Fixed tables *)

Definition ORG_EARNINGS : list (string * list string) :=
  [("TCS",
    ["Basic Salary"; "BoB Kitty Allowance"; "Conveyance Taxable";
     "Conveyance Non Taxable"; "HRA"; "Sundry Medical"; "LTA";
     "Personal Allowance"; "Miscellaneous"; "City Allowance";
     "Performance Pay"; "Leave Encashment"]);
   ("RBS",
    ["Basic Pay"; "Supplementary Allowance"; "HRA"; "Statutory Bonus";
     "Oncall Allowance"; "National Holiday Pay"; "Ovation Award";
     "Leave Encashment"; "Vaccine Payout"; "Shift Allowance"]);
   ("CITI",
    ["Basic"; "HRA"; "Special Allowance"; "Location Premium Alllownace";
     "Holiday Pay"; "Citi Gratitude Bonus"; "Award"]);
   ("NATWEST",
    ["Base Salary"; "Supplementary Allowance"; "HRA"; "Shift Allowance";
     "Oncall Allowance"; "Bonus"; "Telephone Unclaimed";
     "Compulsory Holiday Pay"; "Share SIS Award"])].

Definition ORG_DEDUCTIONS : list (string * list string) :=
  [("TCS",
    ["Provident Fund"; "Income Tax"; "Health Insurance Scheme Premium";
     "Professional Tax"; "Labour Welfare"; "Transport Recovery";
     "TCS Welfar Trust"; "Earlier Payout"; "Principal Loan Amount"]);
   ("RBS",
    ["Income Tax"; "Provident Fund"; "Professional Tax";
     "Hospitalisation Insurance"; "VPCP Father"; "VPCP Mother";
     "Life Insurance Topup"; "VPCP Topup Father"; "Voluntary PF";
     "Labour Welfare Fund"]);
   ("CITI",
    ["Income Tax"; "Provident Fund"; "Mediclaim Premium";
     "Mediclaim Insurance Dependent"; "Professional Tax";
     "Citi Gratitude Deductions"; "Insurance OPD Recovery"]);
   ("NATWEST",
    ["Income Tax"; "Provident Fund"; "Professional Tax";
     "Hospitalisation Insurance"; "VPC Father"; "VPC Mother";
     "VPC Topup Father"; "VPC Topup Mother"; "Labour Welfare Fund";
     "Share SIS Award"])].

(** [TABLE[organization] ?? []] for one of the two tables. *)
Definition org_categories (table : list (string * list string)) (organization : string)
    : list string :=
  match find (fun entry => String.eqb (fst entry) organization) table with
  | Some entry => snd entry
  | None => []
  end.

(** [const orgEarnings = ORG_EARNINGS[organization] ?? []] and its
    twin. *)
Definition orgEarnings (organization : string) : list string :=
  org_categories ORG_EARNINGS organization.
Definition orgDeductions (organization : string) : list string :=
  org_categories ORG_DEDUCTIONS organization.

(** The [monthMap] of [parseMonthYear], in month order. *)
Definition monthMap : list (string * Z) :=
  [("JAN", 1); ("FEB", 2); ("MAR", 3); ("APR", 4); ("MAY", 5); ("JUN", 6);
   ("JUL", 7); ("AUG", 8); ("SEP", 9); ("OCT", 10); ("NOV", 11); ("DEC", 12)]%Z.

Fixpoint monthMap_get (m : list (string * Z)) (key : string) : option Z :=
  match m with
  | [] => None
  | (k, v) :: rest => if String.eqb k key then Some v else monthMap_get rest key
  end.

Definition deductionKeywords : list string :=
  ["tax"; "pf"; "provident"; "esi"; "insurance"; "professional"; "labour";
   "welfare"; "recovery"; "loan"; "tcs"; "earlier payout"; "principal"].

Definition TOTAL_EARNINGS_HEADER : string := "Total Earnings".
Definition TOTAL_DEDUCTIONS_HEADER : string := "Total Deductions".
Definition NET_SALARY_HEADER : string := "Net Salary".

(** ** parseMonthYear *)

Definition parseMonthYear (monthYearStr : string) : option (number * number) :=
  match split_space (trim monthYearStr) with
  | [p0; p1] =>
      match monthMap_get monthMap (toUpperCase p0), parseInt p1 with
      | Some m, Some y => Some (ofZ m, ofZ y)
      | _, _ => None
      end
  | _ => None
  end.

(** ** processSheet *)

Definition isDeductionHeader (header : string) : bool :=
  let h := toLowerCase header in
  existsb (fun kw => includes kw h) deductionKeywords.

(** [val.replace(/[^0-9.+-]/g, "")]. *)
Definition cleaned (val : string) : string :=
  filter_string (fun c => is_digit c || Ascii.eqb c "."%char
                          || Ascii.eqb c "+"%char || Ascii.eqb c "-"%char) val.

(** The coercion of a cell to [numVal] (lines 279-290); [None] is
    [null]. *)
Definition numVal (val : option cell) : option number :=
  match val with
  | Some (CNum n) => Some n
  | Some (CStr s) =>
      let c := cleaned s in
      if (0 <? String.length c)%nat then
        let parsedNum := parseFloat c in
        if isNaN parsedNum then None else Some parsedNum
      else None
  | _ => None
  end.

(** The mutable locals of one pass over a row's headers. *)
Record RowAcc : Type := mkAcc {
  acc_earnings : list LineItem;
  acc_deductions : list LineItem;
  acc_earningsTotal : number;
  acc_deductionsTotal : number;
  acc_netSalary : number
}.

Definition acc0 : RowAcc := mkAcc [] [] (ofZ 0) (ofZ 0) (ofZ 0).

Definition push_earning (a : RowAcc) (it : LineItem) : RowAcc :=
  mkAcc (acc_earnings a ++ [it]) (acc_deductions a)
        (acc_earningsTotal a) (acc_deductionsTotal a) (acc_netSalary a).

Definition push_deduction (a : RowAcc) (it : LineItem) : RowAcc :=
  mkAcc (acc_earnings a) (acc_deductions a ++ [it])
        (acc_earningsTotal a) (acc_deductionsTotal a) (acc_netSalary a).

(** [RESERVED_HEADERS.has(h)]; [monthYearHeader] is [None] when the first
    row has no key at all ([headers[0]] is [undefined]). *)
Definition reserved (monthYearHeader : option string) (h : string) : bool :=
  match monthYearHeader with
  | Some m => String.eqb h m
  | None => false
  end
  || String.eqb h TOTAL_EARNINGS_HEADER
  || String.eqb h TOTAL_DEDUCTIONS_HEADER
  || String.eqb h NET_SALARY_HEADER.

(** The body of [for (const headerKey of headers)] (lines 276-326). *)
Definition headerStep (monthYearHeader : option string)
    (orgEarnings orgDeductions : list string) (row : Row)
    (a : RowAcc) (headerKey : string) : RowAcc :=
  let nv := numVal (row_get row headerKey) in
  match nv with
  | Some v =>
      if String.eqb headerKey TOTAL_EARNINGS_HEADER then
        mkAcc (acc_earnings a) (acc_deductions a) v (acc_deductionsTotal a) (acc_netSalary a)
      else if String.eqb headerKey TOTAL_DEDUCTIONS_HEADER then
        mkAcc (acc_earnings a) (acc_deductions a) (acc_earningsTotal a) v (acc_netSalary a)
      else if String.eqb headerKey NET_SALARY_HEADER then
        mkAcc (acc_earnings a) (acc_deductions a) (acc_earningsTotal a) (acc_deductionsTotal a) v
      else if reserved monthYearHeader headerKey || is_zero v then a
      else if list_includes headerKey orgEarnings then push_earning a (mkItem headerKey v)
      else if list_includes headerKey orgDeductions then push_deduction a (mkItem headerKey v)
      else if isDeductionHeader headerKey then push_deduction a (mkItem headerKey v)
      else push_earning a (mkItem headerKey v)
  | None => a
  end.

(** [headers.find(h => lower(h) includes "month" and "year") ?? headers[0]]. *)
Definition find_monthYearHeader (headers : list string) : option string :=
  match find (fun h => includes "month" (toLowerCase h) && includes "year" (toLowerCase h))
             headers with
  | Some h => Some h
  | None => hd_error headers
  end.

(** What the loop over the data rows has built so far. *)
Record SheetResult : Type := mkResult {
  records : list ParsedRecord;
  skippedRows : nat;
  sheetInvalid : list InvalidRow
}.

Definition result0 : SheetResult := mkResult [] 0 [].

Definition skip_row (r : SheetResult) (bad : InvalidRow) : SheetResult :=
  mkResult (records r) (S (skippedRows r)) (sheetInvalid r ++ [bad]).

Definition push_record (r : SheetResult) (p : ParsedRecord) : SheetResult :=
  mkResult (records r ++ [p]) (skippedRows r) (sheetInvalid r).

Section Planner.

(** [String(n)] for a number: ECMAScript's Number::toString, left
    abstract. *)
Variable Number_toString : number -> string.

(** [String(v)] for a truthy cell. *)
Definition String_of_cell (v : cell) : string :=
  match v with
  | CStr s => s
  | CNum n => Number_toString n
  | CBool true => "true"
  | CBool false => "false"
  end.

(** What one iteration of [for (let i = 0; i < data.length; i++)]
    (lines 243-338) makes of its row: the diagnostic it pushes to
    [invalidRows], or the record it pushes to [records]. *)
Definition parseRow (organization : string) (headers : list string)
    (monthYearHeader : option string) (i : nat) (row : Row)
    : InvalidRow + ParsedRecord :=
  let monthYearStr :=
    row_get row (match monthYearHeader with Some h => h | None => "undefined" end) in
  let excelRowNumber := (i + 2)%nat in
  match monthYearStr with
  | Some v =>
      if falsy monthYearStr then
        inl (mkInvalid organization excelRowNumber "Missing Month/Year value")
      else
        match parseMonthYear (String_of_cell v) with
        | None =>
            inl (mkInvalid organization excelRowNumber
                   ("Invalid Month/Year format: " ++ String_of_cell v))
        | Some (m, y) =>
            let a := fold_left (headerStep monthYearHeader (orgEarnings organization)
                                  (orgDeductions organization) row) headers acc0 in
            inr (mkParsed organization m y (acc_earnings a) (acc_deductions a)
                   (acc_earningsTotal a) (acc_deductionsTotal a) (acc_netSalary a))
        end
  | None => inl (mkInvalid organization excelRowNumber "Missing Month/Year value")
  end.

(** The iteration itself: [skippedRows++] with the diagnostic, or the
    record. *)
Definition rowStep (organization : string) (headers : list string)
    (monthYearHeader : option string) (r : SheetResult) (i : nat) (row : Row)
    : SheetResult :=
  match parseRow organization headers monthYearHeader i row with
  | inl bad => skip_row r bad
  | inr p => push_record r p
  end.

(** The row loop, from index [i] on. *)
Fixpoint rowLoop (organization : string) (headers : list string)
    (monthYearHeader : option string) (i : nat) (data : list Row)
    (r : SheetResult) : SheetResult :=
  match data with
  | [] => r
  | row :: rest =>
      rowLoop organization headers monthYearHeader (S i) rest
              (rowStep organization headers monthYearHeader r i row)
  end.

Definition processSheet (data : list Row) (organization : string) : SheetResult :=
  match data with
  | [] => result0
  | firstRow :: _ =>
      let headers := keys firstRow in
      rowLoop organization headers (find_monthYearHeader headers) 0 data result0
  end.

(** ** The plan builder of handleFileUpload (lines 403-418) *)

(** A workbook after decoding: its sheets in [SheetNames] order. *)
Definition Workbook : Type := list (string * list Row).

Definition planStep (p : ImportPlan) (s : string * list Row) : ImportPlan :=
  let '(name, data) := s in
  let res := processSheet data name in
  if ((List.length (records res) =? 0) && (List.length (sheetInvalid res) =? 0))%nat then p
  else mkPlan (sheets p ++ [mkSheetPlan name (records res) (skippedRows res)])
              (totalRecordsToImport p + List.length (records res))
              (totalSkippedRows p + skippedRows res)
              (invalidRows p ++ sheetInvalid res).

Definition plan0 : ImportPlan := mkPlan [] 0 0 [].

Definition buildPlan (wb : Workbook) : ImportPlan := fold_left planStep wb plan0.

End Planner.

(** ** The persistence service: the tables the executor touches

    Tables of supabase/migrations as lists of rows, for one signed-in
    user (row-level policies show a client only its own rows).  Keys,
    CHECK constraints and the numeric(12,2) amount columns (two decimals,
    ten digits before the point) are modelled; transport failures are
    not. *)

Module Store.

Record TemplateRow : Type := mkTemplate { t_id : nat; t_user : string; t_name : string }.

Record CategoryRow : Type := mkCategory { c_template_id : nat; c_category : string }.

Record SalaryRow : Type := mkSalary {
  s_id : nat;
  s_user : string;
  s_organization : option string;
  s_month : Z;
  s_year : Z;
  s_total_earnings : number;
  s_total_deductions : number;
  s_net_salary : number;
  s_gross_salary : number
}.

Record ItemRow : Type := mkItemRow {
  i_salary_record_id : nat;
  i_category : string;
  i_amount : number
}.

Record Db : Type := mkDb {
  organization_templates : list TemplateRow;
  template_earnings : list CategoryRow;
  template_deductions : list CategoryRow;
  salary_records : list SalaryRow;
  earnings_tbl : list ItemRow;
  deductions_tbl : list ItemRow;
  next_id : nat
}.

Definition empty : Db := mkDb [] [] [] [] [] [] 0.

(** A call either answers or reports an error; the store it leaves is
    kept in both cases. *)
Inductive outcome (A : Type) : Type :=
| Ok (a : A)
| Err (msg : string).
Arguments Ok {A} a.
Arguments Err {A} msg.

(** An integer column receives a number. *)
Definition as_integer (n : number) : option Z :=
  match n with
  | Fin q => if (Zpos (Qden (this q)) =? 1)%Z then Some (Qnum (this q)) else None
  | _ => None
  end.

(** *** The numeric(12,2) columns

    An amount is stored with two decimals, rounded half away from zero;
    an amount whose rounded value needs more than ten digits before the
    point is refused ("numeric field overflow"). *)

(** The amount in hundredths, rounded half away from zero. *)
Definition to_cents (q : Q) : Z :=
  let n := (Qnum q * 100)%Z in
  let d := Zpos (Qden q) in
  (Z.sgn n * ((2 * Z.abs n + d) / (2 * d)))%Z.

(** The value the column keeps; a number that has no more than two
    decimals is kept as it is. *)
Definition round2 (n : number) : number :=
  match n with
  | Fin q =>
      if (100 mod Zpos (Qden (this q)) =? 0)%Z then n
      else ofQ (to_cents (this q) # 100)
  | _ => n
  end.

(** Whether the column takes the number. *)
Definition fits_numeric (n : number) : bool :=
  match n with
  | Fin q => (Z.abs (to_cents (this q)) <? 10 ^ 12)%Z
  | _ => false
  end.

Definition set_templates (d : Db) (l : list TemplateRow) : Db :=
  mkDb l (template_earnings d) (template_deductions d) (salary_records d)
       (earnings_tbl d) (deductions_tbl d) (next_id d).
Definition set_template_earnings (d : Db) (l : list CategoryRow) : Db :=
  mkDb (organization_templates d) l (template_deductions d) (salary_records d)
       (earnings_tbl d) (deductions_tbl d) (next_id d).
Definition set_template_deductions (d : Db) (l : list CategoryRow) : Db :=
  mkDb (organization_templates d) (template_earnings d) l (salary_records d)
       (earnings_tbl d) (deductions_tbl d) (next_id d).
Definition set_salary_records (d : Db) (l : list SalaryRow) : Db :=
  mkDb (organization_templates d) (template_earnings d) (template_deductions d) l
       (earnings_tbl d) (deductions_tbl d) (next_id d).
Definition set_earnings (d : Db) (l : list ItemRow) : Db :=
  mkDb (organization_templates d) (template_earnings d) (template_deductions d)
       (salary_records d) l (deductions_tbl d) (next_id d).
Definition set_deductions (d : Db) (l : list ItemRow) : Db :=
  mkDb (organization_templates d) (template_earnings d) (template_deductions d)
       (salary_records d) (earnings_tbl d) l (next_id d).
Definition bump_id (d : Db) : Db :=
  mkDb (organization_templates d) (template_earnings d) (template_deductions d)
       (salary_records d) (earnings_tbl d) (deductions_tbl d) (S (next_id d)).

(** [from("organization_templates").select("*").eq(user).eq(name).maybeSingle()] *)
Definition select_template (user name : string) (d : Db) : outcome (option TemplateRow) :=
  match filter (fun t => String.eqb (t_user t) user && String.eqb (t_name t) name)
               (organization_templates d) with
  | [] => Ok None
  | [t] => Ok (Some t)
  | _ => Err "JSON object requested, multiple (or no) rows returned"
  end.

(** [from("organization_templates").insert({name, user_id}).select().single()] *)
Definition insert_template (user name : string) (d : Db) : TemplateRow * Db :=
  let t := mkTemplate (next_id d) user name in
  (t, bump_id (set_templates d (organization_templates d ++ [t]))).

(** [from("template_earnings").delete().eq("template_id", id)] *)
Definition delete_template_earnings (tid : nat) (d : Db) : Db :=
  set_template_earnings d
    (filter (fun c => negb (c_template_id c =? tid)%nat) (template_earnings d)).
Definition delete_template_deductions (tid : nat) (d : Db) : Db :=
  set_template_deductions d
    (filter (fun c => negb (c_template_id c =? tid)%nat) (template_deductions d)).

Definition insert_template_earnings (rows : list CategoryRow) (d : Db) : Db :=
  set_template_earnings d (template_earnings d ++ rows).
Definition insert_template_deductions (rows : list CategoryRow) (d : Db) : Db :=
  set_template_deductions d (template_deductions d ++ rows).

Definition same_key (user : string) (m y : Z) (s : SalaryRow) : bool :=
  String.eqb (s_user s) user && (s_month s =? m)%Z && (s_year s =? y)%Z.

(** [from("salary_records").upsert(row, {onConflict: "user_id,month,year"})
    .select().single()]: the row with this key is overwritten in place
    and keeps its id, otherwise a row is added.  The four amounts go to
    numeric(12,2) columns. *)
Definition upsert_salary_record (user organization : string)
    (month year total_earnings total_deductions net_salary gross_salary : number)
    (d : Db) : outcome SalaryRow * Db :=
  match as_integer month, as_integer year with
  | Some m, Some y =>
      if negb (isFinite total_earnings && isFinite total_deductions
               && isFinite net_salary && isFinite gross_salary) then
        (Err "null value violates not-null constraint", d)
      else if negb (fits_numeric total_earnings && fits_numeric total_deductions
                    && fits_numeric net_salary && fits_numeric gross_salary) then
        (Err "numeric field overflow", d)
      else if negb ((1 <=? m)%Z && (m <=? 12)%Z) then
        (Err "violates check constraint salary_records_month_check", d)
      else if negb ((2000 <=? y)%Z && (y <=? 2100)%Z) then
        (Err "violates check constraint salary_records_year_check", d)
      else
        match find (same_key user m y) (salary_records d) with
        | Some old =>
            let row := mkSalary (s_id old) user (Some organization) m y
                         (round2 total_earnings) (round2 total_deductions)
                         (round2 net_salary) (round2 gross_salary) in
            (Ok row,
             set_salary_records d
               (map (fun s => if same_key user m y s then row else s) (salary_records d)))
        | None =>
            let row := mkSalary (next_id d) user (Some organization) m y
                         (round2 total_earnings) (round2 total_deductions)
                         (round2 net_salary) (round2 gross_salary) in
            (Ok row, bump_id (set_salary_records d (salary_records d ++ [row])))
        end
  | _, _ => (Err "invalid input syntax for type integer", d)
  end.

(** The row as the line-item table keeps it: [amount] is a
    numeric(12,2) column. *)
Definition stored_item (r : ItemRow) : ItemRow :=
  mkItemRow (i_salary_record_id r) (i_category r) (round2 (i_amount r)).

(** [from("earnings").insert(rows)]: one statement, refused as a whole
    when an amount does not fit its column. *)
Definition insert_earnings (rows : list ItemRow) (d : Db) : outcome unit * Db :=
  if forallb (fun r => fits_numeric (i_amount r)) rows
  then (Ok tt, set_earnings d (earnings_tbl d ++ map stored_item rows))
  else (Err "numeric field overflow", d).
Definition insert_deductions (rows : list ItemRow) (d : Db) : outcome unit * Db :=
  if forallb (fun r => fits_numeric (i_amount r)) rows
  then (Ok tt, set_deductions d (deductions_tbl d ++ map stored_item rows))
  else (Err "numeric field overflow", d).

(** The line items a salary record owns. *)
Definition earnings_of (rid : nat) (d : Db) : list LineItem :=
  map (fun r => mkItem (i_category r) (i_amount r))
      (filter (fun r => (i_salary_record_id r =? rid)%nat) (earnings_tbl d)).
Definition deductions_of (rid : nat) (d : Db) : list LineItem :=
  map (fun r => mkItem (i_category r) (i_amount r))
      (filter (fun r => (i_salary_record_id r =? rid)%nat) (deductions_tbl d)).

End Store.

(** ** performImport (lines 454-636) *)

Module Executor.
Import Store.

Definition MAX_AMOUNT : number := ofZ 100000000.
Definition MIN_YEAR : number := ofZ 2000.
Definition MAX_YEAR : number := ofZ 2100.

(** What a run of the executor carries: the store and the counters. *)
Record Exec : Type := mkExec {
  db : Db;
  totalRecordsImported : nat;
  totalTemplates : nat;
  processedRecords : nat
}.

Definition exec0 (d : Db) : Exec := mkExec d 0 0 0.

Definition with_db (e : Exec) (d : Db) : Exec :=
  mkExec d (totalRecordsImported e) (totalTemplates e) (processedRecords e).

(** State and error monad of the executor: a thrown error stops the
    run and leaves the state as it is at that point. *)
Definition M (A : Type) : Type := Exec -> outcome A * Exec.

Definition ret {A} (a : A) : M A := fun e => (Ok a, e).
Definition throw {A} (msg : string) : M A := fun e => (Err msg, e).
Definition bind {A B} (m : M A) (k : A -> M B) : M B :=
  fun e => match m e with
           | (Ok a, e') => k a e'
           | (Err msg, e') => (Err msg, e')
           end.

Notation "x <- m ;; k" := (bind m (fun x => k))
  (at level 61, m at next level, right associativity).
Notation "m ;;; k" := (bind m (fun _ => k))
  (at level 61, right associativity).

(** A store call that cannot be refused. *)
Definition call (f : Db -> Db) : M unit := fun e => (Ok tt, with_db e (f (db e))).
Definition query {A} (f : Db -> outcome A) : M A := fun e => (f (db e), e).
Definition call_ret {A} (f : Db -> A * Db) : M A :=
  fun e => let '(a, d) := f (db e) in (Ok a, with_db e d).
Definition call_try {A} (f : Db -> outcome A * Db) : M A :=
  fun e => let '(a, d) := f (db e) in (a, with_db e d).

Definition when (b : bool) (m : M unit) : M unit := if b then m else ret tt.

Fixpoint forEach {A} (l : list A) (body : A -> M unit) : M unit :=
  match l with
  | [] => ret tt
  | x :: rest => body x ;;; forEach rest body
  end.

(** [set.add(x)] on an insertion-ordered set. *)
Definition set_add (s : list string) (x : string) : list string :=
  if list_includes x s then s else s ++ [x].

Definition allEarningsCategories (records : list ParsedRecord) : list string :=
  fold_left (fun s r => fold_left (fun s e => set_add s (category e)) (earnings r) s)
            records [].
Definition allDeductionsCategories (records : list ParsedRecord) : list string :=
  fold_left (fun s r => fold_left (fun s e => set_add s (category e)) (deductions r) s)
            records [].

(** The three guards of lines 538-574, as the condition under which the
    record is not skipped. *)
Definition bad_month_year (r : ParsedRecord) : bool :=
  negb (isFinite (month r)) || lt (month r) (ofZ 1) || gt (month r) (ofZ 12)
  || negb (isFinite (year r)) || lt (year r) MIN_YEAR || gt (year r) MAX_YEAR.

Definition bad_totals (r : ParsedRecord) : bool :=
  negb (isFinite (totalEarnings r)) || negb (isFinite (totalDeductions r))
  || negb (isFinite (netSalary r))
  || lt (totalEarnings r) (ofZ 0) || lt (totalDeductions r) (ofZ 0)
  || gt (totalEarnings r) MAX_AMOUNT || gt (totalDeductions r) MAX_AMOUNT.

Definition bad_item (e : LineItem) : bool :=
  negb (isFinite (amount e)) || lt (amount e) (ofZ 0) || gt (amount e) MAX_AMOUNT.

Definition hasInvalidLineItem (r : ParsedRecord) : bool :=
  existsb bad_item (earnings r) || existsb bad_item (deductions r).

Definition count_record : M unit :=
  fun e => (Ok tt, mkExec (db e) (S (totalRecordsImported e)) (totalTemplates e)
                          (S (processedRecords e))).

Definition count_template : M unit :=
  fun e => (Ok tt, mkExec (db e) (totalRecordsImported e) (S (totalTemplates e))
                          (processedRecords e)).

(** The body of [for (const record of records)] (lines 535-619). *)
Definition importRecord (user : string) (record : ParsedRecord) : M unit :=
  if bad_month_year record then ret tt
  else if bad_totals record then ret tt
  else if hasInvalidLineItem record then ret tt
  else
    salaryRecord <- call_try (upsert_salary_record user (organization record)
                                (month record) (year record)
                                (totalEarnings record) (totalDeductions record)
                                (netSalary record) (totalEarnings record)) ;;
    count_record ;;;
    when (0 <? List.length (earnings record))%nat
      (call_try (insert_earnings
                   (map (fun e => mkItemRow (s_id salaryRecord) (category e) (amount e))
                        (earnings record)))) ;;;
    when (0 <? List.length (deductions record))%nat
      (call_try (insert_deductions
                   (map (fun e => mkItemRow (s_id salaryRecord) (category e) (amount e))
                        (deductions record)))).

(** The body of [for (const { sheetName, records } of sheets)]. *)
Definition importSheet (user : string) (s : SheetPlan) : M unit :=
  let sheetName := sp_sheetName s in
  let records := sp_records s in
  if (List.length records =? 0)%nat then ret tt
  else
    existingTemplate <- query (select_template user sheetName) ;;
    template <- match existingTemplate with
                | None => call_ret (insert_template user sheetName)
                | Some t =>
                    call (delete_template_earnings (t_id t)) ;;;
                    call (delete_template_deductions (t_id t)) ;;;
                    ret t
                end ;;
    count_template ;;;
    let earningsInserts :=
      map (mkCategory (t_id template)) (allEarningsCategories records) in
    when (0 <? List.length earningsInserts)%nat
      (call (insert_template_earnings earningsInserts)) ;;;
    let deductionsInserts :=
      map (mkCategory (t_id template)) (allDeductionsCategories records) in
    when (0 <? List.length deductionsInserts)%nat
      (call (insert_template_deductions deductionsInserts)) ;;;
    forEach records (importRecord user).

(** The whole run: the [try] block over the plan's sheets.  [Err] is
    the error the [catch] reports. *)
Definition performImport (user : string) (plan : ImportPlan) (d : Db)
    : outcome unit * Exec :=
  forEach (sheets plan) (importSheet user) (exec0 d).

End Executor.

(** ** handleExportToExcel (lines 647-817) *)

Module Exporter.

(** One element of the query result: a salary record with its nested
    line items.  [month] and [year] are integer columns. *)
Record Fetched : Type := mkFetched {
  f_month : Z;
  f_year : Z;
  f_organization : option string;
  f_total_earnings : number;
  f_total_deductions : number;
  f_net_salary : number;
  f_earnings : list LineItem;
  f_deductions : list LineItem
}.

(** [select(... earnings (category, amount), deductions (category, amount))
    .eq("user_id", user.id)] *)
Definition fetch (user : string) (d : Store.Db) : list Fetched :=
  map (fun s => mkFetched (Store.s_month s) (Store.s_year s) (Store.s_organization s)
                  (Store.s_total_earnings s) (Store.s_total_deductions s)
                  (Store.s_net_salary s)
                  (Store.earnings_of (Store.s_id s) d)
                  (Store.deductions_of (Store.s_id s) d))
      (filter (fun s => String.eqb (Store.s_user s) user) (Store.salary_records d)).

(** The component state the export reads.  A year bound is [None] when
    its input is empty and the [Number(...)] of its text otherwise. *)
Record Options : Type := mkOptions {
  exportYearFrom : option number;
  exportYearTo : option number;
  includeRareEarningCategories : bool;
  includeRareDeductionCategories : bool
}.

(** The initial state of these fields. *)
Definition defaults : Options := mkOptions None None true true.

Definition RARE_CATEGORY_THRESHOLD : nat := 3.

Definition MONTHS : list string :=
  ["January"; "February"; "March"; "April"; "May"; "June";
   "July"; "August"; "September"; "October"; "November"; "December"].

(** [String(z)] for an integer. *)
Definition Z_toString (z : Z) : string :=
  DecimalString.NilEmpty.string_of_int (Z.to_int z).

Definition normalizeOrgName (rawOrg : option string) : string :=
  let trimmed := trim (match rawOrg with Some s => s | None => "" end) in
  if String.eqb trimmed "" then "Not specified"
  else
    let upper := toUpperCase trimmed in
    if includes "TATA CONSULTANCY" upper || String.eqb upper "TCS" then "TCS"
    else if includes "NATWEST" upper || includes "NATIONAL WESTMINSTER" upper then "NATWEST"
    else if includes "RBS" upper || includes "ROYAL BANK OF SCOTLAND" upper then "RBS"
    else if includes "CITI" upper || includes "CITIBANK" upper then "CITI"
    else trimmed.

(** [record.organization || "Not specified"]. *)
Definition org_or_default (o : option string) : string :=
  match o with
  | Some s => if String.eqb s "" then "Not specified" else s
  | None => "Not specified"
  end.

Record OrgExportData : Type := mkOrgData {
  od_records : list Fetched;
  earningCategories : list string;
  deductionCategories : list string;
  earningCounts : list (string * nat);
  deductionCounts : list (string * nat)
}.

Definition orgData0 : OrgExportData := mkOrgData [] [] [] [] [].

(** [counts.get(cat) || 0]. *)
Fixpoint count_get (m : list (string * nat)) (cat : string) : nat :=
  match m with
  | [] => 0
  | (k, v) :: rest => if String.eqb k cat then v else count_get rest cat
  end.

(** [counts.set(cat, v)]. *)
Fixpoint count_set (m : list (string * nat)) (cat : string) (v : nat) : list (string * nat) :=
  match m with
  | [] => [(cat, v)]
  | (k, w) :: rest => if String.eqb k cat then (k, v) :: rest else (k, w) :: count_set rest cat v
  end.

Definition add_record (od : OrgExportData) (record : Fetched) : OrgExportData :=
  let od1 := mkOrgData (od_records od ++ [record]) (earningCategories od)
               (deductionCategories od) (earningCounts od) (deductionCounts od) in
  let od2 :=
    fold_left (fun o e =>
                 mkOrgData (od_records o) (Executor.set_add (earningCategories o) (category e))
                   (deductionCategories o)
                   (count_set (earningCounts o) (category e)
                      (count_get (earningCounts o) (category e) + 1))
                   (deductionCounts o))
              (f_earnings record) od1 in
  fold_left (fun o e =>
               mkOrgData (od_records o) (earningCategories o)
                 (Executor.set_add (deductionCategories o) (category e))
                 (earningCounts o)
                 (count_set (deductionCounts o) (category e)
                    (count_get (deductionCounts o) (category e) + 1)))
            (f_deductions record) od2.

(** The insertion-ordered [orgMap]. *)
Definition OrgMap : Type := list (string * OrgExportData).

Fixpoint orgMap_update (m : OrgMap) (orgName : string) (record : Fetched) : OrgMap :=
  match m with
  | [] => [(orgName, add_record orgData0 record)]
  | (k, od) :: rest =>
      if String.eqb k orgName then (k, add_record od record) :: rest
      else (k, od) :: orgMap_update rest orgName record
  end.

Definition build_orgMap (filteredRecords : list Fetched) : OrgMap :=
  fold_left (fun m record =>
               orgMap_update m (normalizeOrgName (Some (org_or_default (f_organization record))))
                             record)
            filteredRecords [].

(** A stable sort by insertion, for [Array.prototype.sort]. *)
Fixpoint insert_sorted {A} (leb : A -> A -> bool) (x : A) (l : list A) : list A :=
  match l with
  | [] => [x]
  | y :: t => if leb x y then x :: y :: t else y :: insert_sorted leb x t
  end.

Fixpoint sort {A} (leb : A -> A -> bool) (l : list A) : list A :=
  match l with
  | [] => []
  | x :: t => insert_sorted leb x (sort leb t)
  end.

(** The comparator of line 777, as "a goes no later than b". *)
Definition by_year_month (a b : Fetched) : bool :=
  if (f_year a =? f_year b)%Z then (f_month a - f_month b <=? 0)%Z
  else (f_year a - f_year b <=? 0)%Z.

Definition find_amount (items : list LineItem) (cat : string) : number :=
  match find (fun e => String.eqb (category e) cat) items with
  | Some entry => amount entry
  | None => ofZ 0
  end.

(** [MONTHS[record.month - 1]]; [None] is [undefined], on which
    [.slice] throws. *)
Definition month_name (m : Z) : option string :=
  if (m - 1 <? 0)%Z then None else nth_error MONTHS (Z.to_nat (m - 1)).

Definition export_row (earningCats deductionCats : list string) (record : Fetched)
    : option (list cell) :=
  match month_name (f_month record) with
  | None => None
  | Some name =>
      let monthLabel :=
        (toUpperCase (substring 0 3 name) ++ " " ++ Z_toString (f_year record))%string in
      Some (CStr monthLabel
            :: map (fun cat => CNum (find_amount (f_earnings record) cat)) earningCats
            ++ map (fun cat => CNum (find_amount (f_deductions record) cat)) deductionCats
            ++ [CNum (or_zero (f_total_earnings record));
                CNum (or_zero (f_total_deductions record));
                CNum (or_zero (f_net_salary record))])
  end.

(** [None] as soon as one element is. *)
Fixpoint sequence {A} (l : list (option A)) : option (list A) :=
  match l with
  | [] => Some []
  | None :: _ => None
  | Some x :: t => match sequence t with Some r => Some (x :: r) | None => None end
  end.

(** An array of arrays: the header row and the data rows. *)
Definition Aoa : Type := (list string * list (list cell))%type.

Definition export_sheet (opts : Options) (orgData : OrgExportData) : option Aoa :=
  let earningCats0 := sort String.leb (earningCategories orgData) in
  let deductionCats0 := sort String.leb (deductionCategories orgData) in
  let earningCats :=
    if includeRareEarningCategories opts then earningCats0
    else filter (fun cat =>
                   (RARE_CATEGORY_THRESHOLD <=? count_get (earningCounts orgData) cat)%nat)
                earningCats0 in
  let deductionCats :=
    if includeRareDeductionCategories opts then deductionCats0
    else filter (fun cat =>
                   (RARE_CATEGORY_THRESHOLD <=? count_get (deductionCounts orgData) cat)%nat)
                deductionCats0 in
  let headers := "Month Year" :: earningCats ++ deductionCats
                 ++ ["Total Earnings"; "Total Deductions"; "Net Pay"] in
  match sequence (map (export_row earningCats deductionCats)
                      (sort by_year_month (od_records orgData))) with
  | Some rows => Some (headers, rows)
  | None => None
  end.

(** [orgName.substring(0, 31) || "Organisation"]. *)
Definition safeSheetName (orgName : string) : string :=
  let s := substring 0 31 orgName in
  if String.eqb s "" then "Organisation" else s.

(** The workbook handed to [XLSX.writeFile]: named sheets in order. *)
Definition ExportBook : Type := list (string * Aoa).

(** The characters the codec refuses in a sheet name. *)
Definition bad_sheet_chars : list string := ["]"; "["; "*"; "?"; "/"; "\"; ":"].

(** [XLSX.utils.book_append_sheet], which throws when the name has more
    than 31 characters, holds one of [bad_sheet_chars] or is taken. *)
Definition book_append_sheet (wb : ExportBook) (ws : Aoa) (name : string) : option ExportBook :=
  if (31 <? String.length name)%nat
     || existsb (fun c => includes c name) bad_sheet_chars
     || existsb (fun s => String.eqb (fst s) name) wb then None
  else Some (wb ++ [(name, ws)]).

Definition filter_years (opts : Options) (salaryRecords : list Fetched) : list Fetched :=
  let l1 := match exportYearFrom opts with
            | Some fromYear => filter (fun r => ge (ofZ (f_year r)) fromYear) salaryRecords
            | None => salaryRecords
            end in
  match exportYearTo opts with
  | Some toYear => filter (fun r => le (ofZ (f_year r)) toYear) l1
  | None => l1
  end.

(** The export of a query result; [None] when nothing is written (no
    record to export, or an exception on the way). *)
Definition exportToExcel (opts : Options) (salaryRecords : list Fetched) : option ExportBook :=
  match salaryRecords with
  | [] => None
  | _ =>
      match filter_years opts salaryRecords with
      | [] => None
      | filteredRecords =>
          fold_left (fun wb entry =>
                       match wb with
                       | None => None
                       | Some b =>
                           match export_sheet opts (snd entry) with
                           | Some ws => book_append_sheet b ws (safeSheetName (fst entry))
                           | None => None
                           end
                       end)
                    (build_orgMap filteredRecords) (Some [])
      end
  end.

(** Modelled from the spec: the spreadsheet codec (the xlsx package),
    "reads workbook bytes into a sequence of named sheets, each a
    sequence of row objects keyed by column header".  A sheet written
    from a header row and data rows is read back as one object per data
    row, pairing each header with the row's cell in that column; this is
    the codec's behaviour for distinct, non-empty headers and rows
    without empty cells, when the texts are ones the codec does not
    rewrite (it unescapes [_xHHHH_] in a text it reads, and the keys of a
    row object that are decimal numbers come first). *)
Definition sheet_to_json (ws : Aoa) : list Row :=
  map (fun r => combine (fst ws) r) (snd ws).

Definition read_back (wb : ExportBook) : list (string * list Row) :=
  map (fun s => (fst s, sheet_to_json (snd s))) wb.

End Exporter.

(** ** Backup import: handleImportBackupFile and performBackupImport
       (lines 883-1132) *)

Module Backup.

#[warnings="-register-all"]
Inductive Json : Type :=
| JNull
| JBool (b : bool)
| JNumber (n : number)
| JString (s : string)
| JArray (l : list Json)
| JObject (fields : list (string * Json)).

(** The file picked by the user: its size in bytes and its text. *)
Record File : Type := mkFile { size : N; text : string }.

Definition MAX_FILE_SIZE : N := 10 * 1024 * 1024.

(** [x.key]; [None] is [undefined] (also on arrays and primitives). *)
Fixpoint field_get (fields : list (string * Json)) (key : string) : option Json :=
  match fields with
  | [] => None
  | (k, v) :: rest => if String.eqb k key then Some v else field_get rest key
  end.

Definition get (j : Json) (key : string) : option Json :=
  match j with
  | JObject fields => field_get fields key
  | _ => None
  end.

(** [typeof j === "object"] together with [!!j]. *)
Definition is_object (j : Json) : bool :=
  match j with
  | JObject _ | JArray _ => true
  | _ => false
  end.

(** [j.version === 1]. *)
Definition version_is_1 (j : Json) : bool :=
  match get j "version" with
  | Some (JNumber (Fin q)) => Qeq_bool (this q) 1
  | _ => false
  end.

(** [Array.isArray(x) ? x : nothing], for a field that may be absent. *)
Definition array_of (j : option Json) : option (list Json) :=
  match j with
  | Some (JArray l) => Some l
  | _ => None
  end.

Definition array_length (j : option Json) : nat :=
  match array_of j with
  | Some l => List.length l
  | None => 0
  end.

Record Counts : Type := mkCounts {
  c_totalTemplates : nat;
  c_totalSalaryRecords : nat;
  c_totalEmploymentHistory : nat;
  c_totalProfileEntries : nat;
  c_totalBudgetHistory : nat;
  c_totalImportItems : nat
}.

Definition profile_object (data : Json) : bool :=
  match get data "profile" with
  | Some p => is_object p
  | None => false
  end.

Definition counts_of (data : Json) : Counts :=
  let t := array_length (get data "organizationTemplates") in
  let s := array_length (get data "salaryRecords") in
  let e := array_length (get data "employmentHistory") in
  let p := if profile_object data then 1 else 0 in
  let b := array_length (get data "budgetHistory") in
  mkCounts t s e p b (t + s + e + p + b).

(** A request sent to the persistence service.  An insert carries the
    backup element its row is built from. *)
Inductive Call : Type :=
| Rpc (fn : string)
| DeleteWhereUser (table : string)
| Insert (table : string) (source : Json)
| Upsert (table : string) (source : Json).

(** The part of the component state the backup import uses, with the
    requests sent so far and the toasts shown so far. *)
Record State : Type := mkState {
  pendingBackupData : option Json;
  pendingBackupCounts : option Counts;
  backupConfirmOpen : bool;
  backupImportSummary : option Counts;
  calls : list Call;
  toasts : list string
}.

Definition init : State := mkState None None false None [] [].

(** An instruction of the restore sequence: a request, or a point where
    destructuring a [null] element throws. *)
Inductive Instr : Type :=
| Do (c : Call)
| Raise.

Definition is_null (j : Json) : bool :=
  match j with JNull => true | _ => false end.

(** The insert of the nested line items of a restored element: the rows
    are built by reading [category] (and [amount]) of every element of the
    array, which throws on a [null] element before anything is sent. *)
Definition restore_nested (table : string) (j : option Json) : list Instr :=
  match array_of j with
  | Some (x :: l) =>
      if existsb is_null (x :: l) then [Raise] else [Do (Insert table (JArray (x :: l)))]
  | _ => []
  end.

Definition restore_with_items (table earn_table ded_table earn_key ded_key : string)
    (item : Json) : list Instr :=
  match item with
  | JNull => [Raise]
  | _ =>
      [Do (Insert table item)]
      ++ restore_nested earn_table (get item earn_key)
      ++ restore_nested ded_table (get item ded_key)
  end.

Definition restore_plain (table : string) (item : Json) : list Instr :=
  match item with
  | JNull => [Raise]
  | _ => [Do (Insert table item)]
  end.

Definition for_array (j : option Json) (body : Json -> list Instr) : list Instr :=
  match array_of j with
  | Some l => flat_map body l
  | None => []
  end.

(** The requests of the [try] block of performBackupImport, in order. *)
Definition restore_program (data : Json) : list Instr :=
  [Do (Rpc "wipe_all_salary_data"); Do (DeleteWhereUser "budget_history")]
  ++ for_array (get data "organizationTemplates")
       (restore_with_items "organization_templates" "template_earnings"
          "template_deductions" "template_earnings" "template_deductions")
  ++ for_array (get data "salaryRecords")
       (restore_with_items "salary_records" "earnings" "deductions" "earnings" "deductions")
  ++ for_array (get data "employmentHistory") (restore_plain "employment_history")
  ++ for_array (get data "budgetHistory") (restore_plain "budget_history")
  ++ (if profile_object data
      then match get data "profile" with
           | Some p => [Do (Upsert "profiles" p)]
           | None => []
           end
      else []).

Section Handlers.

(** [JSON.parse]; [None] when it throws. *)
Variable JSON_parse : string -> option Json.

(** Whether the service answers a request without error, given the
    requests sent before it. *)
Variable service_ok : list Call -> Call -> bool.

(** The validation of lines 890-905: the data, or the message of the
    error thrown. *)
Definition validate (file : File) : Json + string :=
  if (MAX_FILE_SIZE <? size file)%N then inr "Backup file is too large (max 10MB)"
  else
    match JSON_parse (text file) with
    | None => inr "Invalid backup file format"
    | Some rawData =>
        if negb (is_object rawData) || negb (version_is_1 rawData)
        then inr "Invalid backup file format"
        else inl rawData
    end.

(** [event.target.files?.[0]] is [None] when the picker was closed
    without a file. *)
Definition handleImportBackupFile (st : State) (file : option File) : State :=
  match file with
  | None => st
  | Some f =>
      match validate f with
      | inl data =>
          mkState (Some data) (Some (counts_of data)) true None (calls st) (toasts st)
      | inr message =>
          mkState (pendingBackupData st) (pendingBackupCounts st) (backupConfirmOpen st)
                  (backupImportSummary st) (calls st) (toasts st ++ [message])
      end
  end.

(** Sends the requests one after the other; stops at a refused request
    or at a throw.  Returns the requests sent and whether the end was
    reached. *)
Fixpoint run_program (prog : list Instr) (sent : list Call) : list Call * bool :=
  match prog with
  | [] => (sent, true)
  | Raise :: _ => (sent, false)
  | Do c :: rest =>
      if service_ok sent c then run_program rest (sent ++ [c])
      else (sent ++ [c], false)
  end.

(** On failure the toast shows the message of the error when it has one;
    the model shows the fallback text. *)
Definition performBackupImport (st : State) : State :=
  match pendingBackupData st, pendingBackupCounts st with
  | Some data, Some counts =>
      let '(sent, finished) := run_program (restore_program data) (calls st) in
      if finished then
        mkState None None false (Some counts) sent
                (toasts st ++ ["Backup imported successfully"])
      else
        mkState None None false (backupImportSummary st) sent
                (toasts st ++ ["Failed to import backup"])
  | _, _ => st
  end.

(** What the user can do with this part of the page. *)
Inductive Event : Type :=
| SelectFile (file : option File)
| ConfirmClick
| DialogOpenChange (open : bool).

Definition step (st : State) (ev : Event) : State :=
  match ev with
  | SelectFile file => handleImportBackupFile st file
  | ConfirmClick => performBackupImport st
  | DialogOpenChange open =>
      mkState (pendingBackupData st) (pendingBackupCounts st) open
              (backupImportSummary st) (calls st) (toasts st)
  end.

Definition run (evs : list Event) : State := fold_left step evs init.

End Handlers.

End Backup.

(** * Vocabulary of the statements *)

(** The key under which a row's Month/Year cell is looked up in a
    sheet. *)
Definition monthYearKey (data : list Row) : option string :=
  match data with
  | [] => None
  | firstRow :: _ => find_monthYearHeader (keys firstRow)
  end.

Definition monthYearCell (data : list Row) (row : Row) : option cell :=
  row_get row (match monthYearKey data with Some h => h | None => "undefined" end).

Definition sheetHeaders (data : list Row) : list string :=
  match data with
  | [] => []
  | firstRow :: _ => keys firstRow
  end.

(** The state of [processSheet]'s row loop after its first [n]
    iterations. *)
Definition afterRows (Number_toString : number -> string)
    (data : list Row) (organization : string) (n : nat) : SheetResult :=
  rowLoop Number_toString organization (sheetHeaders data) (monthYearKey data)
          0 (firstn n data) result0.

(** The result of [processSheet] for each sheet of a workbook. *)
Definition sheetResults (Number_toString : number -> string)
    (wb : list (string * list Row)) : list (string * SheetResult) :=
  map (fun s => (fst s, processSheet Number_toString (snd s) (fst s))) wb.

(** The sheets the plan builder keeps. *)
Definition kept (res : string * SheetResult) : bool :=
  negb ((List.length (records (snd res)) =? 0)%nat
        && (List.length (sheetInvalid (snd res)) =? 0)%nat).

(** Every skipped row has its diagnostic. *)
Definition counted (r : SheetResult) : Prop :=
  skippedRows r = List.length (sheetInvalid r).

(** A line item that the header loop can have pushed for this row: its
    category is a header that is not reserved and whose cell coerces to
    the item's amount, which is not zero. *)
Definition item_from_row (monthYearHeader : option string) (row : Row) (it : LineItem) : Prop :=
  numVal (row_get row (category it)) = Some (amount it)
  /\ is_zero (amount it) = false
  /\ reserved monthYearHeader (category it) = false.

(** A cell that gives no amount: it coerces to nothing, or to zero. *)
Definition no_amount (v : option cell) : Prop :=
  numVal v = None \/ exists n, numVal v = Some n /\ is_zero n = true.

Definition toSheetPlan (res : string * SheetResult) : SheetPlan :=
  mkSheetPlan (fst res) (records (snd res)) (skippedRows (snd res)).

(** Whether a string contains a space character. *)
Fixpoint has_space (s : string) : bool :=
  match s with
  | EmptyString => false
  | String c s' => Ascii.eqb c " "%char || has_space s'
  end.

(** [x] is a finite number with [lo <= x <= hi]. *)
Definition in_range (lo hi x : number) : bool :=
  isFinite x && le lo x && le x hi.

(** The bounds as the specification words them: month, year and every
    monetary value of the record, [netSalary] included. *)
Definition claimed_bounds_ok (r : ParsedRecord) : bool :=
  in_range (ofZ 1) (ofZ 12) (month r)
  && in_range (ofZ 2000) (ofZ 2100) (year r)
  && in_range (ofZ 0) (ofZ 100000000) (totalEarnings r)
  && in_range (ofZ 0) (ofZ 100000000) (totalDeductions r)
  && in_range (ofZ 0) (ofZ 100000000) (netSalary r)
  && forallb (fun it => in_range (ofZ 0) (ofZ 100000000) (amount it))
             (earnings r ++ deductions r).

(** The bounds the executor's guards amount to: [netSalary] only has to
    be finite. *)
Definition write_bounds_ok (r : ParsedRecord) : bool :=
  in_range (ofZ 1) (ofZ 12) (month r)
  && in_range (ofZ 2000) (ofZ 2100) (year r)
  && in_range (ofZ 0) (ofZ 100000000) (totalEarnings r)
  && in_range (ofZ 0) (ofZ 100000000) (totalDeductions r)
  && isFinite (netSalary r)
  && forallb (fun it => in_range (ofZ 0) (ofZ 100000000) (amount it))
             (earnings r ++ deductions r).

(** The rows the executor inserts for a record's line items. *)
Definition item_rows (rid : nat) (items : list LineItem) : list Store.ItemRow :=
  map (fun e => Store.mkItemRow rid (category e) (amount e)) items.

(** These rows as the line-item table keeps them: the amounts with two
    decimals. *)
Definition stored_rows (rid : nat) (items : list LineItem) : list Store.ItemRow :=
  map (fun e => Store.mkItemRow rid (category e) (Store.round2 (amount e))) items.

(** ** Sample data *)

(** A month in which the deductions exceed the earnings. *)
Definition negative_net : ParsedRecord :=
  mkParsed "ACME" (ofZ 1) (ofZ 2025)
           [mkItem "Basic" (ofZ 1000)] [mkItem "Income Tax" (ofZ 1500)]
           (ofZ 1000) (ofZ 1500) (ofZ (-500)).

(** A month whose net salary is too large for its numeric(12,2)
    column. *)
Definition net_over_column : ParsedRecord :=
  mkParsed "ACME" (ofZ 1) (ofZ 2025)
           [mkItem "Basic" (ofZ 1000)] []
           (ofZ 1000) (ofZ 0) (ofZ 10000000000).

(** Two versions of the January 2025 payslip of one organization. *)
Definition january_v1 : ParsedRecord :=
  mkParsed "ACME" (ofZ 1) (ofZ 2025)
           [mkItem "Basic" (ofZ 1000)] [mkItem "Income Tax" (ofZ 100)]
           (ofZ 1000) (ofZ 100) (ofZ 900).

Definition january_v2 : ParsedRecord :=
  mkParsed "ACME" (ofZ 1) (ofZ 2025)
           [mkItem "HRA" (ofZ 500)] []
           (ofZ 500) (ofZ 0) (ofZ 500).

Definition single_record_plan (p : ParsedRecord) : ImportPlan :=
  mkPlan [mkSheetPlan (organization p) [p] 0] 1 0 [].

(** A stand-in for [String(n)] where its value does not matter. *)
Definition no_digits (n : number) : string := "".

(** A backup file that must not be accepted: too large, not JSON, or
    JSON without [version === 1]. *)
Definition rejected (JSON_parse : string -> option Backup.Json) (f : Backup.File) : Prop :=
  (Backup.MAX_FILE_SIZE < Backup.size f)%N
  \/ JSON_parse (Backup.text f) = None
  \/ exists j, JSON_parse (Backup.text f) = Some j /\ Backup.version_is_1 j = false.

(** A parser that accepts nothing, and a sample file of 11 MB. *)
Definition parse_nothing (s : string) : option Backup.Json := None.
Definition always_ok (sent : list Backup.Call) (c : Backup.Call) : bool := true.
Definition oversized_file : Backup.File := Backup.mkFile (11 * 1024 * 1024) "{}".

(** A sheet of organization TCS: a good row, a row without Month/Year,
    and a row with a zero, a negative and a non-numeric cell. *)
Definition row_jan : Row :=
  [("Month Year", CStr "JAN 2025"); ("Basic Salary", CNum (ofZ 80000));
   ("Conveyance Taxable", CNum (ofZ 1600)); ("Income Tax", CNum (ofZ 18000));
   ("Total Earnings", CNum (ofZ 81600)); ("Total Deductions", CNum (ofZ 18000));
   ("Net Salary", CNum (ofZ 63600))].

Definition row_blank : Row :=
  [("Month Year", CStr ""); ("Basic Salary", CNum (ofZ 80000))].

Definition row_feb : Row :=
  [("Month Year", CStr "FEB 2025"); ("Basic Salary", CNum (ofZ 0));
   ("Conveyance Taxable", CStr "n/a"); ("Income Tax", CNum (ofZ (-500)))].

Definition sample_sheet : list Row := [row_jan; row_blank; row_feb].

Definition sample_headers : list string := keys row_jan.

Definition record_feb : ParsedRecord :=
  mkParsed "TCS" (ofZ 2) (ofZ 2025) [] [mkItem "Income Tax" (ofZ (-500))]
           (ofZ 0) (ofZ 0) (ofZ 0).

(** Every character of the string satisfies [p]. *)
Fixpoint all_chars (p : ascii -> bool) (s : string) : bool :=
  match s with
  | EmptyString => true
  | String c s' => p c && all_chars p s'
  end.

(** ** Vocabulary of the export/import round trip *)

(** Column names with a fixed meaning on one of the two sides: the
    Month/Year column, the importer's three reserved totals and the
    exporter's "Net Pay". *)
Definition special_header (c : string) : bool :=
  list_includes c ["Month Year"; "Total Earnings"; "Total Deductions"; "Net Salary"; "Net Pay"].

(** The importer files a column of this name, for this organization,
    under earnings (resp. deductions). *)
Definition reads_back_as_earning (org c : string) : bool :=
  negb (special_header c)
  && (list_includes c (orgEarnings org)
      || (negb (list_includes c (orgDeductions org)) && negb (isDeductionHeader c))).

Definition reads_back_as_deduction (org c : string) : bool :=
  negb (special_header c)
  && negb (list_includes c (orgEarnings org))
  && (list_includes c (orgDeductions org) || isDeductionHeader c).

(** An organization name that the export writes unchanged as sheet
    name. *)
Definition stable_org (o : string) : bool :=
  String.eqb (Exporter.normalizeOrgName (Some o)) o
  && negb (String.eqb o "")
  && (String.length o <=? 31)%nat.

(** Every character is an ASCII one, the range on which [Js] models
    case mapping and whitespace. *)
Definition is_ascii (s : string) : bool := all_chars (fun c => (code c <? 128)%nat) s.

Definition printable (c : ascii) : bool := (32 <=? code c)%nat && (code c <=? 126)%nat.

(** The names of the properties every plain object inherits from
    [Object.prototype]: indexing one of the per-organization tables by
    such a name yields the inherited value, not a category list. *)
Definition Object_prototype_names : list string :=
  ["constructor"; "toString"; "toLocaleString"; "valueOf"; "hasOwnProperty";
   "isPrototypeOf"; "propertyIsEnumerable"; "__proto__";
   "__defineGetter__"; "__defineSetter__"; "__lookupGetter__"; "__lookupSetter__"].

Definition inherited_property (name : string) : bool :=
  list_includes name Object_prototype_names.

(** A text the codec writes and reads back unchanged, as a cell and as
    a header: not empty, at most 32767 characters (the codec refuses to
    write a longer text), printable ASCII, without the codec's escape
    marker [_x] (it reads "_x0041_" back as "A", in either case of the
    x), not the decimal text of a number (which, as a key of a row
    object, moves to the front of [Object.keys]) and not the name of an
    inherited property (as a key, "__proto__" is not stored in the row
    object). *)
Definition codec_safe (s : string) : bool :=
  negb (String.eqb s "")
  && (N.of_nat (String.length s) <=? 32767)%N
  && all_chars printable s
  && negb (includes "_x" (toLowerCase s))
  && negb (all_chars is_digit s)
  && negb (inherited_property s).

(** The last character of a string is an apostrophe. *)
Fixpoint ends_with_apostrophe (s : string) : bool :=
  match s with
  | EmptyString => false
  | String c EmptyString => Ascii.eqb c "'"%char
  | String _ s' => ends_with_apostrophe s'
  end.

(** A sheet name the codec accepts whatever its version (no refused
    character, no apostrophe at either end, not the reserved "History")
    and reads back unchanged, and under which the importer looks up a
    category list. *)
Definition sheet_name_ok (o : string) : bool :=
  codec_safe o
  && negb (existsb (fun c => includes c o) Exporter.bad_sheet_chars)
  && negb (prefix "'" o) && negb (ends_with_apostrophe o)
  && negb (String.eqb (toLowerCase o) "history").

(** What the columns of the store guarantee of a persisted record: a
    year from 2000 to 2100 and finite amounts. *)
Definition storable (r : Exporter.Fetched) : bool :=
  (2000 <=? Exporter.f_year r)%Z && (Exporter.f_year r <=? 2100)%Z
  && isFinite (Exporter.f_total_earnings r)
  && isFinite (Exporter.f_total_deductions r)
  && isFinite (Exporter.f_net_salary r)
  && forallb (fun e => isFinite (amount e)) (Exporter.f_earnings r ++ Exporter.f_deductions r).

(** The persisted records for which the round trip is stated. *)
Definition exportable (r : Exporter.Fetched) : bool :=
  match Exporter.f_organization r with
  | Some o =>
      stable_org o
      && (1 <=? Exporter.f_month r)%Z && (Exporter.f_month r <=? 12)%Z
      && negb (isNaN (Exporter.f_total_earnings r))
      && negb (isNaN (Exporter.f_total_deductions r))
      && forallb (fun e => reads_back_as_earning o (category e)) (Exporter.f_earnings r)
      && forallb (fun e => reads_back_as_deduction o (category e)) (Exporter.f_deductions r)
      && forallb (fun e => codec_safe (category e)) (Exporter.f_earnings r ++ Exporter.f_deductions r)
      && sheet_name_ok o
      && storable r
  | None => false
  end.

(** The re-imported record [p] carries the data of the persisted record
    [r]: same organization, month, year and declared totals of earnings
    and deductions, and the same amount per category (the amount of a
    category being that of its first line item, 0 when it has none).  The
    exporter's "Net Pay" column and [netSalary] are left out. *)
Definition same_payslip (r : Exporter.Fetched) (p : ParsedRecord) : Prop :=
  Exporter.f_organization r = Some (organization p)
  /\ month p = ofZ (Exporter.f_month r)
  /\ year p = ofZ (Exporter.f_year r)
  /\ totalEarnings p = Exporter.f_total_earnings r
  /\ totalDeductions p = Exporter.f_total_deductions r
  /\ (forall c, c <> "Net Pay" ->
                Exporter.find_amount (earnings p) c
                = Exporter.find_amount (Exporter.f_earnings r) c)
  /\ (forall c, Exporter.find_amount (deductions p) c
                = Exporter.find_amount (Exporter.f_deductions r) c).

(** The header row of an exported sheet. *)
Definition export_headers (earningCats deductionCats : list string) : list string :=
  "Month Year" :: earningCats ++ deductionCats
  ++ ["Total Earnings"; "Total Deductions"; "Net Pay"].

(** The non-zero amounts of the categories [cats], in that order. *)
Definition items_of (cats : list string) (items : list LineItem) : list LineItem :=
  flat_map (fun c => if is_zero (Exporter.find_amount items c) then []
                     else [mkItem c (Exporter.find_amount items c)]) cats.

(** What the importer makes of the "Net Pay" column of an exported
    row. *)
Definition net_pay_item (r : Exporter.Fetched) : list LineItem :=
  if is_zero (or_zero (Exporter.f_net_salary r)) then []
  else [mkItem "Net Pay" (or_zero (Exporter.f_net_salary r))].

(** The record read back from the exported row of [r]. *)
Definition reimported (org : string) (earningCats deductionCats : list string)
    (r : Exporter.Fetched) : ParsedRecord :=
  mkParsed org (ofZ (Exporter.f_month r)) (ofZ (Exporter.f_year r))
           (items_of earningCats (Exporter.f_earnings r) ++ net_pay_item r)
           (items_of deductionCats (Exporter.f_deductions r))
           (or_zero (Exporter.f_total_earnings r))
           (or_zero (Exporter.f_total_deductions r))
           (ofZ 0).

(** The cell of an exported row under header [h]. *)
Definition cell_of (label : string) (earningCats deductionCats : list string)
    (r : Exporter.Fetched) (h : string) : cell :=
  if String.eqb h "Month Year" then CStr label
  else if list_includes h earningCats then CNum (Exporter.find_amount (Exporter.f_earnings r) h)
  else if list_includes h deductionCats then CNum (Exporter.find_amount (Exporter.f_deductions r) h)
  else if String.eqb h "Total Earnings" then CNum (or_zero (Exporter.f_total_earnings r))
  else if String.eqb h "Total Deductions" then CNum (or_zero (Exporter.f_total_deductions r))
  else CNum (or_zero (Exporter.f_net_salary r)).

(** The label of the Month/Year cell. *)
Definition month_label (name : string) (y : Z) : string :=
  (toUpperCase (substring 0 3 name) ++ " " ++ Exporter.Z_toString y)%string.

(** The label and the cells of the exported row of [r]. *)
Definition label_of (r : Exporter.Fetched) : string :=
  match Exporter.month_name (Exporter.f_month r) with
  | Some name => month_label name (Exporter.f_year r)
  | None => ""
  end.

Definition row_cells (earningCats deductionCats : list string) (r : Exporter.Fetched)
    : list cell :=
  map (cell_of (label_of r) earningCats deductionCats r)
      (export_headers earningCats deductionCats).

(** The sheet name under which a record is exported. *)
Definition org_key (r : Exporter.Fetched) : string :=
  Exporter.normalizeOrgName (Some (Exporter.org_or_default (Exporter.f_organization r))).

(** The categories in the header row of a group, with the default
    options. *)
Definition sorted_earnings (od : Exporter.OrgExportData) : list string :=
  Exporter.sort String.leb (Exporter.earningCategories od).
Definition sorted_deductions (od : Exporter.OrgExportData) : list string :=
  Exporter.sort String.leb (Exporter.deductionCategories od).
Definition sorted_records (od : Exporter.OrgExportData) : list Exporter.Fetched :=
  Exporter.sort Exporter.by_year_month (Exporter.od_records od).

(** A group of the export as the round trip needs it: it has a record;
    its records are exportable ones of the organization [k]; its category
    sets are those of its records' line items, without repetition. *)
Definition group_ok (g : string * Exporter.OrgExportData) : Prop :=
  let k := fst g in
  let od := snd g in
  Exporter.od_records od <> []
  /\ Forall (fun r => exportable r = true /\ Exporter.f_organization r = Some k)
            (Exporter.od_records od)
  /\ (forall c, In c (Exporter.earningCategories od)
                <-> exists r e, In r (Exporter.od_records od)
                                /\ In e (Exporter.f_earnings r) /\ category e = c)
  /\ (forall c, In c (Exporter.deductionCategories od)
                <-> exists r e, In r (Exporter.od_records od)
                                /\ In e (Exporter.f_deductions r) /\ category e = c)
  /\ NoDup (Exporter.earningCategories od)
  /\ NoDup (Exporter.deductionCategories od).

(** The sheet the export writes for a group, and what the import reads
    from it. *)
Definition group_sheet (g : string * Exporter.OrgExportData) : Exporter.Aoa :=
  (export_headers (sorted_earnings (snd g)) (sorted_deductions (snd g)),
   map (row_cells (sorted_earnings (snd g)) (sorted_deductions (snd g)))
       (sorted_records (snd g))).

Definition group_reimported (g : string * Exporter.OrgExportData) : list ParsedRecord :=
  map (reimported (fst g) (sorted_earnings (snd g)) (sorted_deductions (snd g)))
      (sorted_records (snd g)).

(** The tuple the specification compares, for a persisted record and for
    a listed one. *)
Definition tuple_of_fetched (r : Exporter.Fetched)
    : number * number * option string * number * number * number :=
  (ofZ (Exporter.f_month r), ofZ (Exporter.f_year r), Exporter.f_organization r,
   Exporter.f_total_earnings r, Exporter.f_total_deductions r, Exporter.f_net_salary r).

Definition tuple_of_parsed (p : ParsedRecord)
    : number * number * option string * number * number * number :=
  (month p, year p, Some (organization p), totalEarnings p, totalDeductions p, netSalary p).

(** The records listed when the export of [recs] is imported. *)
Definition export_then_import (recs : list Exporter.Fetched) : option (list ParsedRecord) :=
  match Exporter.exportToExcel Exporter.defaults recs with
  | Some wb => Some (flat_map sp_records (sheets (buildPlan no_digits (Exporter.read_back wb))))
  | None => None
  end.

(** A record stored under the long name of an organization, with equal
    earnings and deductions. *)
Definition tata_record : Exporter.Fetched :=
  Exporter.mkFetched 1 2025 (Some "Tata Consultancy Services")
    (ofZ 1000) (ofZ 1000) (ofZ 0)
    [mkItem "Basic Salary" (ofZ 1000)] [mkItem "Income Tax" (ofZ 1000)].

(** Two months of organization ACME, stored out of order. *)
Definition acme_feb : Exporter.Fetched :=
  Exporter.mkFetched 2 2025 (Some "ACME") (ofZ 1500) (ofZ 100) (ofZ 1400)
    [mkItem "Basic" (ofZ 1000); mkItem "Bonus" (ofZ 500)] [mkItem "Income Tax" (ofZ 100)].

Definition acme_jan : Exporter.Fetched :=
  Exporter.mkFetched 1 2025 (Some "ACME") (ofZ 1000) (ofZ 100) (ofZ 900)
    [mkItem "Basic" (ofZ 1000)] [mkItem "Income Tax" (ofZ 100)].

(** The example row of the specification, and a row with an amount over
    the cap. *)
Definition row_spec_example : Row :=
  [("Month Year", CStr "JAN 2025"); ("Basic Salary", CNum (ofZ 80000));
   ("HRA", CNum (ofZ 32000)); ("Income Tax", CNum (ofZ 18000));
   ("Provident Fund", CNum (ofZ 9600)); ("Total Earnings", CNum (ofZ 112000));
   ("Total Deductions", CNum (ofZ 27600)); ("Net Salary", CNum (ofZ 84400))].

Definition row_over_cap : Row :=
  [("Month Year", CStr "JAN 2025"); ("Basic Salary", CNum (ofZ 150000000))].

(** ** Vocabulary of the further properties *)

(** What [handleFileUpload] (lines 399-446) leaves in [importPlan] once
    the workbook is decoded: nothing when no sheet is kept (the "No data
    found" error), the plan otherwise. *)
Definition handleFileUpload (Number_toString : number -> string)
    (wb : list (string * list Row)) : option ImportPlan :=
  let plan := buildPlan Number_toString wb in
  if (List.length (sheets plan) =? 0)%nat then None else Some plan.

(** The value a declared-total column gives for a row: the number its
    cell coerces to, 0 when there is none. *)
Definition declared_total (row : Row) (h : string) : number :=
  match numVal (row_get row h) with
  | Some v => v
  | None => ofZ 0
  end.

(** The summary shown after an import (interfaces of lines 56-67). *)
Record ImportSummarySheet : Type := mkSummarySheet {
  sum_sheetName : string;
  recordsImported : nat;
  sum_skippedRows : nat
}.

Record ImportSummary : Type := mkSummary {
  sum_totalTemplates : nat;
  sum_totalRecords : nat;
  sum_totalSkippedRows : nat;
  sum_sheets : list ImportSummarySheet
}.

(** [sheetsFromPlan] (lines 638-643). *)
Definition sheetsFromPlan (plan : ImportPlan) : list ImportSummarySheet :=
  map (fun s => mkSummarySheet (sp_sheetName s) (List.length (sp_records s)) (sp_skippedRows s))
      (sheets plan).

(** The summary [performImport] sets when its [try] block reaches the
    end (lines 621-626); a run that throws sets none. *)
Definition importSummary (user : string) (plan : ImportPlan) (d : Store.Db)
    : option ImportSummary :=
  match Executor.performImport user plan d with
  | (Store.Ok _, e) =>
      Some (mkSummary (Executor.totalTemplates e) (Executor.totalRecordsImported e)
                      (totalSkippedRows plan) (sheetsFromPlan plan))
  | (Store.Err _, _) => None
  end.

(** The categories a template has in one of the two template tables. *)
Definition template_categories (tid : nat) (tbl : list Store.CategoryRow) : list string :=
  map Store.c_category (filter (fun c => (Store.c_template_id c =? tid)%nat) tbl).

(** The listed records of a plan. *)
Definition plan_records (plan : ImportPlan) : list ParsedRecord :=
  flat_map sp_records (sheets plan).

(** A plan of three listed records, the last of which the executor
    skips for its negative deduction. *)
Definition mixed_plan : ImportPlan :=
  mkPlan [mkSheetPlan "ACME" [january_v1; negative_net] 0;
          mkSheetPlan "TCS" [record_feb] 1] 3 1 [].

(** What a run has gained over an earlier state of the same run, as
    far as the record loop goes: the template tables are as they were,
    the line-item tables have their old rows at the front, and the salary
    table is no shorter. *)
Definition grows (e e' : Executor.Exec) : Prop :=
  Store.organization_templates (Executor.db e') = Store.organization_templates (Executor.db e)
  /\ Store.template_earnings (Executor.db e') = Store.template_earnings (Executor.db e)
  /\ Store.template_deductions (Executor.db e') = Store.template_deductions (Executor.db e)
  /\ (exists new, Store.earnings_tbl (Executor.db e')
                  = Store.earnings_tbl (Executor.db e) ++ new)
  /\ (exists new, Store.deductions_tbl (Executor.db e')
                  = Store.deductions_tbl (Executor.db e) ++ new)
  /\ List.length (Store.salary_records (Executor.db e))
     <= List.length (Store.salary_records (Executor.db e'))
  /\ Executor.totalTemplates e' = Executor.totalTemplates e.

(** The same for the tables that hold the user's payslips, over a whole
    run. *)
Definition keeps (d d' : Store.Db) : Prop :=
  (exists new, Store.earnings_tbl d' = Store.earnings_tbl d ++ new)
  /\ (exists new, Store.deductions_tbl d' = Store.deductions_tbl d ++ new)
  /\ List.length (Store.salary_records d) <= List.length (Store.salary_records d')
  /\ (exists new, Store.organization_templates d' = Store.organization_templates d ++ new).

(** The state in which the record loop of a sheet starts, when the
    lookup of the sheet's template answered [existingTemplate]
    (lines 479-533). *)
Definition template_id_for (existingTemplate : option Store.TemplateRow) (d : Store.Db) : nat :=
  match existingTemplate with
  | Some t => Store.t_id t
  | None => Store.next_id d
  end.

Definition templatePhase (user : string) (s : SheetPlan)
    (existingTemplate : option Store.TemplateRow) (e : Executor.Exec) : Executor.Exec :=
  let d := Executor.db e in
  let tid := template_id_for existingTemplate d in
  let d1 :=
    match existingTemplate with
    | Some t => Store.delete_template_deductions tid (Store.delete_template_earnings tid d)
    | None => snd (Store.insert_template user (sp_sheetName s) d)
    end in
  Executor.mkExec
    (Store.insert_template_deductions
       (map (Store.mkCategory tid) (Executor.allDeductionsCategories (sp_records s)))
       (Store.insert_template_earnings
          (map (Store.mkCategory tid) (Executor.allEarningsCategories (sp_records s))) d1))
    (Executor.totalRecordsImported e) (S (Executor.totalTemplates e))
    (Executor.processedRecords e).

(** A store in which the template of "ACME" exists. *)
Definition store_with_acme : Store.Db :=
  Executor.db (snd (Executor.performImport "u" (single_record_plan january_v1) Store.empty)).

(** [a] is a month no later than [b]. *)
Definition no_later (a b : Exporter.Fetched) : Prop :=
  (Exporter.f_year a < Exporter.f_year b)%Z
  \/ (Exporter.f_year a = Exporter.f_year b
      /\ (Exporter.f_month a <= Exporter.f_month b)%Z).

(** The number of line items of category [c] that the records have in
    the list [items] (their earnings, or their deductions). *)
Definition occurrences (items : Exporter.Fetched -> list LineItem)
    (records : list Exporter.Fetched) (c : string) : nat :=
  List.length (filter (fun e => String.eqb (category e) c) (flat_map items records)).

(** The number of line items a category needs for its column. *)
Definition threshold (includeRare : bool) : nat :=
  if includeRare then 1 else Exporter.RARE_CATEGORY_THRESHOLD.

(** The headers that every exported sheet has. *)
Definition fixed_headers : list string :=
  ["Month Year"; "Total Earnings"; "Total Deductions"; "Net Pay"].

(** The category columns of a group's sheet (lines 752-765). *)
Definition earning_columns (opts : Exporter.Options) (od : Exporter.OrgExportData)
    : list string :=
  if Exporter.includeRareEarningCategories opts
  then Exporter.sort String.leb (Exporter.earningCategories od)
  else filter (fun cat => (Exporter.RARE_CATEGORY_THRESHOLD
                           <=? Exporter.count_get (Exporter.earningCounts od) cat)%nat)
              (Exporter.sort String.leb (Exporter.earningCategories od)).

Definition deduction_columns (opts : Exporter.Options) (od : Exporter.OrgExportData)
    : list string :=
  if Exporter.includeRareDeductionCategories opts
  then Exporter.sort String.leb (Exporter.deductionCategories od)
  else filter (fun cat => (Exporter.RARE_CATEGORY_THRESHOLD
                           <=? Exporter.count_get (Exporter.deductionCounts od) cat)%nat)
              (Exporter.sort String.leb (Exporter.deductionCategories od)).

(** The counts and the category sets of a group agree with the line
    items of its records. *)
Definition counts_ok (od : Exporter.OrgExportData) : Prop :=
  forall c,
    Exporter.count_get (Exporter.earningCounts od) c
    = occurrences Exporter.f_earnings (Exporter.od_records od) c
    /\ Exporter.count_get (Exporter.deductionCounts od) c
       = occurrences Exporter.f_deductions (Exporter.od_records od) c
    /\ (In c (Exporter.earningCategories od)
        <-> 1 <= occurrences Exporter.f_earnings (Exporter.od_records od) c)
    /\ (In c (Exporter.deductionCategories od)
        <-> 1 <= occurrences Exporter.f_deductions (Exporter.od_records od) c).

(** The groups [m] are those of the records [recs]: one group per
    normalized organization name, holding the records of that name in
    their order, with counts that agree with them. *)
Definition grouped (m : Exporter.OrgMap) (recs : list Exporter.Fetched) : Prop :=
  NoDup (map fst m)
  /\ (forall r, In r recs -> In (org_key r) (map fst m))
  /\ Forall (fun g =>
               In (fst g) (map org_key recs)
               /\ Exporter.od_records (snd g)
                  = filter (fun r => String.eqb (org_key r) (fst g)) recs
               /\ counts_ok (snd g)) m.

(** The data rows of a workbook, sheet after sheet. *)
Definition book_rows (wb : Exporter.ExportBook) : list (list cell) :=
  flat_map (fun s => snd (snd s)) wb.

(** Records of two organizations over three months, one of them
    without a name. *)
Definition fetched_sample : list Exporter.Fetched :=
  [Exporter.mkFetched 3 2024 (Some " tcs ") (ofZ 100) (ofZ 10) (ofZ 90)
     [mkItem "Basic" (ofZ 100)] [mkItem "Tax" (ofZ 10)];
   Exporter.mkFetched 1 2024 None (ofZ 50) (ofZ 0) (ofZ 50)
     [mkItem "Basic" (ofZ 50)] [];
   Exporter.mkFetched 12 2023 (Some "Tata Consultancy Services") (ofZ 70) (ofZ 0) (ofZ 70)
     [mkItem "Basic" (ofZ 60); mkItem "Bonus" (ofZ 10)] []].

(** The first group of the sample, and the options that leave the rare
    categories out. *)
Definition tcs_group : Exporter.OrgExportData :=
  match Exporter.build_orgMap fetched_sample with
  | g :: _ => snd g
  | [] => Exporter.orgData0
  end.

Definition no_rare : Exporter.Options := Exporter.mkOptions None None false false.

(** The object that handleExportBackup serializes (lines 851-860), from
    the rows its five queries return; [profile] is the user's profile
    row when there is one. *)
Definition backupPayload (exportedAt userId : string)
    (salaryRecords organizationTemplates employmentHistory : list Backup.Json)
    (profile : option (list (string * Backup.Json)))
    (budgetHistory : list Backup.Json) : Backup.Json :=
  Backup.JObject
    [("version", Backup.JNumber (ofZ 1));
     ("exportedAt", Backup.JString exportedAt);
     ("userId", Backup.JString userId);
     ("salaryRecords", Backup.JArray salaryRecords);
     ("organizationTemplates", Backup.JArray organizationTemplates);
     ("employmentHistory", Backup.JArray employmentHistory);
     ("profile", match profile with
                 | Some fields => Backup.JObject fields
                 | None => Backup.JNull
                 end);
     ("budgetHistory", Backup.JArray budgetHistory)].

(** The two requests that clear the user's data. *)
Definition wipe : Backup.Call := Backup.Rpc "wipe_all_salary_data".
Definition clear_budget : Backup.Call := Backup.DeleteWhereUser "budget_history".

(** A request that writes a row. *)
Definition is_write (c : Backup.Call) : bool :=
  match c with
  | Backup.Insert _ _ | Backup.Upsert _ _ => true
  | _ => false
  end.

(** The number of inserts into, and of upserts on, a table among the
    requests [l]. *)
Definition inserts_into (table : string) (l : list Backup.Call) : nat :=
  List.length (filter (fun c => match c with
                                | Backup.Insert t _ => String.eqb t table
                                | _ => false
                                end) l).

Definition upserts_on (table : string) (l : list Backup.Call) : nat :=
  List.length (filter (fun c => match c with
                                | Backup.Upsert t _ => String.eqb t table
                                | _ => false
                                end) l).

(** The requests of a sequence of instructions, and whether it is free
    of throws. *)
Definition calls_of (prog : list Backup.Instr) : list Backup.Call :=
  flat_map (fun i => match i with Backup.Do c => [c] | Backup.Raise => [] end) prog.

Definition no_raise (prog : list Backup.Instr) : bool :=
  forallb (fun i => match i with Backup.Do _ => true | Backup.Raise => false end) prog.

(** A backup of one salary record with an earning, and a profile. *)
Definition sample_backup : Backup.Json :=
  backupPayload "2025-01-31T00:00:00.000Z" "u"
    [Backup.JObject [("month", Backup.JNumber (ofZ 1));
                     ("earnings",
                      Backup.JArray [Backup.JObject [("category", Backup.JString "Basic")]])]]
    [] [] (Some [("full_name", Backup.JString "A")]) [].

(** A parser that knows one text, and the file that holds it. *)
Definition parse_sample (s : string) : option Backup.Json :=
  if String.eqb s "sample" then Some sample_backup else None.

Definition sample_file : Backup.File := Backup.mkFile 300 "sample".

(** A service that refuses the wipe. *)
Definition refuses_wipe (sent : list Backup.Call) (c : Backup.Call) : bool :=
  match c with
  | Backup.Rpc _ => false
  | _ => true
  end.

(** ** Worksheets with blank cells *)

(** A worksheet as the spreadsheet shows it: the header row (row 1) and
    the data rows from row 2 on, a blank cell being [None]. *)
Definition Grid : Type := (list string * list (list (option cell)))%type.

(** The row object the codec (the xlsx package) builds for one data
    row: a key for each cell that is not blank. *)
Definition row_object (headers : list string) (cells : list (option cell)) : Row :=
  flat_map (fun hc => match snd hc with
                      | Some v => [(fst hc, v)]
                      | None => []
                      end)
           (combine headers cells).

(** [XLSX.utils.sheet_to_json(sheet)] as [processSheet] calls it (line
    195, no options): one row object per data row, a row without any
    cell giving none. *)
Definition read_grid (g : Grid) : list Row :=
  filter (fun r => match r with [] => false | _ :: _ => true end)
         (map (row_object (fst g)) (snd g)).

(** Rows 2 to 4 of a sheet: a payslip, a blank row, and a row whose
    Month/Year cell is blank. *)
Definition grid_with_blank_row : Grid :=
  (["Month Year"; "Basic"],
   [[Some (CStr "JAN 2025"); Some (CNum (ofZ 80000))];
    [None; None];
    [None; Some (CNum (ofZ 80000))]]).

(** A sheet whose first data row has a blank Month/Year cell. *)
Definition grid_first_row_without_month : Grid :=
  (["Month Year"; "Name"; "Basic"],
   [[None; Some (CStr "Asha"); Some (CNum (ofZ 80000))]]).

(** * Properties *)

(** ** The row loop *)

Section PlannerFacts.

Variable Number_toString : number -> string.

Local Abbreviation rowLoop' := (rowLoop Number_toString).
Local Abbreviation rowStep' := (rowStep Number_toString).
Local Abbreviation parseRow' := (parseRow Number_toString).

Lemma rowLoop_app org hs myh l1 l2 : forall i r,
  rowLoop' org hs myh i (l1 ++ l2) r
  = rowLoop' org hs myh (i + List.length l1) l2 (rowLoop' org hs myh i l1 r).
Proof.
  induction l1 as [|row l1 IH]; intros i r; simpl.
  - now rewrite Nat.add_0_r.
  - rewrite IH. f_equal. lia.
Qed.

Lemma processSheet_rowLoop data org :
  processSheet Number_toString data org
  = rowLoop' org (sheetHeaders data) (monthYearKey data) 0 data result0.
Proof. destruct data; reflexivity. Qed.

Lemma processSheet_afterRows data org :
  processSheet Number_toString data org
  = afterRows Number_toString data org (List.length data).
Proof.
  unfold afterRows. now rewrite firstn_all, processSheet_rowLoop.
Qed.

Lemma afterRows_S data org i row :
  nth_error data i = Some row ->
  afterRows Number_toString data org (S i)
  = rowStep' org (sheetHeaders data) (monthYearKey data)
             (afterRows Number_toString data org i) i row.
Proof.
  intros Hnth. unfold afterRows.
  destruct (nth_error_split data i Hnth) as (l1 & l2 & Hdata & Hlen).
  assert (H1 : firstn i data = l1).
  { rewrite Hdata, <- Hlen, firstn_app, Nat.sub_diag, firstn_all. simpl.
    now rewrite app_nil_r. }
  assert (H2 : firstn (S i) data = l1 ++ [row]).
  { rewrite Hdata at 1. rewrite <- Hlen.
    replace (S (List.length l1)) with (List.length l1 + 1) by lia.
    rewrite firstn_app_2. reflexivity. }
  rewrite H1, H2, rowLoop_app. simpl. now rewrite Hlen.
Qed.

(** The loop only appends: what it has recorded stays. *)
Lemma rowStep_extends org hs myh r i row :
  exists rs bad,
    records (rowStep' org hs myh r i row) = records r ++ rs
    /\ sheetInvalid (rowStep' org hs myh r i row) = sheetInvalid r ++ bad.
Proof.
  unfold rowStep. destruct (parseRow' org hs myh i row) as [b|p]; simpl.
  - exists [], [b]. now rewrite app_nil_r.
  - exists [p], []. now rewrite app_nil_r.
Qed.

Lemma rowLoop_extends org hs myh data : forall i r,
  exists rs bad,
    records (rowLoop' org hs myh i data r) = records r ++ rs
    /\ sheetInvalid (rowLoop' org hs myh i data r) = sheetInvalid r ++ bad.
Proof.
  induction data as [|row data IH]; intros i r; simpl.
  - exists [], []. now rewrite !app_nil_r.
  - destruct (IH (S i) (rowStep' org hs myh r i row)) as (rs & bad & Hr & Hb).
    destruct (rowStep_extends org hs myh r i row) as (rs0 & bad0 & Hr0 & Hb0).
    exists (rs0 ++ rs), (bad0 ++ bad).
    rewrite Hr, Hb, Hr0, Hb0, !app_assoc. auto.
Qed.

Lemma afterRows_final data org n :
  n <= List.length data ->
  exists rs bad,
    records (processSheet Number_toString data org)
    = records (afterRows Number_toString data org n) ++ rs
    /\ sheetInvalid (processSheet Number_toString data org)
       = sheetInvalid (afterRows Number_toString data org n) ++ bad.
Proof.
  intros Hn. rewrite processSheet_rowLoop. unfold afterRows.
  generalize (sheetHeaders data) (monthYearKey data). intros hs k.
  replace (rowLoop' org hs k 0 data result0)
    with (rowLoop' org hs k 0 (firstn n data ++ skipn n data) result0)
    by now rewrite firstn_skipn.
  rewrite rowLoop_app. apply rowLoop_extends.
Qed.

Lemma rowStep_counted org hs myh r i row :
  counted r -> counted (rowStep' org hs myh r i row).
Proof.
  unfold counted, rowStep. intros H.
  destruct (parseRow' org hs myh i row); simpl; auto.
  rewrite length_app. simpl. lia.
Qed.

Lemma rowLoop_counted org hs myh data : forall i r,
  counted r -> counted (rowLoop' org hs myh i data r).
Proof.
  induction data as [|row data IH]; intros i r H; simpl; auto.
  apply IH, rowStep_counted, H.
Qed.

Lemma processSheet_counted data org :
  counted (processSheet Number_toString data org).
Proof.
  rewrite processSheet_rowLoop. apply rowLoop_counted. reflexivity.
Qed.

(** A row without a Month/Year value is turned into its diagnostic. *)
Lemma parseRow_missing org hs myh i row :
  falsy (row_get row (match myh with Some h => h | None => "undefined" end)) = true ->
  parseRow' org hs myh i row
  = inl (mkInvalid org (i + 2) "Missing Month/Year value").
Proof.
  unfold parseRow. intros H.
  destruct (row_get row _) as [v|]; [now rewrite H | reflexivity].
Qed.

(** ** Rows without a Month/Year value *)

(** X27. Among the row objects the codec returns, take the one at
    0-based index [i]; when it has no cell, or the empty string, under
    the Month/Year key that [processSheet] picks from the first row
    object, the iteration for it adds the diagnostic (sheet name, row
    number [i + 2], "Missing Month/Year value"), adds one to
    [skippedRows] and leaves [records] as they were; the diagnostic is in
    the invalid rows that [processSheet] returns. *)
Theorem missing_month_year_row_is_skipped :
  forall (data : list Row) (org : string) (i : nat) (row : Row),
    nth_error data i = Some row ->
    monthYearCell data row = None \/ monthYearCell data row = Some (CStr "") ->
    let before := afterRows Number_toString data org i in
    let after := afterRows Number_toString data org (S i) in
    let bad := mkInvalid org (i + 2) "Missing Month/Year value" in
    sheetInvalid after = sheetInvalid before ++ [bad]
    /\ skippedRows after = S (skippedRows before)
    /\ records after = records before
    /\ In bad (sheetInvalid (processSheet Number_toString data org)).
Proof.
  intros data org i row Hnth Hcell before after bad.
  assert (Hstep : after = skip_row before bad).
  { unfold after, before. rewrite (afterRows_S _ _ _ _ Hnth).
    unfold rowStep. rewrite parseRow_missing; [reflexivity|].
    unfold monthYearCell in Hcell. destruct Hcell as [-> | ->]; reflexivity. }
  rewrite Hstep. simpl. repeat split.
  assert (Hle : S i <= List.length data).
  { apply Nat.le_succ_l, nth_error_Some. congruence. }
  destruct (afterRows_final data org (S i) Hle) as (rs & more & _ & Hinv).
  rewrite Hinv. fold after. rewrite Hstep. simpl.
  apply in_or_app. left. apply in_or_app. right. now left.
Qed.

(** ** The header loop *)

Lemma headerStep_cases myh oe od row a h :
  let a' := headerStep myh oe od row a h in
  (acc_earnings a' = acc_earnings a /\ acc_deductions a' = acc_deductions a)
  \/ (exists v, item_from_row myh row (mkItem h v)
        /\ ((acc_earnings a' = acc_earnings a ++ [mkItem h v]
             /\ acc_deductions a' = acc_deductions a)
            \/ (acc_earnings a' = acc_earnings a
                /\ acc_deductions a' = acc_deductions a ++ [mkItem h v]))).
Proof.
  unfold headerStep, item_from_row. simpl.
  destruct (numVal (row_get row h)) as [v|] eqn:Hv; [|now left].
  destruct (String.eqb h TOTAL_EARNINGS_HEADER); [now left|].
  destruct (String.eqb h TOTAL_DEDUCTIONS_HEADER); [now left|].
  destruct (String.eqb h NET_SALARY_HEADER); [now left|].
  destruct (reserved myh h) eqn:Hres; [now left|].
  destruct (is_zero v) eqn:Hz; [now left|]. simpl.
  right. exists v. split; [auto|].
  destruct (list_includes h oe); [now left|].
  destruct (list_includes h od); [now right|].
  destruct (isDeductionHeader h); [now right | now left].
Qed.

Lemma headerLoop_items myh oe od row hs : forall a,
  Forall (item_from_row myh row) (acc_earnings a) ->
  Forall (item_from_row myh row) (acc_deductions a) ->
  let a' := fold_left (headerStep myh oe od row) hs a in
  Forall (item_from_row myh row) (acc_earnings a')
  /\ Forall (item_from_row myh row) (acc_deductions a').
Proof.
  induction hs as [|h hs IH]; intros a He Hd; simpl; [auto|].
  apply IH;
    destruct (headerStep_cases myh oe od row a h)
      as [[E D] | (v & Hit & [[E D] | [E D]])];
    rewrite ?E, ?D; auto; apply Forall_app; auto.
Qed.

Lemma parseRow_items org hs myh i row p :
  parseRow' org hs myh i row = inr p ->
  Forall (item_from_row myh row) (earnings p)
  /\ Forall (item_from_row myh row) (deductions p).
Proof.
  unfold parseRow. intros H.
  destruct (row_get row _) as [v|]; [|discriminate].
  destruct (falsy (Some v)); [discriminate|].
  destruct (parseMonthYear _) as [[m y]|]; [|discriminate].
  injection H as <-. simpl.
  apply headerLoop_items; constructor.
Qed.

Lemma item_from_row_nonzero myh row it :
  item_from_row myh row it -> is_zero (amount it) = false.
Proof. now intros (_ & H & _). Qed.

Lemma no_amount_not_category myh row h items :
  no_amount (row_get row h) ->
  Forall (item_from_row myh row) items ->
  ~ In h (map category items).
Proof.
  intros Hno Hall Hin. apply in_map_iff in Hin as (it & <- & Hit).
  rewrite Forall_forall in Hall. destruct (Hall it Hit) as (Hv & Hz & _).
  destruct Hno as [Hnone | (n & Hn & Hzero)]; congruence.
Qed.

(** A property of every record a row can give holds of every record of
    the sheet. *)
Lemma rowLoop_records (P : ParsedRecord -> Prop) org hs myh :
  (forall i row p, parseRow' org hs myh i row = inr p -> P p) ->
  forall data i r,
    Forall P (records r) -> Forall P (records (rowLoop' org hs myh i data r)).
Proof.
  intros HP. induction data as [|row data IH]; intros i r Hr; simpl; [auto|].
  apply IH. unfold rowStep.
  destruct (parseRow' org hs myh i row) as [b|p] eqn:Hp; simpl; auto.
  apply Forall_app. split; auto. constructor; eauto.
Qed.

Lemma processSheet_records (P : ParsedRecord -> Prop) data org :
  (forall hs myh i row p, parseRow' org hs myh i row = inr p -> P p) ->
  Forall P (records (processSheet Number_toString data org)).
Proof.
  intros HP. rewrite processSheet_rowLoop.
  apply rowLoop_records; [apply HP | constructor].
Qed.

Lemma items_nonzero myh row e d :
  Forall (item_from_row myh row) e ->
  Forall (item_from_row myh row) d ->
  Forall (fun it => is_zero (amount it) = false) (e ++ d).
Proof.
  intros He Hd. apply Forall_app. split;
    eapply Forall_impl; try eassumption; intros it; apply item_from_row_nonzero.
Qed.

(** ** C6 *)

(** C6. When a row gives a record, a header whose cell is numeric 0 or
    does not coerce to a number (for a string: after removing every
    character other than digits, '.', '+' and '-') is the category of no
    earning and of no deduction of that record, and no line item of the
    record has amount 0. *)
Theorem zero_or_uncoercible_cell_gives_no_line_item :
  forall org hs myh i row p,
    parseRow' org hs myh i row = inr p ->
    (forall h, no_amount (row_get row h) ->
               ~ In h (map category (earnings p))
               /\ ~ In h (map category (deductions p)))
    /\ Forall (fun it => is_zero (amount it) = false) (earnings p ++ deductions p).
Proof.
  intros org hs myh i row p Hp.
  destruct (parseRow_items _ _ _ _ _ _ Hp) as [He Hd].
  split.
  - intros h Hno. split; eapply no_amount_not_category; eauto.
  - eapply items_nonzero; eauto.
Qed.

(** ** C5 *)

(** One step of the header loop on a header that is not reserved and
    whose cell coerces to a non-zero number, as a call of one of the two
    pushes. *)
Lemma headerStep_push :
  forall myh oe od row a h v,
    numVal (row_get row h) = Some v ->
    is_zero v = false ->
    reserved myh h = false ->
    let a' := headerStep myh oe od row a h in
    (In h oe -> a' = push_earning a (mkItem h v))
    /\ (~ In h oe -> In h od -> a' = push_deduction a (mkItem h v))
    /\ (~ In h oe -> ~ In h od ->
        (exists kw, In kw deductionKeywords /\ includes kw (toLowerCase h) = true) ->
        a' = push_deduction a (mkItem h v))
    /\ (~ In h oe -> ~ In h od ->
        (forall kw, In kw deductionKeywords -> includes kw (toLowerCase h) = false) ->
        a' = push_earning a (mkItem h v)).
Proof.
  intros myh oe od row a h v Hv Hz Hres. simpl.
  unfold headerStep. rewrite Hv.
  unfold reserved in Hres. apply orb_false_iff in Hres as [Hres Hn].
  apply orb_false_iff in Hres as [Hres Hd]. apply orb_false_iff in Hres as [Hm He].
  rewrite He, Hd, Hn. unfold reserved. rewrite Hm, He, Hd, Hn, Hz. simpl.
  assert (Hinc : forall l, list_includes h l = true <-> In h l).
  { intros l. unfold list_includes. rewrite existsb_exists. split.
    - intros (x & Hin & Heq). apply String.eqb_eq in Heq. now subst.
    - intros Hin. exists h. split; auto. apply String.eqb_refl. }
  assert (Hkw : isDeductionHeader h = true
                <-> exists kw, In kw deductionKeywords /\ includes kw (toLowerCase h) = true).
  { unfold isDeductionHeader. now rewrite existsb_exists. }
  repeat split.
  - intros Hin. apply Hinc in Hin. now rewrite Hin.
  - intros Hoe Hod. destruct (list_includes h oe) eqn:E1; [now apply Hinc in E1|].
    apply Hinc in Hod. now rewrite Hod.
  - intros Hoe Hod Hex.
    destruct (list_includes h oe) eqn:E1; [now apply Hinc in E1|].
    destruct (list_includes h od) eqn:E2; [now apply Hinc in E2|].
    apply Hkw in Hex. now rewrite Hex.
  - intros Hoe Hod Hall.
    destruct (list_includes h oe) eqn:E1; [now apply Hinc in E1|].
    destruct (list_includes h od) eqn:E2; [now apply Hinc in E2|].
    destruct (isDeductionHeader h) eqn:E3; [|reflexivity].
    destruct (proj1 Hkw eq_refl) as (kw & Hin & Htrue).
    rewrite (Hall kw Hin) in Htrue. discriminate.
Qed.

(** C5. For a header that is not reserved and whose cell coerces to a
    non-zero number [v], the header loop appends exactly one line item,
    the header with [v], to one of the record's two lists and leaves the
    other list as it was; the list is chosen in this order: a header in
    the organization's earning list is an earning; else a header in its
    deduction list is a deduction; else a header whose lower-cased text
    contains a deduction keyword is a deduction; else it is an earning.
    The two keyword cases are stated for ASCII headers, the range on
    which lower-casing is modelled. *)
Theorem classification_order :
  forall myh oe od row a h v,
    numVal (row_get row h) = Some v ->
    is_zero v = false ->
    reserved myh h = false ->
    let a' := headerStep myh oe od row a h in
    (In h oe ->
       acc_earnings a' = acc_earnings a ++ [mkItem h v]
       /\ acc_deductions a' = acc_deductions a)
    /\ (~ In h oe -> In h od ->
          acc_earnings a' = acc_earnings a
          /\ acc_deductions a' = acc_deductions a ++ [mkItem h v])
    /\ (is_ascii h = true -> ~ In h oe -> ~ In h od ->
        (exists kw, In kw deductionKeywords /\ includes kw (toLowerCase h) = true) ->
          acc_earnings a' = acc_earnings a
          /\ acc_deductions a' = acc_deductions a ++ [mkItem h v])
    /\ (is_ascii h = true -> ~ In h oe -> ~ In h od ->
        (forall kw, In kw deductionKeywords -> includes kw (toLowerCase h) = false) ->
          acc_earnings a' = acc_earnings a ++ [mkItem h v]
          /\ acc_deductions a' = acc_deductions a).
Proof.
  intros myh oe od row a h v Hv Hz Hres.
  destruct (headerStep_push myh oe od row a h v Hv Hz Hres) as (H1 & H2 & H3 & H4).
  cbv zeta in *. split; [|split; [|split]].
  - intros Hin. now rewrite (H1 Hin).
  - intros Hoe Hod. now rewrite (H2 Hoe Hod).
  - intros _ Hoe Hod Hkw. now rewrite (H3 Hoe Hod Hkw).
  - intros _ Hoe Hod Hkw. now rewrite (H4 Hoe Hod Hkw).
Qed.

(** ** parseMonthYear *)

Lemma split_space_nonempty s : split_space s <> [].
Proof.
  destruct s as [|c s]; simpl; [discriminate|].
  destruct (Ascii.eqb c " "); [discriminate|].
  destruct (split_space s); discriminate.
Qed.

Lemma split_space_no_space s : has_space s = false -> split_space s = [s].
Proof.
  induction s as [|c s IH]; simpl; [reflexivity|].
  intros H. apply orb_false_iff in H as [Hc Hs]. rewrite Hc, (IH Hs). reflexivity.
Qed.

Lemma split_space_single s x : split_space s = [x] -> x = s /\ has_space s = false.
Proof.
  revert x. induction s as [|c s IH]; simpl; intros x H.
  - injection H as <-. auto.
  - destruct (Ascii.eqb c " ") eqn:Hc.
    + injection H as _ H. now apply split_space_nonempty in H.
    + destruct (split_space s) as [|p ps] eqn:Hs; [now apply split_space_nonempty in Hs|].
      injection H as <- ->. destruct (IH p eq_refl) as [-> Hsp]. auto.
Qed.

Lemma split_space_cons s a b rest :
  split_space s = a :: b :: rest ->
  exists s', s = (a ++ " " ++ s')%string /\ has_space a = false
             /\ split_space s' = b :: rest.
Proof.
  revert a. induction s as [|c s IH]; simpl; intros a H; [discriminate|].
  destruct (Ascii.eqb c " ") eqn:Hc.
  - injection H as <- H. apply Ascii.eqb_eq in Hc as ->. exists s. auto.
  - destruct (split_space s) as [|p ps] eqn:Hs; [discriminate|].
    injection H as <- ->.
    destruct (IH p eq_refl) as (s' & -> & Hp & Hs').
    exists s'. simpl. rewrite Hc, Hp. auto.
Qed.

Lemma split_space_app a s' :
  has_space a = false ->
  split_space (a ++ " " ++ s')%string = a :: split_space s'.
Proof.
  change (" " ++ s')%string with (String " "%char s').
  induction a as [|c a IH]; simpl; intros H; [reflexivity|].
  apply orb_false_iff in H as [Hc Ha]. rewrite Hc, (IH Ha). reflexivity.
Qed.

(** [split(" ")] gives exactly two parts for the strings with exactly one
    space. *)
Lemma split_space_two s a b :
  split_space s = [a; b]
  <-> s = (a ++ " " ++ b)%string /\ has_space a = false /\ has_space b = false.
Proof.
  split.
  - intros H. destruct (split_space_cons _ _ _ _ H) as (s' & -> & Ha & Hs').
    destruct (split_space_single _ _ Hs') as [-> Hb]. auto.
  - intros (-> & Ha & Hb).
    rewrite split_space_app by assumption.
    now rewrite split_space_no_space by assumption.
Qed.

Lemma monthMap_get_In l k v : monthMap_get l k = Some v -> In (k, v) l.
Proof.
  induction l as [|[k' v'] l IH]; simpl; [discriminate|].
  destruct (String.eqb k' k) eqn:E.
  - intros [= <-]. apply String.eqb_eq in E as ->. now left.
  - intros H. right. auto.
Qed.

Lemma In_monthMap_get l k v :
  NoDup (map fst l) -> In (k, v) l -> monthMap_get l k = Some v.
Proof.
  induction l as [|[k' v'] l IH]; simpl; [contradiction|].
  intros Hnd [[= -> ->] | Hin].
  - now rewrite String.eqb_refl.
  - inversion Hnd as [|? ? Hnotin Hnd']; subst.
    destruct (String.eqb k' k) eqn:E; [|auto].
    apply String.eqb_eq in E as ->. exfalso. apply Hnotin.
    apply in_map_iff. now exists (k, v).
Qed.

Lemma monthMap_keys_distinct : NoDup (map fst monthMap).
Proof.
  simpl. repeat constructor; simpl; intuition discriminate.
Qed.

Lemma parseMonthYear_spec s m y :
  parseMonthYear s = Some (m, y)
  <-> exists tok rest mz yz,
        trim s = (tok ++ " " ++ rest)%string
        /\ has_space tok = false /\ has_space rest = false
        /\ In (toUpperCase tok, mz) monthMap
        /\ parseInt rest = Some yz
        /\ m = ofZ mz /\ y = ofZ yz.
Proof.
  unfold parseMonthYear. split.
  - destruct (split_space (trim s)) as [|p0 [|p1 [|]]] eqn:Hs; try discriminate.
    destruct (monthMap_get monthMap (toUpperCase p0)) as [mz|] eqn:Hm; [|discriminate].
    destruct (parseInt p1) as [yz|] eqn:Hy; [|discriminate].
    intros [= <- <-]. apply split_space_two in Hs as (Hs & H0 & H1).
    exists p0, p1, mz, yz. repeat split; auto. now apply monthMap_get_In.
  - intros (tok & rest & mz & yz & Ht & H0 & H1 & Hm & Hy & -> & ->).
    rewrite (proj2 (split_space_two (trim s) tok rest)) by auto.
    rewrite (In_monthMap_get _ _ _ monthMap_keys_distinct Hm), Hy. reflexivity.
Qed.

(** The month and the year of a listed record are integers. *)
Lemma parsed_month_year_integral data org :
  Forall (fun p => exists m y, month p = ofZ m /\ year p = ofZ y)
         (records (processSheet Number_toString data org)).
Proof.
  apply processSheet_records. intros hs myh i row p. unfold parseRow.
  destruct (row_get row _) as [v|]; [|discriminate].
  destruct (falsy (Some v)); [discriminate|].
  destruct (parseMonthYear (String_of_cell Number_toString v)) as [[m y]|] eqn:Hp;
    [|discriminate].
  intros [= <-]. cbn [month year].
  apply parseMonthYear_spec in Hp as (_ & _ & mz & yz & _ & _ & _ & _ & _ & -> & ->).
  eauto.
Qed.

(** *** The range of [parseInt] on a short text *)

Lemma digit_val_range c : is_digit c = true -> (0 <= digit_val c <= 9)%Z.
Proof.
  unfold is_digit, digit_val. intros H. apply andb_true_iff in H as [H1 H2].
  apply Nat.leb_le in H1, H2. lia.
Qed.

Lemma hex_val_range c d : hex_val c = Some d -> (0 <= d <= 15)%Z.
Proof.
  unfold hex_val. destruct (is_digit c) eqn:Hd.
  - intros [= <-]. apply digit_val_range in Hd. lia.
  - destruct ((97 <=? code c)%nat && (code c <=? 102)%nat) eqn:H1.
    + intros [= <-]. apply andb_true_iff in H1 as [H1 H2]. apply Nat.leb_le in H1, H2. lia.
    + destruct ((65 <=? code c)%nat && (code c <=? 70)%nat) eqn:H2; [|discriminate].
      intros [= <-]. apply andb_true_iff in H2 as [H2 H3]. apply Nat.leb_le in H2, H3. lia.
Qed.

Lemma read_digits_bound s : forall acc n v n' r,
  (0 <= acc)%Z -> read_digits s acc n = (v, n', r) ->
  (0 <= v < (acc + 1) * 10 ^ Z.of_nat (String.length s))%Z.
Proof.
  induction s as [|c s IH]; intros acc n v n' r Hacc; cbn [read_digits String.length].
  - intros [= <- _ _]. cbn. lia.
  - destruct (is_digit c) eqn:Hd.
    + intros H. pose proof (digit_val_range c Hd) as Hc.
      apply IH in H; [|lia]. rewrite Nat2Z.inj_succ, Z.pow_succ_r by lia.
      assert (0 < 10 ^ Z.of_nat (String.length s))%Z by (apply Z.pow_pos_nonneg; lia).
      nia.
    + intros [= <- _ _]. rewrite Nat2Z.inj_succ, Z.pow_succ_r by lia.
      assert (0 < 10 ^ Z.of_nat (String.length s))%Z by (apply Z.pow_pos_nonneg; lia).
      nia.
Qed.

Lemma read_hex_bound s : forall acc n v n',
  (0 <= acc)%Z -> read_hex s acc n = (v, n') ->
  (0 <= v < (acc + 1) * 16 ^ Z.of_nat (String.length s))%Z.
Proof.
  induction s as [|c s IH]; intros acc n v n' Hacc; cbn [read_hex String.length].
  - intros [= <- _]. cbn. lia.
  - destruct (hex_val c) as [d|] eqn:Hd.
    + intros H. pose proof (hex_val_range c d Hd) as Hc.
      apply IH in H; [|lia]. rewrite Nat2Z.inj_succ, Z.pow_succ_r by lia.
      assert (0 < 16 ^ Z.of_nat (String.length s))%Z by (apply Z.pow_pos_nonneg; lia).
      nia.
    + intros [= <- _]. rewrite Nat2Z.inj_succ, Z.pow_succ_r by lia.
      assert (0 < 16 ^ Z.of_nat (String.length s))%Z by (apply Z.pow_pos_nonneg; lia).
      nia.
Qed.

Lemma read_decimal_bound sign body v :
  (sign = 1 \/ sign = -1)%Z -> String.length body <= 15 ->
  (let '(v, n, _) := read_digits body 0%Z 0%nat in
   match n with O => None | _ => Some (sign * v)%Z end) = Some v ->
  (Z.abs v < 2 ^ 53)%Z.
Proof.
  intros Hs Hlen. destruct (read_digits body 0 0) as [[w n] r] eqn:Hr.
  destruct n; [discriminate|]. intros [= <-].
  apply read_digits_bound in Hr; [|lia].
  assert (10 ^ Z.of_nat (String.length body) <= 10 ^ 15)%Z
    by (apply Z.pow_le_mono_r; lia).
  assert (10 ^ 15 < 2 ^ 53)%Z by reflexivity.
  destruct Hs as [-> | ->]; lia.
Qed.

Lemma read_int_bound sign body v :
  (sign = 1 \/ sign = -1)%Z -> String.length body <= 15 ->
  read_int sign body = Some v -> (Z.abs v < 2 ^ 53)%Z.
Proof.
  intros Hs Hlen. unfold read_int.
  destruct body as [|c0 [|x hex]]; [apply (read_decimal_bound sign _ v Hs Hlen)| |].
  { intros H. apply (read_decimal_bound sign (String c0 "") v Hs Hlen).
    rewrite <- H. destruct c0 as [[] [] [] [] [] [] [] []]; reflexivity. }
  destruct (Ascii.ascii_dec c0 "0"%char) as [-> | Hc0].
  - destruct (Ascii.eqb x "x"%char || Ascii.eqb x "X"%char).
    + destruct (read_hex hex 0 0) as [w n] eqn:Hr.
      destruct n; [discriminate|]. intros [= <-].
      apply read_hex_bound in Hr; [|lia]. cbn [String.length] in Hlen.
      assert (16 ^ Z.of_nat (String.length hex) <= 16 ^ 13)%Z
        by (apply Z.pow_le_mono_r; lia).
      assert (16 ^ 13 < 2 ^ 53)%Z by reflexivity.
      destruct Hs as [-> | ->]; lia.
    + apply (read_decimal_bound sign _ v Hs Hlen).
  - intros H. apply (read_decimal_bound sign (String c0 (String x hex)) v Hs Hlen).
    rewrite <- H. destruct c0 as [[] [] [] [] [] [] [] []]; try reflexivity.
    now destruct Hc0.
Qed.

Lemma trimStart_length s : String.length (trimStart s) <= String.length s.
Proof.
  induction s as [|c s IH]; cbn [trimStart String.length]; [lia|].
  destruct (is_space c); cbn [String.length]; lia.
Qed.

(** [parseInt] of a text of at most 15 characters is below 2^53 in
    absolute value: a whole number that binary64 holds exactly. *)
Lemma parseInt_short s v :
  String.length s <= 15 -> parseInt s = Some v -> (Z.abs v < 2 ^ 53)%Z.
Proof.
  intros Hlen. unfold parseInt. pose proof (trimStart_length s) as Ht.
  destruct (trimStart s) as [|c t] eqn:E; cbn [read_sign].
  - apply read_int_bound; [auto | cbn; lia].
  - cbn [String.length] in Ht.
    destruct (Ascii.ascii_dec c "-"%char) as [-> | Hm];
      [apply read_int_bound; [auto | lia]|].
    destruct (Ascii.ascii_dec c "+"%char) as [-> | Hp];
      [apply read_int_bound; [auto | lia]|].
    intros H. apply (read_int_bound 1 (String c t)); [auto | cbn [String.length]; lia |].
    rewrite <- H. destruct c as [[] [] [] [] [] [] [] []]; try reflexivity;
      [now destruct Hp | now destruct Hm].
Qed.

Lemma map_string_length f s : String.length (map_string f s) = String.length s.
Proof. induction s as [|c s IH]; cbn; [reflexivity | now rewrite IH]. Qed.

Lemma string_app_length a b : String.length (a ++ b) = String.length a + String.length b.
Proof. induction a as [|c a IH]; cbn; [reflexivity | now rewrite IH]. Qed.

Lemma monthMap_key_length k m : In (k, m) monthMap -> String.length k = 3.
Proof.
  unfold monthMap. cbn [In]. intros H.
  repeat (destruct H as [[= <- _] | H]; [reflexivity|]). destruct H.
Qed.

(** ** C4 *)

(** C4 (amended). Take a non-empty Month/Year cell string of ASCII
    characters that has at most 19 characters once trimmed, in a sheet
    that is not named after a property inherited from
    [Object.prototype].  It gives
    (month, year) exactly when, once trimmed, it is two space-free parts
    joined by one space, the first being, up to letter case, one of the
    twelve 3-letter abbreviations of [monthMap] (whose number is the
    month) and the second one being read by [parseInt] (whose value is
    the year); the row then gives a record with that month and year, and
    any other such cell string gives the diagnostic whose reason is
    "Invalid Month/Year format: " followed by the raw string.  The year
    read is below 2^53 in absolute value, a whole number that a
    JavaScript number holds exactly. *)
Theorem month_year_cell_parsing :
  forall org hs myh i row s,
    row_get row (match myh with Some h => h | None => "undefined" end) = Some (CStr s) ->
    s <> "" ->
    is_ascii s = true ->
    String.length (trim s) <= 19 ->
    inherited_property org = false ->
    (forall m y,
        (exists tok rest mz yz,
            trim s = (tok ++ " " ++ rest)%string
            /\ has_space tok = false /\ has_space rest = false
            /\ In (toUpperCase tok, mz) monthMap
            /\ parseInt rest = Some yz
            /\ m = ofZ mz /\ y = ofZ yz)
        <-> exists p, parseRow' org hs myh i row = inr p /\ month p = m /\ year p = y)
    /\ ((forall m y, parseMonthYear s <> Some (m, y)) ->
        parseRow' org hs myh i row
        = inl (mkInvalid org (i + 2) ("Invalid Month/Year format: " ++ s)))
    /\ (forall tok rest mz yz,
          trim s = (tok ++ " " ++ rest)%string ->
          In (toUpperCase tok, mz) monthMap ->
          parseInt rest = Some yz ->
          (Z.abs yz < 2 ^ 53)%Z).
Proof.
  intros org hs myh i row s Hcell Hne _ Hlen _.
  assert (Hfalsy : falsy (Some (CStr s)) = false).
  { simpl. apply String.eqb_neq. exact Hne. }
  unfold parseRow. rewrite Hcell, Hfalsy. cbn [String_of_cell].
  split; [|split].
  - intros m y. rewrite <- parseMonthYear_spec. split.
    + intros ->. eexists. split; [reflexivity|]. auto.
    + intros (p & Hp & <- & <-).
      destruct (parseMonthYear s) as [[m y]|]; [|discriminate].
      injection Hp as <-. reflexivity.
  - intros Hnone. destruct (parseMonthYear s) as [[m y]|]; [|reflexivity].
    now destruct (Hnone m y).
  - intros tok rest mz yz Ht Hm Hy. apply (parseInt_short rest); [|exact Hy].
    apply monthMap_key_length in Hm. unfold toUpperCase in Hm.
    rewrite map_string_length in Hm.
    rewrite Ht, !string_app_length, Hm in Hlen. cbn [String.length] in Hlen. lia.
Qed.

(** ** C9 *)

(** C9 (amended). Every line item of every record that [processSheet]
    returns has a non-zero amount, which may be negative; a record with a
    negative line-item amount is skipped by the executor, which leaves
    the store and its counters as they are. *)
Theorem parsed_amounts_nonzero_negative_skipped_on_write :
  forall data org p,
    In p (records (processSheet Number_toString data org)) ->
    Forall (fun it => is_zero (amount it) = false) (earnings p ++ deductions p)
    /\ ((exists it, In it (earnings p ++ deductions p) /\ lt (amount it) (ofZ 0) = true) ->
        forall user e, Executor.importRecord user p e = (Store.Ok tt, e)).
Proof.
  intros data org p Hin. split.
  - revert p Hin. apply Forall_forall. apply processSheet_records.
    intros hs myh i row p Hp.
    destruct (parseRow_items _ _ _ _ _ _ Hp). eapply items_nonzero; eauto.
  - intros (it & Hit & Hneg) user e. unfold Executor.importRecord.
    assert (Hbad : Executor.hasInvalidLineItem p = true).
    { unfold Executor.hasInvalidLineItem. rewrite <- existsb_app.
      apply existsb_exists. exists it. split; [exact Hit|].
      unfold Executor.bad_item. rewrite Hneg. now rewrite orb_true_r. }
    rewrite Hbad.
    destruct (Executor.bad_month_year p), (Executor.bad_totals p); reflexivity.
Qed.

(** ** C10 *)

Lemma buildPlan_fold wb : forall p,
  let K := filter kept (sheetResults Number_toString wb) in
  fold_left (planStep Number_toString) wb p
  = mkPlan (sheets p ++ map toSheetPlan K)
           (totalRecordsToImport p + list_sum (map (fun res => List.length (records (snd res))) K))
           (totalSkippedRows p + list_sum (map (fun res => skippedRows (snd res)) K))
           (invalidRows p ++ List.concat (map (fun res => sheetInvalid (snd res)) K)).
Proof.
  induction wb as [|[name data] wb IH]; intros p.
  - simpl. rewrite !app_nil_r, !Nat.add_0_r. now destruct p.
  - cbn [fold_left]. rewrite IH. clear IH.
    cbn [sheetResults map filter fst snd]. fold (sheetResults Number_toString wb).
    unfold planStep.
    set (res := processSheet Number_toString data name).
    set (K := filter kept (sheetResults Number_toString wb)).
    set (c := ((List.length (records res) =? 0)
               && (List.length (sheetInvalid res) =? 0))%nat).
    change (kept (name, res)) with (negb c).
    destruct c; cbn [negb]; [reflexivity|].
    cbn [sheets totalRecordsToImport totalSkippedRows invalidRows map list_sum
         List.concat fst snd].
    rewrite <- !app_assoc, <- !Nat.add_assoc. reflexivity.
Qed.

Lemma dropped_sheets_have_no_diagnostic (rs : list (string * SheetResult)) :
  List.concat (map (fun res => sheetInvalid (snd res)) (filter kept rs))
  = List.concat (map (fun res => sheetInvalid (snd res)) rs).
Proof.
  induction rs as [|res rs IH]; [reflexivity|].
  cbn [filter map List.concat]. unfold kept at 1.
  destruct (sheetInvalid (snd res)) as [|b bs] eqn:Hi.
  - destruct (List.length (records (snd res)) =? 0)%nat;
      cbn [negb andb List.length Nat.eqb map List.concat]; rewrite ?Hi; apply IH.
  - rewrite andb_false_r. cbn [negb map List.concat]. now rewrite Hi, IH.
Qed.

(** C10. In the plan built from a workbook: every sheet's [skippedRows]
    is the number of its diagnostics; the plan's sheets are the sheets
    with a record or a diagnostic, in workbook order;
    [totalRecordsToImport] is the sum of their record counts;
    [totalSkippedRows] is the sum of their [skippedRows]; [invalidRows]
    is the concatenation of their diagnostics in sheet order (which is
    also the concatenation over all sheets of the workbook). *)
Theorem import_plan_is_consistent :
  forall (wb : list (string * list Row)),
    let plan := buildPlan Number_toString wb in
    let results := sheetResults Number_toString wb in
    Forall (fun res => skippedRows (snd res) = List.length (sheetInvalid (snd res))) results
    /\ sheets plan = map toSheetPlan (filter kept results)
    /\ totalRecordsToImport plan
       = list_sum (map (fun s => List.length (sp_records s)) (sheets plan))
    /\ totalSkippedRows plan = list_sum (map sp_skippedRows (sheets plan))
    /\ invalidRows plan
       = List.concat (map (fun res => sheetInvalid (snd res)) (filter kept results))
    /\ invalidRows plan = List.concat (map (fun res => sheetInvalid (snd res)) results).
Proof.
  intros wb plan results. unfold plan, buildPlan. rewrite buildPlan_fold. simpl.
  fold results. repeat split.
  - unfold results, sheetResults. apply Forall_forall. intros res Hin.
    apply in_map_iff in Hin as (s & <- & _). simpl. apply processSheet_counted.
  - now rewrite !map_map.
  - now rewrite !map_map.
  - apply dropped_sheets_have_no_diagnostic.
Qed.

End PlannerFacts.

(** ** The executor *)

Module ExecutorFacts.
Import Store Executor.

Lemma Qred_inject_Z z : Qred (inject_Z z) = inject_Z z.
Proof.
  apply Qred_identity. simpl. apply Z.gcd_1_r.
Qed.

Lemma as_integer_ofZ z : as_integer (ofZ z) = Some z.
Proof.
  unfold as_integer, ofZ, ofQ. cbn [this Q2Qc]. now rewrite Qred_inject_Z.
Qed.

Lemma le_ofZ a b : le (ofZ a) (ofZ b) = (a <=? b)%Z.
Proof.
  unfold le, ge, lt, ofZ, ofQ, Qc_ltb. cbn [this Q2Qc]. rewrite !Qred_inject_Z.
  rewrite negb_involutive. unfold Qle_bool, inject_Z. cbn [Qnum Qden].
  now rewrite !Z.mul_1_r.
Qed.

(** With finite bounds, [in_range] is the negation of the guard the
    component writes. *)
Lemma in_range_guard lo hi x :
  isFinite lo = true -> isFinite hi = true ->
  in_range lo hi x = isFinite x && negb (lt x lo) && negb (gt x hi).
Proof.
  unfold in_range, gt, le, ge.
  destruct lo, hi, x; try discriminate; intros _ _; reflexivity.
Qed.

Lemma existsb_bad_items l :
  existsb bad_item l
  = negb (forallb (fun it => in_range (ofZ 0) (ofZ 100000000) (amount it)) l).
Proof.
  induction l as [|e l IH]; simpl; [reflexivity|].
  rewrite IH, (in_range_guard (ofZ 0) (ofZ 100000000)) by reflexivity.
  unfold bad_item. change MAX_AMOUNT with (ofZ 100000000). btauto.
Qed.

(** The three guards together are the negation of the bounds. *)
Lemma guards_are_the_bounds r :
  bad_month_year r || bad_totals r || hasInvalidLineItem r = negb (write_bounds_ok r).
Proof.
  unfold write_bounds_ok, bad_month_year, bad_totals, hasInvalidLineItem.
  rewrite <- existsb_app, existsb_bad_items.
  rewrite !in_range_guard by reflexivity.
  change MIN_YEAR with (ofZ 2000). change MAX_YEAR with (ofZ 2100).
  change MAX_AMOUNT with (ofZ 100000000).
  btauto.
Qed.

Lemma importRecord_skips user r e :
  write_bounds_ok r = false -> importRecord user r e = (Ok tt, e).
Proof.
  intros H. pose proof (guards_are_the_bounds r) as G. rewrite H in G.
  unfold importRecord.
  destruct (bad_month_year r); [reflexivity|].
  destruct (bad_totals r); [reflexivity|].
  destruct (hasInvalidLineItem r); [reflexivity | discriminate].
Qed.

Lemma in_range_finite lo hi x : in_range lo hi x = true -> isFinite x = true.
Proof.
  unfold in_range. intros H. apply andb_true_iff in H as [H _].
  now apply andb_true_iff in H as [H _].
Qed.

Lemma in_range_ofZ lo hi z :
  in_range (ofZ lo) (ofZ hi) (ofZ z) = ((lo <=? z)%Z && (z <=? hi)%Z).
Proof. unfold in_range. now rewrite !le_ofZ. Qed.

Lemma le_ofZ_Fin a q : le (ofZ a) (Fin q) = Qle_bool (inject_Z a) (this q).
Proof.
  unfold le, ge, lt, ofZ, ofQ, Qc_ltb. cbn [this Q2Qc].
  now rewrite Qred_inject_Z, negb_involutive.
Qed.

Lemma le_Fin_ofZ q b : le (Fin q) (ofZ b) = Qle_bool (this q) (inject_Z b).
Proof.
  unfold le, ge, lt, ofZ, ofQ, Qc_ltb. cbn [this Q2Qc].
  now rewrite Qred_inject_Z, negb_involutive.
Qed.

(** An amount within the executor's bounds fits its column. *)
Lemma in_range_fits x :
  in_range (ofZ 0) (ofZ 100000000) x = true -> fits_numeric x = true.
Proof.
  unfold in_range. destruct x as [q| | |]; try discriminate.
  rewrite le_ofZ_Fin, le_Fin_ofZ. cbn [isFinite andb fits_numeric].
  intros H. apply andb_true_iff in H as [H0 H1].
  unfold Qle_bool, inject_Z in H0, H1. cbn [Qnum Qden] in H0, H1.
  apply Z.leb_le in H0, H1. apply Z.ltb_lt.
  unfold to_cents. destruct (this q) as [n d]. cbn [Qnum Qden] in *.
  assert (Hq : (0 <= (2 * Z.abs (n * 100) + Z.pos d) / (2 * Z.pos d) < 10 ^ 12)%Z).
  { split; [apply Z.div_pos; lia|].
    apply Z.div_lt_upper_bound; [lia|]. change (10 ^ 12)%Z with 1000000000000%Z. lia. }
  destruct (Z.sgn_spec (n * 100)) as [[_ ->] | [[_ ->] | [Hneg _]]]; lia.
Qed.

Lemma round2_ofZ z : round2 (ofZ z) = ofZ z.
Proof.
  unfold round2, ofZ, ofQ. cbn [this Q2Qc]. now rewrite Qred_inject_Z.
Qed.

(** A row within the table's constraints is accepted by the upsert: it
    is in the table afterwards, with its amounts as the columns keep
    them, under the id of the row that had its key if there was one; the
    line-item tables are not touched. *)
Lemma upsert_accepts user org m y te td net gross d :
  (1 <=? m)%Z && (m <=? 12)%Z = true ->
  (2000 <=? y)%Z && (y <=? 2100)%Z = true ->
  isFinite te = true -> isFinite td = true ->
  isFinite net = true -> isFinite gross = true ->
  fits_numeric te = true -> fits_numeric td = true ->
  fits_numeric net = true -> fits_numeric gross = true ->
  exists row d',
    upsert_salary_record user org (ofZ m) (ofZ y) te td net gross d = (Ok row, d')
    /\ In row (salary_records d')
    /\ row = mkSalary (s_id row) user (Some org) m y
               (round2 te) (round2 td) (round2 net) (round2 gross)
    /\ earnings_tbl d' = earnings_tbl d
    /\ deductions_tbl d' = deductions_tbl d
    /\ (forall old, find (same_key user m y) (salary_records d) = Some old ->
                    s_id row = s_id old
                    /\ List.length (salary_records d') = List.length (salary_records d)).
Proof.
  intros Hm Hy Hte Htd Hnet Hgross Fte Ftd Fnet Fgross.
  unfold upsert_salary_record.
  rewrite !as_integer_ofZ, Hte, Htd, Hnet, Hgross, Fte, Ftd, Fnet, Fgross, Hm, Hy.
  cbn [andb negb].
  destruct (find (same_key user m y) (salary_records d)) as [old|] eqn:Hfind.
  - eexists _, _. split; [reflexivity|]. cbn.
    split.
    { apply find_some in Hfind as [Hin Hkey].
      apply in_map_iff. exists old. now rewrite Hkey. }
    do 3 (split; [reflexivity|]).
    intros old' [= <-]. split; [reflexivity | apply length_map].
  - eexists _, _. split; [reflexivity|]. cbn.
    split; [apply in_or_app; right; now left|].
    do 3 (split; [reflexivity|]). discriminate.
Qed.

(** A refused upsert leaves the store as it is. *)
Lemma upsert_overflow user org m y te td net gross d :
  isFinite te = true -> isFinite td = true ->
  isFinite net = true -> isFinite gross = true ->
  fits_numeric net = false ->
  exists msg,
    upsert_salary_record user org (ofZ m) (ofZ y) te td net gross d = (Err msg, d).
Proof.
  intros Hte Htd Hnet Hgross Fnet. unfold upsert_salary_record.
  rewrite !as_integer_ofZ, Hte, Htd, Hnet, Hgross, Fnet, !andb_false_r.
  cbn [andb negb]. eauto.
Qed.

Lemma with_db_same e : with_db e (db e) = e.
Proof. now destruct e. Qed.

Lemma items_fit rid items :
  forallb (fun it => in_range (ofZ 0) (ofZ 100000000) (amount it)) items = true ->
  forallb (fun r => fits_numeric (i_amount r)) (item_rows rid items) = true.
Proof.
  unfold item_rows. induction items as [|it items IH]; intros H; [reflexivity|].
  cbn [forallb map i_amount] in *. apply andb_true_iff in H as [H1 H2].
  now rewrite (in_range_fits _ H1), (IH H2).
Qed.

Lemma stored_item_rows rid items : map stored_item (item_rows rid items) = stored_rows rid items.
Proof. unfold item_rows, stored_rows. rewrite map_map. reflexivity. Qed.

Lemma when_insert_earnings rid items e :
  forallb (fun it => in_range (ofZ 0) (ofZ 100000000) (amount it)) items = true ->
  when (0 <? List.length items)%nat (call_try (insert_earnings (item_rows rid items))) e
  = (Ok tt, with_db e (set_earnings (db e) (earnings_tbl (db e) ++ stored_rows rid items))).
Proof.
  intros Hfit. destruct items as [|it items].
  - cbn. unfold set_earnings. cbn. rewrite app_nil_r.
    destruct e as [[] ? ? ?]. reflexivity.
  - cbn [List.length Nat.ltb Nat.leb when]. unfold call_try, insert_earnings.
    now rewrite (items_fit rid _ Hfit), stored_item_rows.
Qed.

Lemma when_insert_deductions rid items e :
  forallb (fun it => in_range (ofZ 0) (ofZ 100000000) (amount it)) items = true ->
  when (0 <? List.length items)%nat (call_try (insert_deductions (item_rows rid items))) e
  = (Ok tt, with_db e (set_deductions (db e) (deductions_tbl (db e) ++ stored_rows rid items))).
Proof.
  intros Hfit. destruct items as [|it items].
  - cbn. unfold set_deductions. cbn. rewrite app_nil_r.
    destruct e as [[] ? ? ?]. reflexivity.
  - cbn [List.length Nat.ltb Nat.leb when]. unfold call_try, insert_deductions.
    now rewrite (items_fit rid _ Hfit), stored_item_rows.
Qed.

(** What the guards give about a record that passes them. *)
Lemma write_bounds_facts r m y :
  write_bounds_ok r = true -> month r = ofZ m -> year r = ofZ y ->
  (1 <=? m)%Z && (m <=? 12)%Z = true
  /\ (2000 <=? y)%Z && (y <=? 2100)%Z = true
  /\ isFinite (totalEarnings r) = true
  /\ isFinite (totalDeductions r) = true
  /\ isFinite (netSalary r) = true
  /\ fits_numeric (totalEarnings r) = true
  /\ fits_numeric (totalDeductions r) = true
  /\ forallb (fun it => in_range (ofZ 0) (ofZ 100000000) (amount it)) (earnings r) = true
  /\ forallb (fun it => in_range (ofZ 0) (ofZ 100000000) (amount it)) (deductions r) = true.
Proof.
  intros Hok Hm Hy. unfold write_bounds_ok in Hok.
  apply andb_true_iff in Hok as [Hok Hitems].
  apply andb_true_iff in Hok as [Hok Hnet].
  apply andb_true_iff in Hok as [Hok Htd].
  apply andb_true_iff in Hok as [Hok Hte].
  apply andb_true_iff in Hok as [Hmonth Hyear].
  rewrite Hm, in_range_ofZ in Hmonth.
  rewrite Hy, in_range_ofZ in Hyear.
  rewrite forallb_app in Hitems. apply andb_true_iff in Hitems as [He Hd].
  split; [exact Hmonth|]. split; [exact Hyear|].
  split; [exact (in_range_finite _ _ _ Hte)|].
  split; [exact (in_range_finite _ _ _ Htd)|].
  split; [exact Hnet|].
  split; [exact (in_range_fits _ Hte)|].
  split; [exact (in_range_fits _ Htd)|].
  split; [exact He | exact Hd].
Qed.

(** The state a written record leaves: the row is upserted, the
    counters advance, the line items are added as their tables keep
    them. *)
Lemma importRecord_after_upsert user r e row d' :
  bad_month_year r || bad_totals r || hasInvalidLineItem r = false ->
  forallb (fun it => in_range (ofZ 0) (ofZ 100000000) (amount it)) (earnings r) = true ->
  forallb (fun it => in_range (ofZ 0) (ofZ 100000000) (amount it)) (deductions r) = true ->
  upsert_salary_record user (organization r) (month r) (year r)
    (totalEarnings r) (totalDeductions r) (netSalary r) (totalEarnings r) (db e)
  = (Ok row, d') ->
  importRecord user r e
  = (Ok tt,
     mkExec (set_deductions
               (set_earnings d' (earnings_tbl d' ++ stored_rows (s_id row) (earnings r)))
               (deductions_tbl d' ++ stored_rows (s_id row) (deductions r)))
            (S (totalRecordsImported e)) (totalTemplates e) (S (processedRecords e))).
Proof.
  intros G He Hd Hup.
  apply orb_false_iff in G as [G G3]. apply orb_false_iff in G as [G1 G2].
  unfold importRecord. rewrite G1, G2, G3.
  unfold bind at 1. unfold call_try at 1. rewrite Hup.
  unfold bind at 1. unfold count_record.
  cbn [db totalRecordsImported totalTemplates processedRecords with_db].
  unfold bind at 1.
  change (map (fun e0 => mkItemRow (s_id row) (category e0) (amount e0)) (earnings r))
    with (item_rows (s_id row) (earnings r)).
  change (map (fun e0 => mkItemRow (s_id row) (category e0) (amount e0)) (deductions r))
    with (item_rows (s_id row) (deductions r)).
  rewrite (when_insert_earnings _ _ _ He), (when_insert_deductions _ _ _ Hd).
  reflexivity.
Qed.

(** What the executor does with a record that passes its guards and
    whose net salary fits its column. *)
Lemma importRecord_writes user r e m y :
  write_bounds_ok r = true ->
  fits_numeric (netSalary r) = true ->
  month r = ofZ m -> year r = ofZ y ->
  exists row e',
    importRecord user r e = (Ok tt, e')
    /\ In row (salary_records (db e'))
    /\ row = mkSalary (s_id row) user (Some (organization r)) m y
               (round2 (totalEarnings r)) (round2 (totalDeductions r))
               (round2 (netSalary r)) (round2 (totalEarnings r))
    /\ earnings_tbl (db e') = earnings_tbl (db e) ++ stored_rows (s_id row) (earnings r)
    /\ deductions_tbl (db e') = deductions_tbl (db e) ++ stored_rows (s_id row) (deductions r)
    /\ totalRecordsImported e' = S (totalRecordsImported e)
    /\ processedRecords e' = S (processedRecords e)
    /\ (forall old, find (same_key user m y) (salary_records (db e)) = Some old ->
                    s_id row = s_id old
                    /\ List.length (salary_records (db e'))
                       = List.length (salary_records (db e))).
Proof.
  intros Hok Fnet Hm Hy.
  pose proof (guards_are_the_bounds r) as G. rewrite Hok in G. cbn [negb] in G.
  destruct (write_bounds_facts r m y Hok Hm Hy)
    as (A1 & A2 & A3 & A4 & A5 & A6 & A7 & A8 & A9).
  destruct (upsert_accepts user (organization r) m y (totalEarnings r) (totalDeductions r)
              (netSalary r) (totalEarnings r) (db e) A1 A2 A3 A4 A5 A3 A6 A7 Fnet A6)
    as (row & d' & Hup & Hin & Hrow & Hearn & Hded & Hold).
  rewrite <- Hm, <- Hy in Hup.
  eexists row, _. split; [exact (importRecord_after_upsert user r e row d' G A8 A9 Hup)|].
  cbn. rewrite Hearn, Hded. auto 10.
Qed.

(** A record that passes the guards and whose net salary does not fit
    its column: the store refuses the upsert and the executor throws,
    with nothing written. *)
Lemma importRecord_overflow user r e m y :
  write_bounds_ok r = true ->
  fits_numeric (netSalary r) = false ->
  month r = ofZ m -> year r = ofZ y ->
  exists msg, importRecord user r e = (Err msg, e).
Proof.
  intros Hok Fnet Hm Hy.
  pose proof (guards_are_the_bounds r) as G. rewrite Hok in G. cbn [negb] in G.
  apply orb_false_iff in G as [G G3]. apply orb_false_iff in G as [G1 G2].
  destruct (write_bounds_facts r m y Hok Hm Hy) as (_ & _ & A3 & A4 & A5 & _).
  destruct (upsert_overflow user (organization r) m y (totalEarnings r) (totalDeductions r)
              (netSalary r) (totalEarnings r) (db e) A3 A4 A5 A3 Fnet) as (msg & Hup).
  exists msg. unfold importRecord. rewrite G1, G2, G3, Hm, Hy.
  unfold bind at 1. unfold call_try. rewrite Hup. now rewrite with_db_same.
Qed.

(** ** C3 *)

(** C3 (amended). The executor writes a record if and only if its month
    is in [1,12], its year in [2000,2100], its totalEarnings,
    totalDeductions and every line-item amount in [0, 100_000_000], and
    its netSalary is a finite number that its numeric(12,2) column takes
    (of any sign, below 10^10 in absolute value once rounded to two
    decimals).  A record outside the guards leaves the store and the
    counters untouched and the loop goes on with the records after it.  A
    record within them whose netSalary fits is upserted under its (user,
    month, year) key with the record's totals as the columns keep them,
    its line items are added to the line-item tables, and the
    imported-record counter advances by one.  A record within the guards
    whose netSalary does not fit is refused by the store: nothing is
    written for it, the executor throws, and the records after it are not
    imported. *)
Theorem executor_writes_iff_within_bounds :
  forall user r e m y,
    month r = ofZ m -> year r = ofZ y ->
    (write_bounds_ok r = false ->
       importRecord user r e = (Ok tt, e)
       /\ forall rest, forEach (r :: rest) (importRecord user) e
                       = forEach rest (importRecord user) e)
    /\ (write_bounds_ok r = true -> fits_numeric (netSalary r) = true ->
        exists row e',
          importRecord user r e = (Ok tt, e')
          /\ In row (salary_records (db e'))
          /\ row = mkSalary (s_id row) user (Some (organization r)) m y
                     (round2 (totalEarnings r)) (round2 (totalDeductions r))
                     (round2 (netSalary r)) (round2 (totalEarnings r))
          /\ earnings_tbl (db e')
             = earnings_tbl (db e) ++ stored_rows (s_id row) (earnings r)
          /\ deductions_tbl (db e')
             = deductions_tbl (db e) ++ stored_rows (s_id row) (deductions r)
          /\ totalRecordsImported e' = S (totalRecordsImported e))
    /\ (write_bounds_ok r = true -> fits_numeric (netSalary r) = false ->
        exists msg,
          importRecord user r e = (Err msg, e)
          /\ forall rest, forEach (r :: rest) (importRecord user) e = (Err msg, e)).
Proof.
  intros user r e m y Hm Hy. split; [|split].
  - intros Hbad. pose proof (importRecord_skips user r e Hbad) as Hskip.
    split; [exact Hskip|]. intros rest. cbn [forEach]. unfold bind. now rewrite Hskip.
  - intros Hok Fnet.
    destruct (importRecord_writes user r e m y Hok Fnet Hm Hy)
      as (row & e' & H1 & H2 & H3 & H4 & H5 & H6 & _).
    exists row, e'. auto 10.
  - intros Hok Fnet.
    destruct (importRecord_overflow user r e m y Hok Fnet Hm Hy) as (msg & H).
    exists msg. split; [exact H|]. intros rest. cbn [forEach]. unfold bind. now rewrite H.
Qed.

(** ** C1 *)

(** C1 (fails on the code). Importing the second version of a payslip
    over the first keeps one salary record for the month, but its line
    items are those of both versions: the first version's earning and
    deduction are still there. *)
Theorem reimport_keeps_old_line_items :
  let d1 := db (snd (performImport "u" (single_record_plan january_v1) Store.empty)) in
  let d2 := db (snd (performImport "u" (single_record_plan january_v2) d1)) in
  map s_id (salary_records d2) = [1]
  /\ earnings_of 1 d2 = [mkItem "Basic" (ofZ 1000); mkItem "HRA" (ofZ 500)]
  /\ deductions_of 1 d2 = [mkItem "Income Tax" (ofZ 100)]
  /\ earnings_of 1 d2 <> earnings january_v2
  /\ deductions_of 1 d2 <> deductions january_v2.
Proof.
  cbv zeta. repeat split; try reflexivity; vm_compute; discriminate.
Qed.

End ExecutorFacts.

(** ** The backup import gate *)

Section BackupFacts.
Import Backup.

Variable JSON_parse : string -> option Json.
Variable service_ok : list Call -> Call -> bool.

Local Abbreviation validate' := (validate JSON_parse).
Local Abbreviation step' := (step JSON_parse service_ok).
Local Abbreviation run' := (run JSON_parse service_ok).

Lemma version_needs_object j : version_is_1 j = true -> is_object j = true.
Proof. destruct j; try discriminate; reflexivity. Qed.

Lemma validate_rejects f : rejected JSON_parse f <-> exists message, validate' f = inr message.
Proof.
  unfold rejected, validate. split.
  - intros [Hsize | [Hparse | (j & Hparse & Hver)]].
    + apply N.ltb_lt in Hsize. rewrite Hsize. eauto.
    + destruct (MAX_FILE_SIZE <? size f)%N; [eauto|]. rewrite Hparse. eauto.
    + destruct (MAX_FILE_SIZE <? size f)%N; [eauto|]. rewrite Hparse, Hver.
      rewrite orb_true_r. eauto.
  - intros (message & H).
    destruct (MAX_FILE_SIZE <? size f)%N eqn:Hsize; [left; now apply N.ltb_lt|].
    right. destruct (JSON_parse (text f)) as [j|]; [|now left].
    right. exists j. split; [reflexivity|].
    destruct (version_is_1 j) eqn:Hver; [|reflexivity].
    rewrite (version_needs_object j Hver) in H. discriminate.
Qed.

(** The requests already sent stay at the front of the log. *)
Lemma run_program_prefix prog : forall sent,
  exists more, fst (run_program service_ok prog sent) = sent ++ more.
Proof.
  induction prog as [|[c|] prog IH]; intros sent; simpl.
  - exists []. now rewrite app_nil_r.
  - destruct (service_ok sent c).
    + destruct (IH (sent ++ [c])) as (more & ->). exists (c :: more).
      now rewrite <- app_assoc.
    + exists [c]. reflexivity.
  - exists []. now rewrite app_nil_r.
Qed.

Lemma run_program_first c prog :
  hd_error (fst (run_program service_ok (Do c :: prog) [])) = Some c.
Proof.
  simpl. destruct (service_ok [] c); [|reflexivity].
  destruct (run_program_prefix prog [c]) as (more & ->). reflexivity.
Qed.

Lemma run_snoc evs ev : run' (evs ++ [ev]) = step' (run' evs) ev.
Proof. unfold run. now rewrite fold_left_app. Qed.

(** What the state remembers of the events that led to it. *)
Lemma run_invariant evs :
  (forall data, pendingBackupData (run' evs) = Some data ->
     exists pre f mid, evs = pre ++ SelectFile (Some f) :: mid /\ validate' f = inl data)
  /\ (calls (run' evs) <> [] ->
      hd_error (calls (run' evs)) = Some (Rpc "wipe_all_salary_data")
      /\ exists pre f data mid post,
           evs = pre ++ SelectFile (Some f) :: mid ++ ConfirmClick :: post
           /\ validate' f = inl data).
Proof.
  induction evs as [|ev evs [IHa IHb]] using rev_ind.
  - split; [discriminate | intros H; now destruct H].
  - rewrite run_snoc.
    assert (Ka : forall data, pendingBackupData (run' evs) = Some data ->
              exists pre f mid, evs ++ [ev] = pre ++ SelectFile (Some f) :: mid
                                /\ validate' f = inl data).
    { intros data H. destruct (IHa data H) as (pre & f & mid & -> & Hv).
      exists pre, f, (mid ++ [ev]). now rewrite <- app_assoc. }
    assert (Kb : calls (run' evs) <> [] ->
              hd_error (calls (run' evs)) = Some (Rpc "wipe_all_salary_data")
              /\ exists pre f data mid post,
                   evs ++ [ev] = pre ++ SelectFile (Some f) :: mid ++ ConfirmClick :: post
                   /\ validate' f = inl data).
    { intros H. destruct (IHb H) as (Hhd & pre & f & data & mid & post & -> & Hv).
      split; [exact Hhd|]. exists pre, f, data, mid, (post ++ [ev]).
      split; [|exact Hv]. rewrite <- !app_assoc. simpl. now rewrite <- app_assoc. }
    destruct ev as [[f|] | | open]; cbn [step]; auto.
    + unfold handleImportBackupFile.
      destruct (validate' f) as [data|message] eqn:Hv; cbn; split; auto.
      intros data' [= <-]. exists evs, f, []. auto.
    + unfold performBackupImport.
      case_eq (pendingBackupData (run' evs)); [intros data Hp | auto].
      case_eq (pendingBackupCounts (run' evs)); [intros counts Hc | auto].
      destruct (run_program service_ok (restore_program data) (calls (run' evs)))
        as [sent finished] eqn:Hrun.
      assert (Hsent : hd_error sent = Some (Rpc "wipe_all_salary_data")
                      /\ exists pre f data mid post,
                           evs ++ [ConfirmClick]
                           = pre ++ SelectFile (Some f) :: mid ++ ConfirmClick :: post
                           /\ validate' f = inl data).
      { split.
        - destruct (calls (run' evs)) as [|c0 cs] eqn:Hcalls.
          + pose proof (run_program_first (Rpc "wipe_all_salary_data")
                          (tl (restore_program data))) as Hfirst.
            change (Do (Rpc "wipe_all_salary_data") :: tl (restore_program data))
              with (restore_program data) in Hfirst.
            now rewrite Hrun in Hfirst.
          + destruct (run_program_prefix (restore_program data) (c0 :: cs)) as (more & Hmore).
            rewrite Hrun in Hmore. cbn in Hmore. subst sent.
            destruct IHb as [Hhd _]; [discriminate | exact Hhd].
        - destruct (IHa data Hp) as (pre & f & mid & -> & Hv).
          exists pre, f, data, mid, []. split; [|exact Hv]. now rewrite <- app_assoc. }
      destruct finished; cbn; split; auto; discriminate.
Qed.

(** ** C8 *)

(** C8. A backup file larger than 10 MB, or that is not JSON, or whose
    parsed value lacks [version === 1], is answered by an error message
    and nothing else: no request goes to the persistence service and the
    pending backup, its counts and the confirmation dialog stay as they
    were.  Whenever some request has gone out, the first one is the wipe,
    and before it the user selected a file that passed validation and,
    later, pressed the confirm button. *)
Theorem rejected_backup_file_changes_nothing :
  (forall st f,
      rejected JSON_parse f ->
      exists message,
        handleImportBackupFile JSON_parse st (Some f)
        = mkState (pendingBackupData st) (pendingBackupCounts st) (backupConfirmOpen st)
                  (backupImportSummary st) (calls st) (toasts st ++ [message]))
  /\ (forall evs,
        calls (run' evs) <> [] ->
        hd_error (calls (run' evs)) = Some (Rpc "wipe_all_salary_data")
        /\ exists pre f data mid post,
             evs = pre ++ SelectFile (Some f) :: mid ++ ConfirmClick :: post
             /\ validate' f = inl data).
Proof.
  split.
  - intros st f Hrej. apply validate_rejects in Hrej as (message & Hv).
    exists message. unfold handleImportBackupFile. now rewrite Hv.
  - intros evs. apply run_invariant.
Qed.

End BackupFacts.

(** ** Export followed by import *)

(** *** Printing and reading back a year *)

Module YearText.
Import Exporter.

Lemma digit_chars (c : ascii) :
  is_digit c = true ->
  is_space c = false
  /\ Ascii.eqb c " " = false /\ Ascii.eqb c "-" = false /\ Ascii.eqb c "+" = false
  /\ Ascii.eqb c "x" = false /\ Ascii.eqb c "X" = false.
Proof.
  destruct c as [[] [] [] [] [] [] [] []]; try discriminate; intros _; repeat split.
Qed.

Lemma string_of_uint_digits d : all_chars is_digit (NilEmpty.string_of_uint d) = true.
Proof. induction d; simpl; auto. Qed.

Ltac eval_digit :=
  match goal with
  | |- context [is_digit ?c] => replace (is_digit c) with true by reflexivity
  end;
  match goal with
  | |- context [digit_val ?c] =>
      let v := eval vm_compute in (digit_val c) in change (digit_val c) with v
  end.

Lemma read_digits_acc d : forall (acc : positive) n,
  read_digits (NilEmpty.string_of_uint d) (Zpos acc) n
  = (Zpos (Pos.of_uint_acc d acc), n + Decimal.nb_digits d, "").
Proof.
  induction d; intros acc n;
    cbn [NilEmpty.string_of_uint read_digits Pos.of_uint_acc Decimal.nb_digits];
    try (now rewrite Nat.add_0_r);
    eval_digit;
    match goal with
    | |- read_digits _ ?z _ = (Zpos (Pos.of_uint_acc _ ?a), _, _) =>
        replace z with (Zpos a) by lia
    end;
    rewrite IHd; do 2 f_equal; lia.
Qed.

Lemma read_digits_uint d : forall n,
  read_digits (NilEmpty.string_of_uint d) 0%Z n
  = (Z.of_N (Pos.of_uint d), n + Decimal.nb_digits d, "").
Proof.
  induction d; intros n;
    cbn [NilEmpty.string_of_uint read_digits Pos.of_uint Decimal.nb_digits];
    try (now rewrite Nat.add_0_r);
    eval_digit; cbn [Z.mul Z.add];
    [rewrite IHd | rewrite read_digits_acc ..]; do 2 f_equal; lia.
Qed.

(** On a string of digits [read_int] is the decimal reading. *)
Lemma read_int_digits sign body :
  all_chars is_digit body = true ->
  read_int sign body
  = let '(v, n, _) := read_digits body 0%Z 0 in
    match n with O => None | _ => Some (sign * v)%Z end.
Proof.
  destruct body as [|c [|c' s']]; [reflexivity | |].
  - intros H. destruct c as [[] [] [] [] [] [] [] []]; try discriminate H; reflexivity.
  - cbn [all_chars]. intros H.
    apply andb_true_iff in H as [Hc H]. apply andb_true_iff in H as [Hc' _].
    destruct (digit_chars c' Hc') as (_ & _ & _ & _ & Hx & HX).
    destruct c as [[] [] [] [] [] [] [] []]; try discriminate Hc;
      cbn [read_int]; rewrite ?Hx, ?HX; reflexivity.
Qed.

Lemma Z_toString_pos p :
  Z_toString (Zpos p) = NilEmpty.string_of_uint (Pos.to_uint p).
Proof. reflexivity. Qed.

Lemma Z_toString_neg p :
  Z_toString (Zneg p) = String "-" (NilEmpty.string_of_uint (Pos.to_uint p)).
Proof. reflexivity. Qed.

Lemma read_int_to_uint sign p :
  read_int sign (NilEmpty.string_of_uint (Pos.to_uint p)) = Some (sign * Zpos p)%Z.
Proof.
  rewrite read_int_digits by apply string_of_uint_digits.
  rewrite read_digits_uint, DecimalPos.Unsigned.of_to. cbn [Z.of_N Nat.add].
  destruct (Decimal.nb_digits (Pos.to_uint p)) eqn:Hn; [|reflexivity].
  pose proof (DecimalPos.Unsigned.of_to p) as Hp.
  destruct (Pos.to_uint p); try discriminate Hn. discriminate Hp.
Qed.

Lemma first_char_of_digits d c s :
  NilEmpty.string_of_uint d = String c s -> is_digit c = true.
Proof.
  intros H. pose proof (string_of_uint_digits d) as Hd. rewrite H in Hd.
  cbn [all_chars] in Hd. now apply andb_true_iff in Hd as [Hc _].
Qed.

(** The year printed by the export is read back by [parseInt]. *)
Lemma parseInt_Z_toString z : parseInt (Z_toString z) = Some z.
Proof.
  destruct z as [|p|p]; [reflexivity | |].
  - rewrite Z_toString_pos. unfold parseInt.
    destruct (NilEmpty.string_of_uint (Pos.to_uint p)) as [|c s] eqn:Hs.
    + pose proof (read_int_to_uint 1 p) as H. rewrite Hs in H. discriminate H.
    + destruct (digit_chars c (first_char_of_digits _ _ _ Hs)) as (Hsp & _ & Hm & Hp & _).
      cbn [trimStart]. rewrite Hsp.
      assert (Hsign : read_sign (String c s) = (1%Z, String c s)).
      { unfold read_sign. apply Ascii.eqb_neq in Hm, Hp.
        destruct c as [[] [] [] [] [] [] [] []]; try reflexivity; congruence. }
      rewrite Hsign, <- Hs, read_int_to_uint. reflexivity.
  - rewrite Z_toString_neg. unfold parseInt. cbn [trimStart is_space].
    replace (is_space "-") with false by reflexivity.
    cbn [read_sign]. rewrite read_int_to_uint. reflexivity.
Qed.

(** The printed year has no blank, and is not empty. *)
Lemma digits_no_blank s :
  all_chars is_digit s = true ->
  has_space s = false /\ all_chars (fun c => negb (is_space c)) s = true.
Proof.
  induction s as [|c s IH]; cbn [all_chars has_space]; [auto|].
  intros H. apply andb_true_iff in H as [Hc Hs].
  destruct (digit_chars c Hc) as (Hsp & Hblank & _). destruct (IH Hs) as [H1 H2].
  now rewrite Hsp, Hblank, H1, H2.
Qed.

Lemma Z_toString_no_blank z :
  has_space (Z_toString z) = false
  /\ all_chars (fun c => negb (is_space c)) (Z_toString z) = true
  /\ Z_toString z <> "".
Proof.
  destruct z as [|p|p]; [repeat split; discriminate | |].
  - rewrite Z_toString_pos.
    destruct (digits_no_blank _ (string_of_uint_digits (Pos.to_uint p))) as [H1 H2].
    repeat split; auto. intros H.
    pose proof (read_int_to_uint 1 p) as Hr. rewrite H in Hr. discriminate Hr.
  - rewrite Z_toString_neg.
    destruct (digits_no_blank _ (string_of_uint_digits (Pos.to_uint p))) as [H1 H2].
    cbn [has_space all_chars]. rewrite H1, H2. repeat split; discriminate.
Qed.

End YearText.

(** *** The Month/Year label *)

Module LabelText.
Import Exporter.

Lemma trimEnd_no_blank s :
  all_chars (fun c => negb (is_space c)) s = true -> trimEnd s = s.
Proof.
  induction s as [|c s IH]; cbn [all_chars trimEnd]; [reflexivity|].
  intros H. apply andb_true_iff in H as [Hc Hs]. rewrite (IH Hs).
  apply negb_true_iff in Hc. rewrite Hc. now destruct s.
Qed.

Lemma trimEnd_app a b :
  b <> "" -> trimEnd b = b -> trimEnd (a ++ b) = (a ++ b)%string.
Proof.
  intros Hb Hte. induction a as [|c a IH]; cbn [append trimEnd]; [exact Hte|].
  rewrite IH. destruct (a ++ b)%string eqn:E; [|reflexivity].
  destruct a; [now subst | discriminate].
Qed.

(** An abbreviation of the table, a blank and a printed year are read
    back as that month and that year. *)
Lemma parse_label abbr mz y :
  has_space abbr = false ->
  trimStart abbr = abbr -> abbr <> "" ->
  monthMap_get monthMap (toUpperCase abbr) = Some mz ->
  parseMonthYear (abbr ++ " " ++ Z_toString y) = Some (ofZ mz, ofZ y).
Proof.
  intros Hsp Hts Hne Hm.
  destruct (YearText.Z_toString_no_blank y) as (Hy1 & Hy2 & Hy3).
  assert (Htrim : trim (abbr ++ " " ++ Z_toString y) = (abbr ++ " " ++ Z_toString y)%string).
  { unfold trim.
    assert (H1 : trimStart (abbr ++ " " ++ Z_toString y) = (abbr ++ " " ++ Z_toString y)%string).
    { destruct abbr as [|c a]; [congruence|]. cbn [append trimStart] in *.
      destruct (is_space c); [|reflexivity].
      exfalso. clear -Hts. assert (H : String.length (trimStart a) <= String.length a).
      { clear. induction a as [|c' a IH]; simpl; [auto|]. destruct (is_space c'); simpl; lia. }
      rewrite Hts in H. simpl in H. lia. }
    rewrite H1. apply trimEnd_app; [discriminate|].
    apply trimEnd_app; [exact Hy3|]. now apply trimEnd_no_blank. }
  unfold parseMonthYear. rewrite Htrim.
  rewrite (proj2 (split_space_two _ abbr (Z_toString y))) by auto.
  now rewrite Hm, YearText.parseInt_Z_toString.
Qed.

Lemma month_label_parses m y :
  (1 <= m <= 12)%Z ->
  exists name, month_name m = Some name
               /\ month_label name y <> ""
               /\ parseMonthYear (month_label name y) = Some (ofZ m, ofZ y).
Proof.
  intros Hm.
  assert (Hcases : (m = 1 \/ m = 2 \/ m = 3 \/ m = 4 \/ m = 5 \/ m = 6 \/ m = 7 \/ m = 8
                    \/ m = 9 \/ m = 10 \/ m = 11 \/ m = 12)%Z) by lia.
  repeat (destruct Hcases as [-> | Hcases]); try subst m;
    (eexists; split; [reflexivity|]; split; [discriminate|];
     unfold month_label; apply parse_label;
     [reflexivity | reflexivity | discriminate | reflexivity]).
Qed.

End LabelText.

(** *** One exported row read back *)

Module RowRoundTrip.
Import Exporter.

Lemma list_includes_In h l : list_includes h l = true <-> In h l.
Proof.
  unfold list_includes. rewrite existsb_exists. split.
  - intros (x & Hin & Heq). apply String.eqb_eq in Heq. now subst.
  - intros Hin. exists h. split; [exact Hin | apply String.eqb_refl].
Qed.

Lemma list_includes_not_In h l : list_includes h l = false <-> ~ In h l.
Proof.
  rewrite <- list_includes_In. destruct (list_includes h l); split; congruence.
Qed.

Lemma is_zero_eq n : is_zero n = true -> n = ofZ 0.
Proof.
  destruct n as [q| | |]; try discriminate. cbn [is_zero]. intros H.
  unfold ofZ, ofQ. f_equal. apply Qc_is_canon. apply Qeq_bool_eq in H.
  rewrite H. cbn [this Q2Qc]. symmetry. apply Qred_correct.
Qed.

Lemma or_zero_same n : isNaN n = false -> or_zero n = n.
Proof.
  unfold or_zero, falsy_number. intros ->. rewrite orb_false_r.
  destruct (is_zero n) eqn:Hz; [|reflexivity]. symmetry. now apply is_zero_eq.
Qed.

Lemma special_header_false c :
  special_header c = false ->
  String.eqb c "Month Year" = false
  /\ String.eqb c TOTAL_EARNINGS_HEADER = false
  /\ String.eqb c TOTAL_DEDUCTIONS_HEADER = false
  /\ String.eqb c NET_SALARY_HEADER = false
  /\ String.eqb c "Net Pay" = false.
Proof.
  unfold special_header, list_includes. cbn [existsb]. intros H.
  apply orb_false_iff in H as [H1 H]. apply orb_false_iff in H as [H2 H].
  apply orb_false_iff in H as [H3 H]. apply orb_false_iff in H as [H4 H].
  apply orb_false_iff in H as [H5 _]. auto.
Qed.

Lemma reads_back_as_earning_plain org c :
  reads_back_as_earning org c = true -> special_header c = false.
Proof.
  unfold reads_back_as_earning. intros H. apply andb_true_iff in H as [H _].
  now apply negb_true_iff in H.
Qed.

Lemma reads_back_as_deduction_plain org c :
  reads_back_as_deduction org c = true -> special_header c = false.
Proof.
  unfold reads_back_as_deduction. intros H. apply andb_true_iff in H as [H _].
  apply andb_true_iff in H as [H _]. now apply negb_true_iff in H.
Qed.

(** No column is read back both ways. *)
Lemma reads_back_one_way org c :
  reads_back_as_earning org c = true -> reads_back_as_deduction org c = true -> False.
Proof.
  unfold reads_back_as_earning, reads_back_as_deduction.
  destruct (special_header c), (list_includes c (orgEarnings org)),
           (list_includes c (orgDeductions org)), (isDeductionHeader c); discriminate.
Qed.

(** The header loop on an earning column and on a deduction column. *)
Lemma headerStep_earning org row a c v :
  row_get row c = Some (CNum v) ->
  reads_back_as_earning org c = true ->
  headerStep (Some "Month Year") (orgEarnings org) (orgDeductions org) row a c
  = if is_zero v then a else push_earning a (mkItem c v).
Proof.
  intros Hget Hcls. unfold headerStep. rewrite Hget. cbn [numVal].
  destruct (special_header_false c (reads_back_as_earning_plain _ _ Hcls))
    as (H1 & H2 & H3 & H4 & _).
  unfold reserved. rewrite H1, H2, H3, H4. cbn [orb].
  destruct (is_zero v); [reflexivity|].
  unfold reads_back_as_earning in Hcls. apply andb_true_iff in Hcls as [_ Hcls].
  destruct (list_includes c (orgEarnings org)); [reflexivity|].
  cbn [orb] in Hcls. apply andb_true_iff in Hcls as [Hd Hk].
  apply negb_true_iff in Hd, Hk. now rewrite Hd, Hk.
Qed.

Lemma headerStep_deduction org row a c v :
  row_get row c = Some (CNum v) ->
  reads_back_as_deduction org c = true ->
  headerStep (Some "Month Year") (orgEarnings org) (orgDeductions org) row a c
  = if is_zero v then a else push_deduction a (mkItem c v).
Proof.
  intros Hget Hcls. unfold headerStep. rewrite Hget. cbn [numVal].
  destruct (special_header_false c (reads_back_as_deduction_plain _ _ Hcls))
    as (H1 & H2 & H3 & H4 & _).
  unfold reserved. rewrite H1, H2, H3, H4. cbn [orb].
  destruct (is_zero v); [reflexivity|].
  unfold reads_back_as_deduction in Hcls. apply andb_true_iff in Hcls as [Hcls Hk].
  apply andb_true_iff in Hcls as [_ He]. apply negb_true_iff in He. rewrite He.
  destruct (list_includes c (orgDeductions org)); [reflexivity|].
  cbn [orb] in Hk. now rewrite Hk.
Qed.

Lemma fold_earning_columns org row items cats : forall a,
  (forall c, In c cats ->
             row_get row c = Some (CNum (find_amount items c))
             /\ reads_back_as_earning org c = true) ->
  fold_left (headerStep (Some "Month Year") (orgEarnings org) (orgDeductions org) row) cats a
  = mkAcc (acc_earnings a ++ items_of cats items) (acc_deductions a)
          (acc_earningsTotal a) (acc_deductionsTotal a) (acc_netSalary a).
Proof.
  induction cats as [|c cats IH]; intros a H.
  - cbn. rewrite app_nil_r. now destruct a.
  - cbn [fold_left]. destruct (H c (or_introl eq_refl)) as [Hget Hcls].
    rewrite (headerStep_earning org row a c _ Hget Hcls).
    rewrite IH by (intros c' Hc'; apply H; now right).
    unfold items_of. cbn [flat_map].
    destruct (is_zero (find_amount items c)); cbn [push_earning acc_earnings acc_deductions
      acc_earningsTotal acc_deductionsTotal acc_netSalary app]; [reflexivity|].
    now rewrite <- app_assoc.
Qed.

Lemma fold_deduction_columns org row items cats : forall a,
  (forall c, In c cats ->
             row_get row c = Some (CNum (find_amount items c))
             /\ reads_back_as_deduction org c = true) ->
  fold_left (headerStep (Some "Month Year") (orgEarnings org) (orgDeductions org) row) cats a
  = mkAcc (acc_earnings a) (acc_deductions a ++ items_of cats items)
          (acc_earningsTotal a) (acc_deductionsTotal a) (acc_netSalary a).
Proof.
  induction cats as [|c cats IH]; intros a H.
  - cbn. rewrite app_nil_r. now destruct a.
  - cbn [fold_left]. destruct (H c (or_introl eq_refl)) as [Hget Hcls].
    rewrite (headerStep_deduction org row a c _ Hget Hcls).
    rewrite IH by (intros c' Hc'; apply H; now right).
    unfold items_of. cbn [flat_map].
    destruct (is_zero (find_amount items c)); cbn [push_deduction acc_earnings acc_deductions
      acc_earningsTotal acc_deductionsTotal acc_netSalary app]; [reflexivity|].
    now rewrite <- app_assoc.
Qed.

(** "Net Pay" is in no organization's lists and has no deduction keyword:
    the importer files it under earnings. *)
Lemma net_pay_is_read_as_earning org :
  list_includes "Net Pay" (orgEarnings org) = false
  /\ list_includes "Net Pay" (orgDeductions org) = false
  /\ isDeductionHeader "Net Pay" = false.
Proof.
  unfold orgEarnings, orgDeductions, org_categories, ORG_EARNINGS, ORG_DEDUCTIONS.
  cbn [find fst snd].
  destruct (String.eqb "TCS" org), (String.eqb "RBS" org), (String.eqb "CITI" org),
           (String.eqb "NATWEST" org); repeat split.
Qed.

Lemma row_get_combine (f : string -> cell) hs : forall h,
  In h hs -> row_get (combine hs (map f hs)) h = Some (f h).
Proof.
  induction hs as [|k hs IH]; intros h Hin; [contradiction|].
  cbn [map combine row_get]. destruct (String.eqb k h) eqn:E.
  - apply String.eqb_eq in E. now subst.
  - destruct Hin as [-> | Hin]; [now rewrite String.eqb_refl in E | now apply IH].
Qed.

Lemma keys_combine (f : string -> cell) hs : keys (combine hs (map f hs)) = hs.
Proof.
  unfold keys. induction hs as [|k hs IH]; cbn; [reflexivity | now rewrite IH].
Qed.

Section OneRow.

Variable Number_toString : number -> string.
Variables (org : string) (E D : list string) (r : Fetched) (name : string).

Hypothesis HE : forall c, In c E -> reads_back_as_earning org c = true.
Hypothesis HD : forall c, In c D -> reads_back_as_deduction org c = true.
Hypothesis Hname : month_name (f_month r) = Some name.
Hypothesis Hlabel : month_label name (f_year r) <> "".
Hypothesis Hparse :
  parseMonthYear (month_label name (f_year r)) = Some (ofZ (f_month r), ofZ (f_year r)).

Let label := month_label name (f_year r).
Let headers := export_headers E D.
Let cells := cell_of label E D r.
Let row : Row := combine headers (map cells headers).

Lemma E_not_special c : In c E -> special_header c = false.
Proof. intros H. eapply reads_back_as_earning_plain, HE, H. Qed.

Lemma D_not_special c : In c D -> special_header c = false.
Proof. intros H. eapply reads_back_as_deduction_plain, HD, H. Qed.

Lemma special_not_in_E c : special_header c = true -> list_includes c E = false.
Proof.
  intros H. apply list_includes_not_In. intros Hin.
  rewrite (E_not_special c Hin) in H. discriminate.
Qed.

Lemma special_not_in_D c : special_header c = true -> list_includes c D = false.
Proof.
  intros H. apply list_includes_not_In. intros Hin.
  rewrite (D_not_special c Hin) in H. discriminate.
Qed.

Lemma cells_E c : In c E -> cells c = CNum (find_amount (f_earnings r) c).
Proof.
  intros Hin. unfold cells, cell_of.
  destruct (special_header_false c (E_not_special c Hin)) as (-> & _).
  now rewrite (proj2 (list_includes_In c E) Hin).
Qed.

Lemma cells_D c : In c D -> cells c = CNum (find_amount (f_deductions r) c).
Proof.
  intros Hin. unfold cells, cell_of.
  destruct (special_header_false c (D_not_special c Hin)) as (-> & _).
  assert (HnE : list_includes c E = false).
  { apply list_includes_not_In. intros HinE.
    exact (reads_back_one_way org c (HE c HinE) (HD c Hin)). }
  now rewrite HnE, (proj2 (list_includes_In c D) Hin).
Qed.

Lemma cells_month_year : cells "Month Year" = CStr label.
Proof. reflexivity. Qed.

Lemma cells_totals :
  cells "Total Earnings" = CNum (or_zero (f_total_earnings r))
  /\ cells "Total Deductions" = CNum (or_zero (f_total_deductions r))
  /\ cells "Net Pay" = CNum (or_zero (f_net_salary r)).
Proof.
  unfold cells, cell_of. cbn [String.eqb Ascii.eqb Bool.eqb].
  rewrite !special_not_in_E, !special_not_in_D by reflexivity. auto.
Qed.

(** The exported row is the header row mapped through [cells]. *)
Lemma export_row_cells : export_row E D r = Some (map cells headers).
Proof.
  unfold export_row. rewrite Hname. f_equal.
  unfold headers, export_headers. cbn [map]. rewrite !map_app. cbn [map].
  rewrite (map_ext_in (fun cat => CNum (find_amount (f_earnings r) cat)) cells E)
    by (intros c Hc; now rewrite cells_E).
  rewrite (map_ext_in (fun cat => CNum (find_amount (f_deductions r) cat)) cells D)
    by (intros c Hc; now rewrite cells_D).
  destruct cells_totals as (-> & -> & ->). reflexivity.
Qed.

Lemma row_get_header h : In h headers -> row_get row h = Some (cells h).
Proof. apply row_get_combine. Qed.

Lemma in_headers_E c : In c E -> In c headers.
Proof. intros H. right. apply in_or_app. now left. Qed.

Lemma in_headers_D c : In c D -> In c headers.
Proof. intros H. right. apply in_or_app. right. apply in_or_app. now left. Qed.

(** The header loop over the exported row. *)
Lemma header_loop_on_exported_row :
  fold_left (headerStep (Some "Month Year") (orgEarnings org) (orgDeductions org) row)
            headers acc0
  = mkAcc (items_of E (f_earnings r) ++ net_pay_item r) (items_of D (f_deductions r))
          (or_zero (f_total_earnings r)) (or_zero (f_total_deductions r)) (ofZ 0).
Proof.
  unfold headers at 1, export_headers. cbn [fold_left].
  assert (H0 : headerStep (Some "Month Year") (orgEarnings org) (orgDeductions org)
                 row acc0 "Month Year" = acc0).
  { unfold headerStep. destruct (numVal (row_get row "Month Year")); reflexivity. }
  rewrite H0, !fold_left_app.
  rewrite (fold_earning_columns org row (f_earnings r) E)
    by (intros c Hc; split;
        [rewrite row_get_header by (apply in_headers_E; exact Hc);
         rewrite cells_E by exact Hc; reflexivity
        | apply HE; exact Hc]).
  rewrite (fold_deduction_columns org row (f_deductions r) D)
    by (intros c Hc; split;
        [rewrite row_get_header by (apply in_headers_D; exact Hc);
         rewrite cells_D by exact Hc; reflexivity
        | apply HD; exact Hc]).
  cbn [fold_left acc0 acc_earnings acc_deductions acc_earningsTotal acc_deductionsTotal
       acc_netSalary app].
  assert (Hin : forall h, In h ["Total Earnings"; "Total Deductions"; "Net Pay"] ->
                          In h headers).
  { intros h Hh. right. apply in_or_app. right. apply in_or_app. now right. }
  unfold headerStep.
  rewrite !row_get_header by (apply Hin; cbn; auto).
  destruct cells_totals as (-> & -> & ->).
  cbn [numVal String.eqb Ascii.eqb Bool.eqb TOTAL_EARNINGS_HEADER TOTAL_DEDUCTIONS_HEADER
       NET_SALARY_HEADER reserved orb acc_earnings acc_deductions acc_earningsTotal
       acc_deductionsTotal acc_netSalary].
  unfold net_pay_item.
  destruct (is_zero (or_zero (f_net_salary r))); [now rewrite app_nil_r|].
  destruct (net_pay_is_read_as_earning org) as (-> & -> & ->). reflexivity.
Qed.

(** The exported row of [r] is read back as [reimported org E D r]. *)
Lemma exported_row_read_back i :
  parseRow Number_toString org headers (Some "Month Year") i row
  = inr (reimported org E D r).
Proof.
  unfold parseRow.
  assert (Hmy : row_get row "Month Year" = Some (CStr label)).
  { rewrite row_get_header by now left. reflexivity. }
  rewrite Hmy. cbn [falsy String_of_cell].
  replace (String.eqb label "") with false
    by (symmetry; apply String.eqb_neq; exact Hlabel).
  unfold label at 1. rewrite Hparse, header_loop_on_exported_row. reflexivity.
Qed.

End OneRow.

End RowRoundTrip.

(** *** Sorting and grouping *)

Module Grouping.
Import Exporter.

Lemma insert_sorted_perm {A} (leb : A -> A -> bool) x l :
  Permutation (insert_sorted leb x l) (x :: l).
Proof.
  induction l as [|y l IH]; cbn; [reflexivity|].
  destruct (leb x y); [reflexivity|].
  rewrite IH. apply perm_swap.
Qed.

Lemma sort_perm {A} (leb : A -> A -> bool) l : Permutation (sort leb l) l.
Proof.
  induction l as [|x l IH]; cbn; [reflexivity|].
  rewrite insert_sorted_perm. now constructor.
Qed.

Lemma sort_In {A} (leb : A -> A -> bool) l x : In x (sort leb l) <-> In x l.
Proof.
  split; apply Permutation_in; [apply sort_perm | symmetry; apply sort_perm].
Qed.

Lemma sort_nonempty {A} (leb : A -> A -> bool) l : l <> [] -> sort leb l <> [].
Proof.
  intros H Hs. apply H. apply Permutation_nil. rewrite <- Hs. apply sort_perm.
Qed.

Lemma set_add_In s x c : In c (Executor.set_add s x) <-> In c s \/ c = x.
Proof.
  unfold Executor.set_add. destruct (list_includes x s) eqn:E.
  - apply RowRoundTrip.list_includes_In in E. split; [auto|]. intros [H | ->]; auto.
  - rewrite in_app_iff. cbn. intuition.
Qed.

Lemma set_add_NoDup s x : NoDup s -> NoDup (Executor.set_add s x).
Proof.
  unfold Executor.set_add. intros H. destruct (list_includes x s) eqn:E; [exact H|].
  apply RowRoundTrip.list_includes_not_In in E.
  apply NoDup_app; [exact H | repeat constructor; auto | ].
  intros a Ha [<- | []]. contradiction.
Qed.

(** The two loops of [add_record] over a record's line items. *)
Lemma add_earnings_spec l : forall o,
  let o' := fold_left (fun o e =>
                 mkOrgData (od_records o) (Executor.set_add (earningCategories o) (category e))
                   (deductionCategories o)
                   (count_set (earningCounts o) (category e)
                      (count_get (earningCounts o) (category e) + 1))
                   (deductionCounts o)) l o in
  od_records o' = od_records o
  /\ deductionCategories o' = deductionCategories o
  /\ (forall c, In c (earningCategories o')
                <-> In c (earningCategories o) \/ In c (map category l))
  /\ (NoDup (earningCategories o) -> NoDup (earningCategories o')).
Proof.
  induction l as [|e l IH]; intros o; cbn [fold_left map].
  - cbn. intuition.
  - destruct (IH (mkOrgData (od_records o) (Executor.set_add (earningCategories o) (category e))
                    (deductionCategories o)
                    (count_set (earningCounts o) (category e)
                       (count_get (earningCounts o) (category e) + 1))
                    (deductionCounts o))) as (H1 & H2 & H3 & H4).
    cbn [od_records deductionCategories earningCategories] in *.
    split; [exact H1|]. split; [exact H2|]. split.
    + intros c. rewrite H3, set_add_In. cbn [In]. intuition.
    + intros Hnd. apply H4, set_add_NoDup, Hnd.
Qed.

Lemma add_deductions_spec l : forall o,
  let o' := fold_left (fun o e =>
                 mkOrgData (od_records o) (earningCategories o)
                   (Executor.set_add (deductionCategories o) (category e))
                   (earningCounts o)
                   (count_set (deductionCounts o) (category e)
                      (count_get (deductionCounts o) (category e) + 1))) l o in
  od_records o' = od_records o
  /\ earningCategories o' = earningCategories o
  /\ (forall c, In c (deductionCategories o')
                <-> In c (deductionCategories o) \/ In c (map category l))
  /\ (NoDup (deductionCategories o) -> NoDup (deductionCategories o')).
Proof.
  induction l as [|e l IH]; intros o; cbn [fold_left map].
  - cbn. intuition.
  - destruct (IH (mkOrgData (od_records o) (earningCategories o)
                    (Executor.set_add (deductionCategories o) (category e))
                    (earningCounts o)
                    (count_set (deductionCounts o) (category e)
                       (count_get (deductionCounts o) (category e) + 1))))
      as (H1 & H2 & H3 & H4).
    cbn [od_records deductionCategories earningCategories] in *.
    split; [exact H1|]. split; [exact H2|]. split.
    + intros c. rewrite H3, set_add_In. cbn [In]. intuition.
    + intros Hnd. apply H4, set_add_NoDup, Hnd.
Qed.

Lemma add_record_spec od r :
  od_records (add_record od r) = od_records od ++ [r]
  /\ (forall c, In c (earningCategories (add_record od r))
                <-> In c (earningCategories od) \/ In c (map category (f_earnings r)))
  /\ (forall c, In c (deductionCategories (add_record od r))
                <-> In c (deductionCategories od) \/ In c (map category (f_deductions r)))
  /\ (NoDup (earningCategories od) -> NoDup (earningCategories (add_record od r)))
  /\ (NoDup (deductionCategories od) -> NoDup (deductionCategories (add_record od r))).
Proof.
  unfold add_record.
  set (od1 := mkOrgData (od_records od ++ [r]) (earningCategories od)
                (deductionCategories od) (earningCounts od) (deductionCounts od)).
  destruct (add_earnings_spec (f_earnings r) od1) as (A1 & A2 & A3 & A4).
  set (od2 := fold_left _ (f_earnings r) od1) in *.
  destruct (add_deductions_spec (f_deductions r) od2) as (B1 & B2 & B3 & B4).
  set (od3 := fold_left _ (f_deductions r) od2) in *.
  cbv zeta in *. fold od2 in A1, A2, A3, A4. fold od3 in B1, B2, B3, B4 |- *.
  rewrite B1, A1, B2. split; [reflexivity|]. split; [exact A3|]. split.
  - intros c. rewrite B3, A2. reflexivity.
  - split; [exact A4|]. intros H. apply B4. now rewrite A2.
Qed.

Lemma group_ok_add k od r :
  exportable r = true -> f_organization r = Some k ->
  (od = orgData0 \/ group_ok (k, od)) ->
  group_ok (k, add_record od r).
Proof.
  intros Hexp Horg Hod.
  destruct (add_record_spec od r) as (R & HE & HD & NE & ND).
  assert (Hcases :
    Forall (fun r => exportable r = true /\ f_organization r = Some k) (od_records od)
    /\ (forall c, In c (earningCategories od)
                  <-> exists r e, In r (od_records od) /\ In e (f_earnings r) /\ category e = c)
    /\ (forall c, In c (deductionCategories od)
                  <-> exists r e, In r (od_records od) /\ In e (f_deductions r) /\ category e = c)
    /\ NoDup (earningCategories od) /\ NoDup (deductionCategories od)).
  { destruct Hod as [-> | (_ & H1 & H2 & H3 & H4 & H5)]; [|auto].
    cbn. repeat split; try constructor; try contradiction;
      intros (r0 & e & [] & _). }
  destruct Hcases as (F & CE & CD & N1 & N2).
  unfold group_ok. cbn [fst snd]. rewrite R.
  split; [now destruct (od_records od)|].
  split; [apply Forall_app; split; [exact F | repeat constructor; auto]|].
  split; [|split; [|split; [now apply NE | now apply ND]]].
  - intros c. rewrite HE, CE, in_map_iff. split.
    + intros [(r0 & e & Hr & He & Hc) | (e & Hc & He)].
      * exists r0, e. rewrite in_app_iff. auto.
      * exists r, e. rewrite in_app_iff. cbn. auto.
    + intros (r0 & e & Hr & He & Hc). apply in_app_iff in Hr as [Hr | [<- | []]].
      * left. eauto.
      * right. eauto.
  - intros c. rewrite HD, CD, in_map_iff. split.
    + intros [(r0 & e & Hr & He & Hc) | (e & Hc & He)].
      * exists r0, e. rewrite in_app_iff. auto.
      * exists r, e. rewrite in_app_iff. cbn. auto.
    + intros (r0 & e & Hr & He & Hc). apply in_app_iff in Hr as [Hr | [<- | []]].
      * left. eauto.
      * right. eauto.
Qed.

Lemma orgMap_update_keys m k r :
  map fst (orgMap_update m k r)
  = if list_includes k (map fst m) then map fst m else map fst m ++ [k].
Proof.
  induction m as [|[k' od] m IH]; [reflexivity|].
  cbn [orgMap_update]. unfold list_includes. cbn [map fst existsb].
  rewrite (String.eqb_sym k k').
  destruct (String.eqb k' k) eqn:E; [reflexivity|].
  cbn [map fst orb]. rewrite IH. unfold list_includes. now destruct (existsb _ _).
Qed.

Lemma orgMap_update_NoDup m k r : NoDup (map fst m) -> NoDup (map fst (orgMap_update m k r)).
Proof.
  intros H. rewrite orgMap_update_keys. destruct (list_includes k (map fst m)) eqn:E; [exact H|].
  apply RowRoundTrip.list_includes_not_In in E.
  apply NoDup_app; [exact H | repeat constructor; auto |].
  intros a Ha [<- | []]. contradiction.
Qed.

Lemma orgMap_update_records m k r :
  Permutation (flat_map (fun g => od_records (snd g)) (orgMap_update m k r))
              (flat_map (fun g => od_records (snd g)) m ++ [r]).
Proof.
  induction m as [|[k' od] m IH]; cbn [orgMap_update flat_map snd].
  - destruct (add_record_spec orgData0 r) as (-> & _). reflexivity.
  - destruct (String.eqb k' k); cbn [flat_map snd].
    + destruct (add_record_spec od r) as (-> & _).
      rewrite <- !app_assoc. apply Permutation_app_head, Permutation_app_comm.
    + rewrite IH. now rewrite app_assoc.
Qed.

Lemma orgMap_update_ok m k r :
  exportable r = true -> f_organization r = Some k ->
  Forall group_ok m -> Forall group_ok (orgMap_update m k r).
Proof.
  intros Hexp Horg. induction m as [|[k' od] m IH]; intros H; cbn [orgMap_update].
  - constructor; [|constructor]. apply group_ok_add; auto.
  - inversion H as [|? ? Hg Hm]; subst.
    destruct (String.eqb k' k) eqn:E.
    + apply String.eqb_eq in E as ->. constructor; [|exact Hm].
      apply group_ok_add; auto.
    + constructor; [exact Hg | apply IH, Hm].
Qed.

(** For an exportable record, the export's group key is its
    organization. *)
Lemma org_key_exportable r :
  exportable r = true -> f_organization r = Some (org_key r).
Proof.
  unfold exportable, org_key. destruct (f_organization r) as [o|]; [|discriminate].
  intros H. do 9 (apply andb_true_iff in H as [H _]).
  unfold stable_org in H. apply andb_true_iff in H as [H _].
  apply andb_true_iff in H as [Hn He]. apply negb_true_iff in He.
  cbn [org_or_default]. rewrite He. apply String.eqb_eq in Hn. now rewrite Hn.
Qed.

Lemma build_orgMap_spec recs : forall m,
  forallb exportable recs = true ->
  Forall group_ok m -> NoDup (map fst m) ->
  let m' := fold_left (fun m record => orgMap_update m (org_key record) record) recs m in
  Forall group_ok m' /\ NoDup (map fst m')
  /\ Permutation (flat_map (fun g => od_records (snd g)) m')
                 (flat_map (fun g => od_records (snd g)) m ++ recs).
Proof.
  induction recs as [|r recs IH]; intros m Hexp Hok Hnd; cbn [fold_left].
  - rewrite app_nil_r. auto.
  - cbn [forallb] in Hexp. apply andb_true_iff in Hexp as [Hr Hrecs].
    destruct (IH (orgMap_update m (org_key r) r) Hrecs) as (H1 & H2 & H3).
    + apply orgMap_update_ok; auto using org_key_exportable.
    + now apply orgMap_update_NoDup.
    + split; [exact H1|]. split; [exact H2|].
      rewrite H3, orgMap_update_records, <- app_assoc. reflexivity.
Qed.

End Grouping.

(** *** One exported sheet read back *)

Section SheetRoundTrip.
Import Exporter.

Variable Number_toString : number -> string.

Lemma exportable_facts r :
  exportable r = true ->
  exists o, f_organization r = Some o
            /\ stable_org o = true
            /\ (1 <= f_month r <= 12)%Z
            /\ isNaN (f_total_earnings r) = false
            /\ isNaN (f_total_deductions r) = false
            /\ (forall e, In e (f_earnings r) -> reads_back_as_earning o (category e) = true)
            /\ (forall e, In e (f_deductions r) -> reads_back_as_deduction o (category e) = true).
Proof.
  unfold exportable. destruct (f_organization r) as [o|]; [|discriminate].
  intros H. do 3 (apply andb_true_iff in H as [H _]).
  do 6 (apply andb_true_iff in H as [H ?]).
  exists o. repeat split; auto; try lia;
    try (now apply negb_true_iff);
    match goal with
    | Hall : forallb _ ?l = true |- forall e, In e ?l -> _ =>
        intros e He; rewrite forallb_forall in Hall; now apply Hall
    end.
Qed.

Section OneGroup.

Variable g : string * OrgExportData.
Hypothesis Hok : group_ok g.

Let k := fst g.
Let E := sorted_earnings (snd g).
Let D := sorted_deductions (snd g).
Let headers := export_headers E D.

Lemma group_record r :
  In r (od_records (snd g)) -> exportable r = true /\ f_organization r = Some k.
Proof.
  destruct Hok as (_ & F & _). rewrite Forall_forall in F. apply F.
Qed.

Lemma group_sorted_record r :
  In r (sorted_records (snd g)) -> exportable r = true /\ f_organization r = Some k.
Proof. intros H. apply group_record. now apply Grouping.sort_In in H. Qed.

Lemma group_earning_column c : In c E -> reads_back_as_earning k c = true.
Proof.
  intros H. apply Grouping.sort_In in H.
  destruct Hok as (_ & _ & CE & _). apply CE in H as (r & e & Hr & He & <-).
  destruct (group_record r Hr) as [Hexp Horg].
  destruct (exportable_facts r Hexp) as (o & Ho & _ & _ & _ & _ & HE & _).
  rewrite Horg in Ho. injection Ho as <-. now apply HE.
Qed.

Lemma group_deduction_column c : In c D -> reads_back_as_deduction k c = true.
Proof.
  intros H. apply Grouping.sort_In in H.
  destruct Hok as (_ & _ & _ & CD & _). apply CD in H as (r & e & Hr & He & <-).
  destruct (group_record r Hr) as [Hexp Horg].
  destruct (exportable_facts r Hexp) as (o & Ho & _ & _ & _ & _ & _ & HD).
  rewrite Horg in Ho. injection Ho as <-. now apply HD.
Qed.

Lemma group_row r :
  In r (sorted_records (snd g)) ->
  export_row E D r = Some (row_cells E D r)
  /\ forall i, parseRow Number_toString k headers (Some "Month Year") i
                        (combine headers (row_cells E D r))
               = inr (reimported k E D r).
Proof.
  intros Hr. destruct (group_sorted_record r Hr) as [Hexp _].
  destruct (exportable_facts r Hexp) as (_ & _ & _ & Hm & _).
  destruct (LabelText.month_label_parses (f_month r) (f_year r) Hm)
    as (name & Hname & Hlabel & Hparse).
  unfold row_cells, label_of. rewrite Hname. split.
  - apply (RowRoundTrip.export_row_cells k E D r name);
      auto using group_earning_column, group_deduction_column.
  - intros i.
    apply (RowRoundTrip.exported_row_read_back Number_toString k E D r name);
      auto using group_earning_column, group_deduction_column.
Qed.

Lemma sequence_map {A B} (f : A -> option B) (h : A -> B) l :
  (forall x, In x l -> f x = Some (h x)) -> sequence (map f l) = Some (map h l).
Proof.
  induction l as [|x l IH]; intros H; [reflexivity|].
  cbn [map sequence]. rewrite (H x (or_introl eq_refl)), IH; [reflexivity|].
  intros y Hy. apply H. now right.
Qed.

(** With the default options the export writes [group_sheet g]. *)
Lemma export_sheet_group : export_sheet defaults (snd g) = Some (group_sheet g).
Proof.
  unfold export_sheet, defaults. cbn [includeRareEarningCategories includeRareDeductionCategories].
  fold (sorted_earnings (snd g)) (sorted_deductions (snd g)) (sorted_records (snd g)).
  fold E D. rewrite (sequence_map _ (row_cells E D)); [reflexivity|].
  intros r Hr. now apply group_row.
Qed.

Lemma rowLoop_all_parsed org hs myh (mk : Fetched -> Row) (h : Fetched -> ParsedRecord) rs :
  (forall r i, In r rs -> parseRow Number_toString org hs myh i (mk r) = inr (h r)) ->
  forall i acc,
    rowLoop Number_toString org hs myh i (map mk rs) acc
    = mkResult (records acc ++ map h rs) (skippedRows acc) (sheetInvalid acc).
Proof.
  induction rs as [|r rs IH]; intros H i acc; cbn [map rowLoop].
  - rewrite app_nil_r. now destruct acc.
  - unfold rowStep. rewrite (H r i (or_introl eq_refl)).
    rewrite IH by (intros r' i' Hr'; apply H; now right).
    cbn. now rewrite <- app_assoc.
Qed.

Lemma month_year_is_first cats :
  find_monthYearHeader ("Month Year" :: cats) = Some "Month Year".
Proof. reflexivity. Qed.

(** The import reads [group_sheet g] back as [group_reimported g], with
    no row skipped. *)
Lemma processSheet_group :
  processSheet Number_toString (sheet_to_json (group_sheet g)) k
  = mkResult (group_reimported g) 0 [].
Proof.
  unfold sheet_to_json, group_sheet, group_reimported. cbn [fst snd].
  fold E D headers k. rewrite map_map.
  set (mk := fun x => combine headers (row_cells E D x)).
  rewrite processSheet_rowLoop.
  assert (Hhs : sheetHeaders (map mk (sorted_records (snd g))) = headers
                /\ monthYearKey (map mk (sorted_records (snd g))) = Some "Month Year").
  { destruct (sorted_records (snd g)) as [|r0 rs] eqn:Hrs.
    - exfalso. destruct Hok as (Hne & _).
      exact (Grouping.sort_nonempty by_year_month _ Hne Hrs).
    - cbn [map sheetHeaders monthYearKey]. unfold mk at 1 2.
      unfold row_cells. rewrite RowRoundTrip.keys_combine. split; reflexivity. }
  destruct Hhs as [-> ->].
  rewrite (rowLoop_all_parsed k headers (Some "Month Year") mk (reimported k E D)).
  - reflexivity.
  - intros r i Hr. now apply group_row.
Qed.

Lemma group_stable : stable_org k = true.
Proof.
  destruct Hok as (Hne & _).
  destruct (od_records (snd g)) as [|r rs] eqn:Hrs; [contradiction|].
  destruct (group_record r) as [Hexp Horg]; [rewrite Hrs; now left|].
  destruct (exportable_facts r Hexp) as (o & Ho & Hst & _).
  rewrite Horg in Ho. injection Ho as <-. exact Hst.
Qed.

Lemma substring_all s : forall n, String.length s <= n -> substring 0 n s = s.
Proof.
  induction s as [|c s IH]; intros [|n] H; cbn in *; try reflexivity; try lia.
  now rewrite IH by lia.
Qed.

Lemma group_sheet_name : safeSheetName k = k.
Proof.
  pose proof group_stable as H. unfold stable_org in H.
  apply andb_true_iff in H as [H Hlen]. apply andb_true_iff in H as [_ Hne].
  apply negb_true_iff in Hne. apply Nat.leb_le in Hlen.
  unfold safeSheetName. now rewrite substring_all, Hne.
Qed.

(** The codec accepts the group's name for a sheet. *)
Lemma group_name_accepted :
  (31 <? String.length k)%nat || existsb (fun c => includes c k) bad_sheet_chars = false.
Proof.
  pose proof group_stable as H. unfold stable_org in H.
  apply andb_true_iff in H as [_ Hlen]. apply Nat.leb_le in Hlen.
  destruct Hok as (Hne & _).
  destruct (od_records (snd g)) as [|r rs] eqn:Hrs; [contradiction|].
  destruct (group_record r) as [Hexp Horg]; [rewrite Hrs; now left|].
  unfold exportable in Hexp. rewrite Horg in Hexp.
  apply andb_true_iff in Hexp as [Hexp _].
  apply andb_true_iff in Hexp as [_ Hname]. unfold sheet_name_ok in Hname.
  do 3 (apply andb_true_iff in Hname as [Hname _]).
  apply andb_true_iff in Hname as [_ Hbad]. apply negb_true_iff in Hbad.
  rewrite Hbad, orb_false_r. apply Nat.ltb_ge. exact Hlen.
Qed.

End OneGroup.

End SheetRoundTrip.

(** *** The whole workbook *)

Section WorkbookRoundTrip.
Import Exporter.

Variable Number_toString : number -> string.

Lemma find_amount_absent l c : ~ In c (map category l) -> find_amount l c = ofZ 0.
Proof.
  unfold find_amount. intros H.
  destruct (find (fun e => String.eqb (category e) c) l) as [e|] eqn:E; [|reflexivity].
  apply find_some in E as [Hin Heq]. apply String.eqb_eq in Heq.
  exfalso. apply H. apply in_map_iff. now exists e.
Qed.

Lemma find_amount_cons e l c :
  find_amount (e :: l) c = if String.eqb (category e) c then amount e else find_amount l c.
Proof. unfold find_amount. cbn [find]. now destruct (String.eqb (category e) c). Qed.

Lemma find_amount_items_of cats l c :
  find_amount (items_of cats l) c
  = if list_includes c cats then find_amount l c else ofZ 0.
Proof.
  induction cats as [|c' cats IH]; [reflexivity|].
  unfold items_of, list_includes in *. cbn [flat_map existsb].
  destruct (String.eqb c c') eqn:E.
  - apply String.eqb_eq in E as <-. cbn [orb].
    destruct (is_zero (find_amount l c)) eqn:Hz; cbn [app].
    + rewrite IH. apply RowRoundTrip.is_zero_eq in Hz. rewrite Hz.
      now destruct (existsb _ _).
    + rewrite find_amount_cons. cbn [category amount]. now rewrite String.eqb_refl.
  - cbn [orb]. destruct (is_zero (find_amount l c')); cbn [app]; [exact IH|].
    rewrite find_amount_cons. cbn [category amount].
    rewrite String.eqb_sym, E. exact IH.
Qed.

Lemma find_amount_app_net_pay l r c :
  c <> "Net Pay" -> find_amount (l ++ net_pay_item r) c = find_amount l c.
Proof.
  intros Hc. induction l as [|e l IH]; cbn [app].
  - unfold net_pay_item. destruct (is_zero _); [reflexivity|].
    rewrite find_amount_cons. cbn [category].
    destruct (String.eqb "Net Pay" c) eqn:E; [|reflexivity].
    apply String.eqb_eq in E. congruence.
  - rewrite !find_amount_cons, IH. reflexivity.
Qed.

Lemma find_amount_read_back cats l c :
  (forall e, In e l -> In (category e) cats) ->
  find_amount (items_of cats l) c = find_amount l c.
Proof.
  intros H. rewrite find_amount_items_of.
  destruct (list_includes c cats) eqn:E; [reflexivity|].
  symmetry. apply find_amount_absent. intros Hin.
  apply in_map_iff in Hin as (e & <- & He).
  apply RowRoundTrip.list_includes_not_In in E. apply E, H, He.
Qed.

(** Each record of a group and the record read back for it carry the
    same payslip. *)
Lemma group_same_payslip g r :
  group_ok g -> In r (sorted_records (snd g)) ->
  same_payslip r (reimported (fst g) (sorted_earnings (snd g)) (sorted_deductions (snd g)) r).
Proof.
  intros Hok Hr. destruct (group_sorted_record g Hok r Hr) as [Hexp Horg].
  destruct (exportable_facts r Hexp) as (_ & _ & _ & _ & Hte & Htd & _).
  apply Grouping.sort_In in Hr. destruct Hok as (_ & _ & CE & CD & _).
  unfold same_payslip, reimported.
  cbn [organization month year totalEarnings totalDeductions earnings deductions].
  rewrite !RowRoundTrip.or_zero_same by assumption.
  do 5 (split; [first [exact Horg | reflexivity]|]). split.
  - intros c Hc. rewrite find_amount_app_net_pay by exact Hc.
    apply find_amount_read_back. intros e He.
    apply Grouping.sort_In, CE. eauto.
  - intros c. apply find_amount_read_back. intros e He.
    apply Grouping.sort_In, CD. eauto.
Qed.

(** The header row of a group has no repeated name. *)
Lemma group_headers_distinct g :
  group_ok g -> NoDup (fst (group_sheet g)).
Proof.
  intros Hok. unfold group_sheet, export_headers. cbn [fst].
  pose proof (group_earning_column g Hok) as HE.
  pose proof (group_deduction_column g Hok) as HD.
  assert (SE : forall c, In c (sorted_earnings (snd g)) -> special_header c = false).
  { intros c H. eapply RowRoundTrip.reads_back_as_earning_plain, HE, H. }
  assert (SD : forall c, In c (sorted_deductions (snd g)) -> special_header c = false).
  { intros c H. eapply RowRoundTrip.reads_back_as_deduction_plain, HD, H. }
  assert (ST : forall c, In c ["Total Earnings"; "Total Deductions"; "Net Pay"] ->
                         special_header c = true).
  { intros c [<- | [<- | [<- | []]]]; reflexivity. }
  destruct Hok as (_ & _ & _ & _ & NE & ND).
  constructor.
  - intros H. apply in_app_iff in H as [H | H]; [now apply SE in H|].
    apply in_app_iff in H as [H | H]; [now apply SD in H|].
    cbn in H. intuition discriminate.
  - apply NoDup_app.
    + eapply Permutation_NoDup; [symmetry; apply Grouping.sort_perm | exact NE].
    + apply NoDup_app.
      * eapply Permutation_NoDup; [symmetry; apply Grouping.sort_perm | exact ND].
      * repeat constructor; cbn; intuition discriminate.
      * intros c Hc Ht. apply SD in Hc. apply ST in Ht. congruence.
    + intros c Hc H. apply in_app_iff in H as [H | H].
      * exact (RowRoundTrip.reads_back_one_way _ _ (HE c Hc) (HD c H)).
      * apply SE in Hc. apply ST in H. congruence.
Qed.

Lemma append_groups groups : forall acc,
  Forall group_ok groups ->
  NoDup (map fst acc ++ map fst groups) ->
  fold_left (fun wb entry =>
               match wb with
               | None => None
               | Some b =>
                   match export_sheet defaults (snd entry) with
                   | Some ws => book_append_sheet b ws (safeSheetName (fst entry))
                   | None => None
                   end
               end) groups (Some acc)
  = Some (acc ++ map (fun g => (fst g, group_sheet g)) groups).
Proof.
  induction groups as [|g groups IH]; intros acc Hok Hnd; cbn [fold_left map].
  - now rewrite app_nil_r.
  - inversion Hok as [|? ? Hg Hgs]; subst.
    rewrite (export_sheet_group Number_toString g Hg), (group_sheet_name g Hg).
    assert (Hfresh : existsb (fun s : string * Aoa => String.eqb (fst s) (fst g)) acc = false).
    { cbn [map] in Hnd. apply NoDup_remove_2 in Hnd.
      destruct (existsb _ acc) eqn:E; [|reflexivity].
      apply existsb_exists in E as (s & Hs & Heq). apply String.eqb_eq in Heq.
      exfalso. apply Hnd. apply in_or_app. left. apply in_map_iff. now exists s. }
    assert (Happ : book_append_sheet acc (group_sheet g) (fst g)
                   = Some (acc ++ [(fst g, group_sheet g)])).
    { unfold book_append_sheet. now rewrite (group_name_accepted g Hg), Hfresh. }
    rewrite Happ.
    rewrite IH; [now rewrite <- app_assoc | exact Hgs |].
    rewrite map_app, <- app_assoc. exact Hnd.
Qed.

Lemma exportToExcel_groups recs :
  recs <> [] -> forallb exportable recs = true ->
  exportToExcel defaults recs
  = Some (map (fun g => (fst g, group_sheet g)) (build_orgMap recs))
  /\ Forall group_ok (build_orgMap recs)
  /\ Permutation (flat_map (fun g => od_records (snd g)) (build_orgMap recs)) recs.
Proof.
  intros Hne Hexp.
  destruct (Grouping.build_orgMap_spec recs [] Hexp (Forall_nil _) (NoDup_nil _))
    as (Hok & Hnd & Hperm).
  change (fold_left (fun m record => orgMap_update m (org_key record) record) recs [])
    with (build_orgMap recs) in *.
  split; [|split; [exact Hok | exact Hperm]].
  unfold exportToExcel. destruct recs as [|r recs]; [contradiction|].
  change (filter_years defaults (r :: recs)) with (r :: recs).
  now apply (append_groups _ []).
Qed.

Lemma filter_all {A} (p : A -> bool) l : (forall x, In x l -> p x = true) -> filter p l = l.
Proof.
  induction l as [|x l IH]; intros H; [reflexivity|].
  cbn [filter]. rewrite (H x (or_introl eq_refl)), IH; [reflexivity|].
  intros y Hy. apply H. now right.
Qed.

Lemma Forall2_flat_map {A B C} (R : B -> C -> Prop) (f : A -> list B) (h : A -> list C) l :
  (forall x, In x l -> Forall2 R (f x) (h x)) ->
  Forall2 R (flat_map f l) (flat_map h l).
Proof.
  induction l as [|x l IH]; intros H; cbn [flat_map]; [constructor|].
  apply Forall2_app; [apply H; now left | apply IH; intros y Hy; apply H; now right].
Qed.

Lemma Forall2_map_right {A B} (R : A -> B -> Prop) (h : A -> B) l :
  (forall x, In x l -> R x (h x)) -> Forall2 R l (map h l).
Proof.
  induction l as [|x l IH]; intros H; cbn [map]; constructor.
  - apply H. now left.
  - apply IH. intros y Hy. apply H. now right.
Qed.

(** The plan built from the sheets of the groups. *)
Lemma plan_of_groups groups :
  Forall group_ok groups ->
  let plan := buildPlan Number_toString
                (read_back (map (fun g => (fst g, group_sheet g)) groups)) in
  flat_map sp_records (sheets plan) = flat_map group_reimported groups
  /\ invalidRows plan = []
  /\ totalSkippedRows plan = 0
  /\ totalRecordsToImport plan = List.length (flat_map group_reimported groups).
Proof.
  intros Hok plan. unfold plan, buildPlan. rewrite buildPlan_fold. clear plan.
  cbn [sheets invalidRows totalSkippedRows totalRecordsToImport plan0 app Nat.add].
  assert (Hres : sheetResults Number_toString
                   (read_back (map (fun g => (fst g, group_sheet g)) groups))
                 = map (fun g => (fst g, mkResult (group_reimported g) 0 [])) groups).
  { unfold sheetResults, read_back. rewrite !map_map. cbn [fst snd].
    apply map_ext_in. intros g Hg. rewrite Forall_forall in Hok.
    now rewrite (processSheet_group Number_toString g (Hok g Hg)). }
  rewrite Hres.
  rewrite filter_all.
  2:{ intros res Hin. apply in_map_iff in Hin as (g & <- & Hg).
      rewrite Forall_forall in Hok. destruct (Hok g Hg) as (Hne & _).
      unfold kept, group_reimported. cbn [snd records sheetInvalid List.length].
      rewrite length_map, andb_true_r. apply negb_true_iff, Nat.eqb_neq.
      intros Hlen. apply length_zero_iff_nil in Hlen.
      exact (Grouping.sort_nonempty by_year_month _ Hne Hlen). }
  rewrite !map_map. cbn [snd fst records skippedRows sheetInvalid toSheetPlan].
  clear Hres Hok. unfold list_sum. repeat split.
  - induction groups as [|g groups IH]; [reflexivity|].
    cbn [map flat_map sp_records toSheetPlan fst snd records]. now rewrite IH.
  - induction groups as [|g groups IH]; [reflexivity|].
    cbn [map List.concat app]. exact IH.
  - induction groups as [|g groups IH]; [reflexivity|].
    cbn [map fold_right Nat.add]. exact IH.
  - induction groups as [|g groups IH]; [reflexivity|].
    cbn [map fold_right flat_map]. now rewrite IH, length_app.
Qed.

(** ** C2 *)


End WorkbookRoundTrip.

(** ** The statements at sample inputs *)

(** C7 (defect).  The row number of a diagnostic is the row's position
    among the row objects the codec returns, plus 2, and the Month/Year
    column is looked up among the keys of the first row object.  In a
    sheet whose row 3 is blank, the row with a blank Month/Year cell at
    spreadsheet row 4 is reported as row 3; and a first data row with a
    blank Month/Year cell is reported as "Invalid Month/Year format"
    with the text of its first filled cell, not as "Missing Month/Year
    value". *)
Theorem row_number_counts_non_blank_rows_only :
  nth_error (snd grid_with_blank_row) 2 = Some [None; Some (CNum (ofZ 80000))]
  /\ sheetInvalid (processSheet no_digits (read_grid grid_with_blank_row) "ACME")
     = [mkInvalid "ACME" 3 "Missing Month/Year value"]
  /\ skippedRows (processSheet no_digits (read_grid grid_with_blank_row) "ACME") = 1
  /\ processSheet no_digits (read_grid grid_first_row_without_month) "ACME"
     = mkResult [] 1 [mkInvalid "ACME" 2 "Invalid Month/Year format: Asha"].
Proof. repeat split; reflexivity. Qed.

Lemma missing_month_year_row_is_skipped_witness :
  nth_error sample_sheet 1 = Some row_blank
  /\ monthYearCell sample_sheet row_blank = Some (CStr "")
  /\ In (mkInvalid "TCS" 3 "Missing Month/Year value")
        (sheetInvalid (processSheet no_digits sample_sheet "TCS")).
Proof.
  split; [reflexivity|]. split; [reflexivity|].
  apply (missing_month_year_row_is_skipped no_digits sample_sheet "TCS" 1 row_blank);
    [reflexivity | right; reflexivity].
Defined.

Lemma zero_or_uncoercible_cell_witness :
  parseRow no_digits "TCS" sample_headers (Some "Month Year") 2 row_feb = inr record_feb
  /\ no_amount (row_get row_feb "Basic Salary")
  /\ no_amount (row_get row_feb "Conveyance Taxable")
  /\ ~ In "Basic Salary" (map category (earnings record_feb))
  /\ ~ In "Conveyance Taxable" (map category (earnings record_feb)).
Proof.
  assert (H : parseRow no_digits "TCS" sample_headers (Some "Month Year") 2 row_feb
              = inr record_feb) by reflexivity.
  assert (Hzero : no_amount (row_get row_feb "Basic Salary")).
  { right. exists (ofZ 0). split; reflexivity. }
  assert (Hna : no_amount (row_get row_feb "Conveyance Taxable")).
  { left. reflexivity. }
  destruct (zero_or_uncoercible_cell_gives_no_line_item no_digits _ _ _ _ _ _ H) as [Hcat _].
  split; [exact H|]. split; [exact Hzero|]. split; [exact Hna|].
  split; [apply (Hcat _ Hzero) | apply (Hcat _ Hna)].
Defined.

Lemma classification_order_witness :
  numVal (row_get row_jan "Conveyance Taxable") = Some (ofZ 1600)
  /\ is_zero (ofZ 1600) = false
  /\ reserved (Some "Month Year") "Conveyance Taxable" = false
  /\ In "Conveyance Taxable" (orgEarnings "TCS")
  /\ isDeductionHeader "Conveyance Taxable" = true
  /\ acc_earnings (headerStep (Some "Month Year") (orgEarnings "TCS") (orgDeductions "TCS")
                              row_jan acc0 "Conveyance Taxable")
     = [mkItem "Conveyance Taxable" (ofZ 1600)]
  /\ acc_deductions (headerStep (Some "Month Year") (orgEarnings "TCS") (orgDeductions "TCS")
                                row_jan acc0 "Conveyance Taxable")
     = [].
Proof.
  assert (Hin : In "Conveyance Taxable" (orgEarnings "TCS")).
  { simpl. auto. }
  do 5 (split; [first [reflexivity | exact Hin]|]).
  destruct (classification_order (Some "Month Year") (orgEarnings "TCS")
              (orgDeductions "TCS") row_jan acc0 "Conveyance Taxable" (ofZ 1600)
              eq_refl eq_refl eq_refl) as [Hearning _].
  exact (Hearning Hin).
Defined.

Lemma month_year_cell_parsing_witness :
  row_get row_jan "Month Year" = Some (CStr "JAN 2025")
  /\ "JAN 2025" <> ""
  /\ is_ascii "JAN 2025" = true
  /\ String.length (trim "JAN 2025") <= 19
  /\ inherited_property "TCS" = false
  /\ exists p, parseRow no_digits "TCS" sample_headers (Some "Month Year") 0 row_jan = inr p
               /\ month p = ofZ 1 /\ year p = ofZ 2025.
Proof.
  split; [reflexivity|]. split; [discriminate|]. split; [reflexivity|].
  split; [vm_compute; lia|]. split; [reflexivity|].
  apply (month_year_cell_parsing no_digits "TCS" sample_headers (Some "Month Year") 0 row_jan
           "JAN 2025");
    [reflexivity | discriminate | reflexivity | vm_compute; lia | reflexivity |].
  exists "JAN", "2025", 1%Z, 2025%Z. simpl. auto 10.
Defined.

(** C4, as stated, fails: a full month name with a four-digit year is
    refused, and an abbreviation with a two-digit year is accepted. *)
Lemma month_name_refused_short_year_accepted :
  parseMonthYear "January 2025" = None
  /\ parseMonthYear "JAN 25" = Some (ofZ 1, ofZ 25).
Proof. split; reflexivity. Qed.

Lemma parsed_amounts_witness :
  In record_feb (records (processSheet no_digits sample_sheet "TCS"))
  /\ Forall (fun it => is_zero (amount it) = false)
            (earnings record_feb ++ deductions record_feb)
  /\ Executor.importRecord "u" record_feb (Executor.exec0 Store.empty)
     = (Store.Ok tt, Executor.exec0 Store.empty).
Proof.
  assert (Hin : In record_feb (records (processSheet no_digits sample_sheet "TCS"))).
  { right. left. reflexivity. }
  destruct (parsed_amounts_nonzero_negative_skipped_on_write no_digits
              sample_sheet "TCS" record_feb Hin) as [Hnz Hskip].
  split; [exact Hin|]. split; [exact Hnz|].
  apply Hskip. exists (mkItem "Income Tax" (ofZ (-500))). split; [now left | reflexivity].
Defined.

(** C9, as stated, fails: the record listed for the third row of the
    sample sheet has a deduction of -500. *)
Lemma parsed_record_with_negative_amount :
  In record_feb (records (processSheet no_digits sample_sheet "TCS"))
  /\ In (mkItem "Income Tax" (ofZ (-500))) (deductions record_feb)
  /\ lt (ofZ (-500)) (ofZ 0) = true.
Proof.
  split; [right; left; reflexivity|]. split; [now left | reflexivity].
Qed.

Lemma executor_writes_iff_within_bounds_witness :
  (month january_v1 = ofZ 1 /\ year january_v1 = ofZ 2025
   /\ write_bounds_ok january_v1 = true
   /\ Store.fits_numeric (netSalary january_v1) = true
   /\ exists row e',
        Executor.importRecord "u" january_v1 (Executor.exec0 Store.empty) = (Store.Ok tt, e')
        /\ In row (Store.salary_records (Executor.db e'))
        /\ Store.earnings_tbl (Executor.db e')
           = stored_rows (Store.s_id row) (earnings january_v1))
  /\ (write_bounds_ok net_over_column = true
      /\ Store.fits_numeric (netSalary net_over_column) = false
      /\ exists msg,
           Executor.forEach [net_over_column; january_v1] (Executor.importRecord "u")
             (Executor.exec0 Store.empty)
           = (Store.Err msg, Executor.exec0 Store.empty)).
Proof.
  split.
  - split; [reflexivity|]. split; [reflexivity|]. split; [reflexivity|].
    split; [reflexivity|].
    destruct (ExecutorFacts.executor_writes_iff_within_bounds "u" january_v1
                (Executor.exec0 Store.empty) 1 2025 eq_refl eq_refl) as (_ & Hw & _).
    destruct (Hw eq_refl eq_refl) as (row & e' & H1 & H2 & _ & H4 & _).
    exists row, e'. auto.
  - split; [reflexivity|]. split; [reflexivity|].
    destruct (ExecutorFacts.executor_writes_iff_within_bounds "u" net_over_column
                (Executor.exec0 Store.empty) 1 2025 eq_refl eq_refl) as (_ & _ & Ho).
    destruct (Ho eq_refl eq_refl) as (msg & _ & H).
    exists msg. apply H.
Defined.

(** C3, as stated, fails: a record whose netSalary is negative is outside
    the stated bounds, and the executor writes it, line items included. *)
Lemma negative_net_salary_is_written :
  claimed_bounds_ok negative_net = false
  /\ exists e',
       Executor.importRecord "u" negative_net (Executor.exec0 Store.empty) = (Store.Ok tt, e')
       /\ map Store.s_net_salary (Store.salary_records (Executor.db e')) = [ofZ (-500)]
       /\ Store.earnings_of 0 (Executor.db e') = earnings negative_net
       /\ Store.deductions_of 0 (Executor.db e') = deductions negative_net.
Proof.
  split; [reflexivity|]. eexists. split; [reflexivity|]. repeat split.
Qed.

Lemma rejected_backup_file_witness :
  rejected parse_nothing oversized_file
  /\ exists message,
       Backup.handleImportBackupFile parse_nothing Backup.init (Some oversized_file)
       = Backup.mkState None None false None [] [message].
Proof.
  assert (H : rejected parse_nothing oversized_file) by (left; reflexivity).
  split; [exact H|].
  destruct (rejected_backup_file_changes_nothing parse_nothing always_ok) as [Hrej _].
  exact (Hrej Backup.init oversized_file H).
Defined.



(** The exporter names its last column "Net Pay" while the importer
    reserves "Net Salary": the exported net pay comes back as an earning
    and the listed netSalary is 0. *)
Lemma net_pay_column_comes_back_as_earning :
  option_map (map (fun p => (earnings p, netSalary p))) (export_then_import [acme_jan])
  = Some [([mkItem "Basic" (ofZ 1000); mkItem "Net Pay" (ofZ 900)], ofZ 0)].
Proof. reflexivity. Qed.

(** ** The examples of the specification *)

(** The row "JAN 2025" of organization TCS. *)
Lemma spec_example_row :
  records (processSheet no_digits [row_spec_example] "TCS")
  = [mkParsed "TCS" (ofZ 1) (ofZ 2025)
       [mkItem "Basic Salary" (ofZ 80000); mkItem "HRA" (ofZ 32000)]
       [mkItem "Income Tax" (ofZ 18000); mkItem "Provident Fund" (ofZ 9600)]
       (ofZ 112000) (ofZ 27600) (ofZ 84400)].
Proof. reflexivity. Qed.

(** An amount of 150_000_000: the record is counted in the plan, the
    executor writes neither the record nor its line items, and goes on;
    the category of the skipped record is still written to the
    organization's template, which is filled before the records are
    checked. *)
Lemma spec_example_amount_over_cap :
  let plan := buildPlan no_digits [("TCS", [row_over_cap])] in
  let result := Executor.performImport "u" plan Store.empty in
  totalRecordsToImport plan = 1
  /\ fst result = Store.Ok tt
  /\ Store.salary_records (Executor.db (snd result)) = []
  /\ Store.earnings_tbl (Executor.db (snd result)) = []
  /\ Executor.totalRecordsImported (snd result) = 0
  /\ map Store.c_category (Store.template_earnings (Executor.db (snd result)))
     = ["Basic Salary"].
Proof. cbv zeta. repeat split. Qed.

(** * Further properties of the planner *)

Section PlannerMore.

Variable Number_toString : number -> string.

Local Abbreviation processSheet' := (processSheet Number_toString).
Local Abbreviation parseRow'' := (parseRow Number_toString).
Local Abbreviation rowLoop'' := (rowLoop Number_toString).

Lemma rowLoop_conserves org hs myh data : forall i r,
  List.length (records (rowLoop'' org hs myh i data r))
  + skippedRows (rowLoop'' org hs myh i data r)
  = List.length (records r) + skippedRows r + List.length data.
Proof.
  induction data as [|row data IH]; intros i r; cbn [rowLoop List.length]; [lia|].
  rewrite IH. unfold rowStep.
  destruct (parseRow'' org hs myh i row); cbn [records skippedRows skip_row push_record];
    rewrite ?length_app; cbn [List.length]; lia.
Qed.

(** X1. Every data row of a sheet is accounted for: it gives a record
    or it is skipped with a diagnostic, never both and never neither. *)
Theorem every_row_is_listed_or_skipped :
  forall data org,
    List.length (records (processSheet Number_toString data org))
    + skippedRows (processSheet Number_toString data org) = List.length data
    /\ List.length (records (processSheet Number_toString data org))
       + List.length (sheetInvalid (processSheet Number_toString data org)) = List.length data.
Proof.
  intros data org.
  assert (H : List.length (records (processSheet' data org))
              + skippedRows (processSheet' data org) = List.length data).
  { rewrite processSheet_rowLoop, rowLoop_conserves. reflexivity. }
  split; [exact H|]. now rewrite <- (processSheet_counted Number_toString data org).
Qed.

Lemma parseRow_diagnostic org hs myh i row bad :
  parseRow'' org hs myh i row = inl bad ->
  sheetName bad = org /\ excelRowNumber bad = i + 2.
Proof.
  unfold parseRow. destruct (row_get row _) as [v|].
  - destruct (falsy (Some v)); [intros [= <-]; auto|].
    destruct (parseMonthYear _) as [[m y]|]; [discriminate | intros [= <-]; auto].
  - intros [= <-]. auto.
Qed.

Lemma rowLoop_diagnostics org hs myh data : forall i r,
  StronglySorted Nat.lt (map excelRowNumber (sheetInvalid r)) ->
  Forall (fun b => sheetName b = org /\ 2 <= excelRowNumber b < i + 2) (sheetInvalid r) ->
  let r' := rowLoop'' org hs myh i data r in
  StronglySorted Nat.lt (map excelRowNumber (sheetInvalid r'))
  /\ Forall (fun b => sheetName b = org
                      /\ 2 <= excelRowNumber b < i + List.length data + 2)
            (sheetInvalid r').
Proof.
  induction data as [|row data IH]; intros i r Hs Hb; cbn [rowLoop List.length].
  - split; [exact Hs|]. eapply Forall_impl; [|exact Hb]. cbn.
    intros b [? ?]; split; [assumption|lia].
  - replace (i + S (List.length data) + 2) with (S i + List.length data + 2) by lia.
    apply IH; unfold rowStep;
      destruct (parseRow'' org hs myh i row) as [bad|p] eqn:Hp;
      cbn [sheetInvalid skip_row push_record].
    + destruct (parseRow_diagnostic _ _ _ _ _ _ Hp) as [_ Hn].
      rewrite map_app. cbn [map].
      clear -Hs Hb Hn. induction (sheetInvalid r) as [|b l IHl]; cbn [map app].
      * repeat constructor.
      * inversion Hs as [|? ? Hs' Hlt]; subst. inversion Hb as [|? ? Hb0 Hb']; subst.
        constructor; [now apply IHl|].
        apply Forall_forall. intros n Hin.
        apply in_app_iff in Hin as [Hin | [<- | []]].
        -- rewrite Forall_forall in Hlt. now apply Hlt.
        -- unfold Nat.lt. lia.
    + exact Hs.
    + destruct (parseRow_diagnostic _ _ _ _ _ _ Hp) as [Ho Hn].
      apply Forall_app. split.
      * eapply Forall_impl; [|exact Hb]. cbn. intros b [? ?]; split; [assumption|lia].
      * constructor; [split; [exact Ho | lia] | constructor].
    + eapply Forall_impl; [|exact Hb]. cbn. intros b [? ?]; split; [assumption|lia].
Qed.

(** X2. The diagnostics of a sheet carry the sheet's name and row
    numbers between 2 and the number of data rows plus 1, in strictly
    increasing order: no row is reported twice. *)
Theorem diagnostics_are_ordered_by_row :
  forall data org,
    StronglySorted Nat.lt
      (map excelRowNumber (sheetInvalid (processSheet Number_toString data org)))
    /\ Forall (fun b => sheetName b = org
                        /\ 2 <= excelRowNumber b <= List.length data + 1)
              (sheetInvalid (processSheet Number_toString data org)).
Proof.
  intros data org. rewrite processSheet_rowLoop.
  destruct (rowLoop_diagnostics org (sheetHeaders data) (monthYearKey data) data 0 result0)
    as [Hs Hb]; [constructor | constructor |].
  split; [exact Hs|]. eapply Forall_impl; [|exact Hb]. cbn. intros b [? ?]; split; [assumption|lia].
Qed.

Lemma monthMap_months k m : In (k, m) monthMap -> (1 <= m <= 12)%Z.
Proof.
  cbn. intros H.
  repeat (destruct H as [[= <- <-] | H]; [lia|]). contradiction.
Qed.

(** X3. Every listed record carries the name of its sheet as
    organization, a whole month between 1 and 12, and a year that is a
    number (never NaN). *)
Theorem listed_record_has_sheet_name_and_calendar_month :
  forall data org,
    Forall (fun p => organization p = org
                     /\ (exists m, month p = ofZ m /\ (1 <= m <= 12)%Z)
                     /\ isNaN (year p) = false)
           (records (processSheet Number_toString data org)).
Proof.
  intros data org. apply processSheet_records. intros hs myh i row p. unfold parseRow.
  destruct (row_get row _) as [v|]; [|discriminate].
  destruct (falsy (Some v)); [discriminate|].
  destruct (parseMonthYear (String_of_cell Number_toString v)) as [[m y]|] eqn:Hp;
    [|discriminate].
  intros [= <-]. cbn [organization month year]. split; [reflexivity|].
  apply parseMonthYear_spec in Hp as (tok & _ & mz & yz & _ & _ & _ & Hin & _ & -> & ->).
  split; [|reflexivity]. exists mz. split; [reflexivity|].
  eapply monthMap_months, Hin.
Qed.

Lemma rowLoop_records_in (P : ParsedRecord -> Prop) org hs myh data :
  (forall i row p, In row data -> parseRow'' org hs myh i row = inr p -> P p) ->
  forall i r,
    Forall P (records r) -> Forall P (records (rowLoop'' org hs myh i data r)).
Proof.
  induction data as [|row data IH]; intros HP i r Hr; cbn [rowLoop]; [exact Hr|].
  apply IH; [intros j row' p Hin; apply HP; now right|].
  unfold rowStep. destruct (parseRow'' org hs myh i row) as [b|p] eqn:Hp;
    cbn [records skip_row push_record]; [exact Hr|].
  apply Forall_app. split; [exact Hr|]. constructor; [|constructor].
  eapply HP; [now left | exact Hp].
Qed.

Lemma processSheet_records_in (P : ParsedRecord -> Prop) data org :
  (forall i row p,
     In row data ->
     parseRow'' org (sheetHeaders data) (monthYearKey data) i row = inr p -> P p) ->
  Forall P (records (processSheet' data org)).
Proof.
  intros HP. rewrite processSheet_rowLoop.
  apply rowLoop_records_in; [exact HP | constructor].
Qed.

Lemma parseRow_inr org hs myh i row p :
  parseRow'' org hs myh i row = inr p ->
  let a := fold_left (headerStep myh (orgEarnings org) (orgDeductions org) row) hs acc0 in
  earnings p = acc_earnings a /\ deductions p = acc_deductions a
  /\ totalEarnings p = acc_earningsTotal a
  /\ totalDeductions p = acc_deductionsTotal a
  /\ netSalary p = acc_netSalary a.
Proof.
  unfold parseRow. destruct (row_get row _) as [v|]; [|discriminate].
  destruct (falsy (Some v)); [discriminate|].
  destruct (parseMonthYear _) as [[m y]|]; [|discriminate].
  intros [= <-]. cbn. auto.
Qed.

(** What one pass over the headers adds to the two lists. *)
Lemma headerLoop_new myh oe od row hs : forall a,
  exists es ds,
    acc_earnings (fold_left (headerStep myh oe od row) hs a) = acc_earnings a ++ es
    /\ acc_deductions (fold_left (headerStep myh oe od row) hs a) = acc_deductions a ++ ds
    /\ incl (map category (es ++ ds)) hs
    /\ (NoDup hs -> NoDup (map category (es ++ ds))).
Proof.
  induction hs as [|h hs IH]; intros a; cbn [fold_left].
  - exists [], []. rewrite !app_nil_r. repeat split; [intros x [] | constructor].
  - destruct (IH (headerStep myh oe od row a h)) as (es & ds & He & Hd & Hincl & Hnd).
    rewrite He, Hd.
    destruct (headerStep_cases myh oe od row a h)
      as [[E D] | (v & _ & [[E D] | [E D]])]; rewrite E, D.
    + exists es, ds. repeat split; [now apply incl_tl|].
      intros H. apply Hnd. now inversion H.
    + exists (mkItem h v :: es), ds. rewrite <- app_assoc. repeat split.
      * cbn. apply incl_cons; [now left | now apply incl_tl].
      * intros H. inversion H as [|? ? Hnotin Hnd']; subst. cbn. constructor; [|auto].
        intros Hin. apply Hnotin, Hincl, Hin.
    + exists es, (mkItem h v :: ds). rewrite <- app_assoc. repeat split.
      * rewrite map_app. cbn [map]. intros x Hx.
        apply in_app_iff in Hx as [Hx | [<- | Hx]]; [right | now left | right];
          apply Hincl; rewrite map_app; apply in_app_iff; auto.
      * intros H. inversion H as [|? ? Hnotin Hnd']; subst.
        rewrite map_app. cbn [map].
        eapply Permutation_NoDup; [apply Permutation_middle|]. rewrite <- map_app.
        constructor; [|auto]. intros Hin. apply Hnotin, Hincl, Hin.
Qed.

(** X4. The categories of a listed record are column headers of the
    sheet's first row, and never the Month/Year header or one of the
    three total headers. *)
Theorem categories_are_unreserved_headers :
  forall data org,
    Forall (fun p =>
              Forall (fun it =>
                        In (category it) (sheetHeaders data)
                        /\ reserved (monthYearKey data) (category it) = false)
                     (earnings p ++ deductions p))
           (records (processSheet Number_toString data org)).
Proof.
  intros data org. apply processSheet_records_in. intros i row p _ Hp.
  destruct (parseRow_items Number_toString _ _ _ _ _ _ Hp) as [He Hd].
  destruct (parseRow_inr _ _ _ _ _ _ Hp) as (Ee & Ed & _).
  destruct (headerLoop_new (monthYearKey data) (orgEarnings org) (orgDeductions org)
              row (sheetHeaders data) acc0) as (es & ds & He' & Hd' & Hincl & _).
  cbn [acc0 acc_earnings acc_deductions app] in He', Hd'.
  rewrite <- Ee in He'. rewrite <- Ed in Hd'. subst es ds.
  apply Forall_forall. intros it Hin. split.
  - apply Hincl. now apply in_map.
  - apply in_app_iff in Hin. rewrite Forall_forall in He, Hd.
    destruct Hin as [Hin | Hin]; [apply He in Hin | apply Hd in Hin]; apply Hin.
Qed.

(** X5. When the headers of the first row are distinct, a column gives
    at most one line item per record: no category occurs twice among a
    record's earnings and deductions taken together. *)
Theorem one_line_item_per_column :
  forall data org,
    NoDup (sheetHeaders data) ->
    Forall (fun p => NoDup (map category (earnings p ++ deductions p)))
           (records (processSheet Number_toString data org)).
Proof.
  intros data org Hnd. apply processSheet_records_in. intros i row p _ Hp.
  destruct (parseRow_inr _ _ _ _ _ _ Hp) as (Ee & Ed & _).
  destruct (headerLoop_new (monthYearKey data) (orgEarnings org) (orgDeductions org)
              row (sheetHeaders data) acc0) as (es & ds & He' & Hd' & _ & H).
  cbn [acc0 acc_earnings acc_deductions app] in He', Hd'.
  rewrite <- Ee in He'. rewrite <- Ed in Hd'. subst es ds. exact (H Hnd).
Qed.

Lemma headerStep_totals myh oe od row a h :
  let v0 := numVal (row_get row h) in
  let pick (k : string) (old : number) :=
    if String.eqb h k then match v0 with Some v => v | None => old end else old in
  acc_earningsTotal (headerStep myh oe od row a h)
    = pick TOTAL_EARNINGS_HEADER (acc_earningsTotal a)
  /\ acc_deductionsTotal (headerStep myh oe od row a h)
     = pick TOTAL_DEDUCTIONS_HEADER (acc_deductionsTotal a)
  /\ acc_netSalary (headerStep myh oe od row a h)
     = pick NET_SALARY_HEADER (acc_netSalary a).
Proof.
  cbv zeta. unfold headerStep.
  destruct (numVal (row_get row h)) as [v|].
  2:{ repeat split; match goal with |- context [String.eqb h ?k] =>
        destruct (String.eqb h k); reflexivity end. }
  destruct (String.eqb h TOTAL_EARNINGS_HEADER) eqn:E1.
  { apply String.eqb_eq in E1. subst h. repeat split. }
  destruct (String.eqb h TOTAL_DEDUCTIONS_HEADER) eqn:E2.
  { apply String.eqb_eq in E2. subst h. repeat split. }
  destruct (String.eqb h NET_SALARY_HEADER) eqn:E3.
  { apply String.eqb_eq in E3. subst h. repeat split. }
  destruct (reserved myh h || is_zero v); [repeat split|].
  destruct (list_includes h oe); [repeat split|].
  destruct (list_includes h od); [repeat split|].
  destruct (isDeductionHeader h); repeat split.
Qed.

(** The value a total has after the header loop: the coerced cell of its
    column when the column is among the headers, the initial value
    otherwise. *)
Lemma headerLoop_totals myh oe od row hs : forall a,
  let settle (k : string) (old : number) :=
    if list_includes k hs
    then match numVal (row_get row k) with Some v => v | None => old end
    else old in
  let a' := fold_left (headerStep myh oe od row) hs a in
  acc_earningsTotal a' = settle TOTAL_EARNINGS_HEADER (acc_earningsTotal a)
  /\ acc_deductionsTotal a' = settle TOTAL_DEDUCTIONS_HEADER (acc_deductionsTotal a)
  /\ acc_netSalary a' = settle NET_SALARY_HEADER (acc_netSalary a).
Proof.
  induction hs as [|h hs IH]; intros a; cbv zeta; cbn [fold_left]; [repeat split|].
  destruct (IH (headerStep myh oe od row a h)) as (H1 & H2 & H3).
  destruct (headerStep_totals myh oe od row a h) as (S1 & S2 & S3).
  cbv zeta in H1, H2, H3, S1, S2, S3.
  rewrite H1, H2, H3, S1, S2, S3. clear.
  unfold list_includes. cbn [existsb].
  repeat split;
    match goal with |- context [String.eqb ?k h] =>
      rewrite (String.eqb_sym k h);
      destruct (String.eqb h k) eqn:E; cbn [orb];
      [apply String.eqb_eq in E; subst h;
       destruct (existsb _ hs); destruct (numVal _); reflexivity
      | reflexivity]
    end.
Qed.

(** X6. The three totals of a listed record are read from its row, not
    computed: each is the number in the row's Total Earnings, Total
    Deductions or Net Salary cell, and 0 when the first row has no such
    column or the cell holds no number. *)
Theorem declared_totals_are_copied_from_the_row :
  forall data org,
    Forall (fun p =>
              exists row,
                In row data
                /\ totalEarnings p
                   = (if list_includes TOTAL_EARNINGS_HEADER (sheetHeaders data)
                      then declared_total row TOTAL_EARNINGS_HEADER else ofZ 0)
                /\ totalDeductions p
                   = (if list_includes TOTAL_DEDUCTIONS_HEADER (sheetHeaders data)
                      then declared_total row TOTAL_DEDUCTIONS_HEADER else ofZ 0)
                /\ netSalary p
                   = (if list_includes NET_SALARY_HEADER (sheetHeaders data)
                      then declared_total row NET_SALARY_HEADER else ofZ 0))
           (records (processSheet Number_toString data org)).
Proof.
  intros data org. apply processSheet_records_in. intros i row p Hin Hp.
  exists row. split; [exact Hin|].
  destruct (parseRow_inr _ _ _ _ _ _ Hp) as (_ & _ & -> & -> & ->).
  exact (headerLoop_totals (monthYearKey data) (orgEarnings org) (orgDeductions org)
           row (sheetHeaders data) acc0).
Qed.

Lemma processSheet_conserves data org :
  List.length (records (processSheet' data org))
  + List.length (sheetInvalid (processSheet' data org)) = List.length data.
Proof.
  rewrite <- (processSheet_counted Number_toString data org).
  rewrite processSheet_rowLoop, rowLoop_conserves. reflexivity.
Qed.

Lemma kept_iff_rows name data :
  kept (name, processSheet' data name) = false <-> data = [].
Proof.
  unfold kept. cbn [snd]. pose proof (processSheet_conserves data name) as H.
  rewrite negb_false_iff, andb_true_iff, !Nat.eqb_eq. split.
  - intros [H1 H2]. rewrite H1, H2 in H. now destruct data.
  - intros ->. cbn. auto.
Qed.

Lemma kept_sums wb :
  let K := filter kept (sheetResults Number_toString wb) in
  list_sum (map (fun res => List.length (records (snd res))) K)
  + list_sum (map (fun res => skippedRows (snd res)) K)
  = list_sum (map (fun s => List.length (snd s)) wb).
Proof.
  cbv zeta. induction wb as [|[name data] wb IH]; [reflexivity|].
  cbn [sheetResults map filter fst snd list_sum]. fold (sheetResults Number_toString wb).
  pose proof (processSheet_conserves data name) as Hc.
  rewrite <- (processSheet_counted Number_toString data name) in Hc.
  destruct (kept (name, processSheet' data name)) eqn:Hk.
  - cbn [map snd]. unfold list_sum in *. cbn [fold_right]. lia.
  - apply kept_iff_rows in Hk. subst data. unfold list_sum in *. cbn [List.length fold_right]. lia.
Qed.

(** X7. For a workbook none of whose sheets is named after a property
    inherited from [Object.prototype] (under such a name the planner
    finds no category list and fails): the upload offers no plan ("No
    data found") exactly when no sheet of the workbook has a data row;
    and the two totals of the plan built from the workbook account for
    every data row of every sheet. *)
Theorem upload_offers_a_plan_iff_some_sheet_has_rows :
  forall wb,
    Forall (fun s => inherited_property (fst s) = false) wb ->
    (handleFileUpload Number_toString wb = None <-> Forall (fun s => snd s = []) wb)
    /\ totalRecordsToImport (buildPlan Number_toString wb)
       + totalSkippedRows (buildPlan Number_toString wb)
       = list_sum (map (fun s => List.length (snd s)) wb).
Proof.
  intros wb _. unfold handleFileUpload, buildPlan.
  rewrite (buildPlan_fold Number_toString wb plan0).
  cbn [sheets totalRecordsToImport totalSkippedRows plan0 app Nat.add]. split.
  - rewrite length_map.
    destruct (List.length (filter kept (sheetResults Number_toString wb)) =? 0)%nat eqn:E.
    + split; [intros _ | reflexivity]. apply Nat.eqb_eq, length_zero_iff_nil in E.
      apply Forall_forall. intros [name data] Hin. cbn [snd].
      apply (kept_iff_rows name).
      destruct (kept (name, processSheet' data name)) eqn:Hk; [|reflexivity].
      exfalso. assert (Hin' : In (name, processSheet' data name)
                                 (filter kept (sheetResults Number_toString wb))).
      { apply filter_In. split; [|exact Hk]. unfold sheetResults.
        apply in_map_iff. exists (name, data). auto. }
      rewrite E in Hin'. exact Hin'.
    + split; [discriminate|]. intros Hall. exfalso.
      apply Nat.eqb_neq in E. apply E, length_zero_iff_nil.
      clear E. induction wb as [|[name data] wb IH]; [reflexivity|].
      inversion Hall as [|? ? H0 Hall']; subst. cbn [snd] in H0. subst data.
      cbn. now apply IH.
  - apply kept_sums.
Qed.

End PlannerMore.

Lemma upload_offers_a_plan_witness :
  Forall (fun s => inherited_property (fst s) = false) [("TCS", sample_sheet)]
  /\ handleFileUpload no_digits [("TCS", sample_sheet)] <> None
  /\ totalRecordsToImport (buildPlan no_digits [("TCS", sample_sheet)])
     + totalSkippedRows (buildPlan no_digits [("TCS", sample_sheet)]) = 3.
Proof.
  assert (Hnames : Forall (fun s : string * list Row => inherited_property (fst s) = false)
                          [("TCS", sample_sheet)]).
  { constructor; [reflexivity | constructor]. }
  destruct (upload_offers_a_plan_iff_some_sheet_has_rows no_digits
              [("TCS", sample_sheet)] Hnames) as [Hnone Hsum].
  split; [exact Hnames|]. split; [|exact Hsum].
  intros H. apply Hnone in H. inversion H as [|? ? Hrows _]. discriminate Hrows.
Defined.

Lemma one_line_item_per_column_witness :
  NoDup (sheetHeaders sample_sheet)
  /\ Forall (fun p => NoDup (map category (earnings p ++ deductions p)))
            (records (processSheet no_digits sample_sheet "TCS")).
Proof.
  assert (H : NoDup (sheetHeaders sample_sheet)).
  { cbn. repeat (constructor; [cbn; intuition discriminate|]). constructor. }
  split; [exact H|].
  exact (one_line_item_per_column no_digits sample_sheet "TCS" H).
Defined.

(** * Further properties of the executor *)

Module ExecutorMore.
Import Store Executor.

Lemma set_add_fold_In (l : list LineItem) : forall s c,
  In c (fold_left (fun s e => set_add s (category e)) l s)
  <-> In c s \/ In c (map category l).
Proof.
  induction l as [|e l IH]; intros s c; cbn [fold_left map In]; [tauto|].
  rewrite IH, Grouping.set_add_In. intuition auto.
Qed.

Lemma set_add_fold_NoDup (l : list LineItem) : forall s,
  NoDup s -> NoDup (fold_left (fun s e => set_add s (category e)) l s).
Proof.
  induction l as [|e l IH]; intros s H; cbn [fold_left]; [exact H|].
  apply IH, Grouping.set_add_NoDup, H.
Qed.

Lemma categories_fold (items : ParsedRecord -> list LineItem) records : forall s,
  let s' := fold_left (fun s r => fold_left (fun s e => set_add s (category e)) (items r) s)
                      records s in
  (NoDup s -> NoDup s')
  /\ forall c, In c s' <-> In c s \/ exists r e, In r records /\ In e (items r) /\ category e = c.
Proof.
  induction records as [|r records IH]; intros s; cbn [fold_left].
  - split; [auto|]. intros c. split; [auto|]. intros [H | (r & e & [] & _)]. exact H.
  - destruct (IH (fold_left (fun s e => set_add s (category e)) (items r) s)) as [Hnd Hin].
    split; [intros H; apply Hnd, set_add_fold_NoDup, H|].
    intros c. rewrite Hin, set_add_fold_In. split.
    + intros [[H | H] | (r' & e & Hr & He & Hc)]; [now left | |].
      * apply in_map_iff in H as (e & Hc & He). right. exists r, e. cbn. auto.
      * right. exists r', e. cbn. auto.
    + intros [H | (r' & e & [<- | Hr] & He & Hc)]; [auto | |].
      * left. right. apply in_map_iff. eauto.
      * right. eauto.
Qed.

(** X8. The categories written to a sheet's template are the set of
    the categories of the sheet's listed records: each category that
    some record has as an earning (as a deduction) is there once, and
    nothing else is. *)
Theorem template_categories_are_those_of_the_records :
  forall records,
    NoDup (allEarningsCategories records)
    /\ NoDup (allDeductionsCategories records)
    /\ (forall c, In c (allEarningsCategories records)
                  <-> exists r e, In r records /\ In e (earnings r) /\ category e = c)
    /\ (forall c, In c (allDeductionsCategories records)
                  <-> exists r e, In r records /\ In e (deductions r) /\ category e = c).
Proof.
  intros records.
  destruct (categories_fold earnings records []) as [He1 He2].
  destruct (categories_fold deductions records []) as [Hd1 Hd2].
  split; [apply He1; constructor|]. split; [apply Hd1; constructor|].
  split; intros c; [rewrite (He2 c) | rewrite (Hd2 c)]; cbn [In]; tauto.
Qed.

(** *** What one record does to the run *)

Lemma importRecord_cases user r e :
  if write_bounds_ok r then
    match upsert_salary_record user (organization r) (month r) (year r)
            (totalEarnings r) (totalDeductions r) (netSalary r) (totalEarnings r) (db e) with
    | (Err msg, d') => importRecord user r e = (Err msg, with_db e d')
    | (Ok row, d') =>
        importRecord user r e
        = (Ok tt,
           mkExec (set_deductions
                     (set_earnings d' (earnings_tbl d' ++ stored_rows (s_id row) (earnings r)))
                     (deductions_tbl d' ++ stored_rows (s_id row) (deductions r)))
                  (S (totalRecordsImported e)) (totalTemplates e) (S (processedRecords e)))
    end
  else importRecord user r e = (Ok tt, e).
Proof.
  pose proof (ExecutorFacts.guards_are_the_bounds r) as G.
  destruct (write_bounds_ok r) eqn:Hok; [|now apply ExecutorFacts.importRecord_skips].
  cbn [negb] in G.
  assert (Hitems : forallb (fun it => in_range (ofZ 0) (ofZ 100000000) (amount it))
                           (earnings r ++ deductions r) = true).
  { unfold write_bounds_ok in Hok. now apply andb_true_iff in Hok as [_ Hok]. }
  rewrite forallb_app in Hitems. apply andb_true_iff in Hitems as [He Hd].
  destruct (upsert_salary_record _ _ _ _ _ _ _ _ _) as [[row|msg] d'] eqn:Hup.
  - exact (ExecutorFacts.importRecord_after_upsert user r e row d' G He Hd Hup).
  - apply orb_false_iff in G as [G G3]. apply orb_false_iff in G as [G1 G2].
    unfold importRecord. rewrite G1, G2, G3.
    unfold bind at 1. unfold call_try. now rewrite Hup.
Qed.

(** The upsert touches the salary table only, never shortens it, and
    leaves the store as it was when it refuses the row. *)
Lemma upsert_frame user org m y te td net gross d :
  let res := upsert_salary_record user org m y te td net gross d in
  organization_templates (snd res) = organization_templates d
  /\ template_earnings (snd res) = template_earnings d
  /\ template_deductions (snd res) = template_deductions d
  /\ earnings_tbl (snd res) = earnings_tbl d
  /\ deductions_tbl (snd res) = deductions_tbl d
  /\ List.length (salary_records d) <= List.length (salary_records (snd res)).
Proof.
  cbv zeta. unfold upsert_salary_record.
  destruct (as_integer m) as [mz|]; [|cbn; auto 10].
  destruct (as_integer y) as [yz|]; [|cbn; auto 10].
  destruct (negb _); [cbn; auto 10|].
  destruct (negb _); [cbn; auto 10|].
  destruct (negb _); [cbn; auto 10|].
  destruct (negb _); [cbn; auto 10|].
  destruct (find _ _); cbn; rewrite ?length_map, ?length_app; cbn; repeat split; lia.
Qed.

Lemma grows_refl e : grows e e.
Proof.
  unfold grows. repeat split; try reflexivity; exists []; now rewrite app_nil_r.
Qed.

Lemma grows_trans a b c : grows a b -> grows b c -> grows a c.
Proof.
  unfold grows.
  intros (A1 & A2 & A3 & (n1 & A4) & (n2 & A5) & A6 & A7)
         (B1 & B2 & B3 & (m1 & B4) & (m2 & B5) & B6 & B7).
  repeat split; try congruence; try lia.
  - exists (n1 ++ m1). now rewrite B4, A4, app_assoc.
  - exists (n2 ++ m2). now rewrite B5, A5, app_assoc.
Qed.

Lemma importRecord_grows user r e : grows e (snd (importRecord user r e)).
Proof.
  pose proof (importRecord_cases user r e) as H.
  destruct (write_bounds_ok r); [|rewrite H; apply grows_refl].
  pose proof (upsert_frame user (organization r) (month r) (year r) (totalEarnings r)
                (totalDeductions r) (netSalary r) (totalEarnings r) (db e))
    as (F1 & F2 & F3 & F4 & F5 & F6).
  cbv zeta in F1, F2, F3, F4, F5, F6.
  destruct (upsert_salary_record _ _ _ _ _ _ _ _ _) as [[row|msg] d'];
    rewrite H; cbn [snd] in *; unfold grows; cbn.
  - rewrite F1, F2, F3, F4, F5. repeat split; eauto.
  - rewrite F1, F2, F3, F4, F5. repeat split; auto; exists []; now rewrite app_nil_r.
Qed.

Lemma forEach_records_grows user records : forall e,
  grows e (snd (forEach records (importRecord user) e)).
Proof.
  induction records as [|r records IH]; intros e; cbn [forEach]; [apply grows_refl|].
  unfold bind. pose proof (importRecord_grows user r e) as H.
  destruct (importRecord user r e) as [[[]|msg] e1]; cbn [snd] in *; [|exact H].
  eapply grows_trans; [exact H | apply IH].
Qed.

(** The counters over the record loop. *)
Lemma forEach_records_counts user records : forall e,
  let res := forEach records (importRecord user) e in
  processedRecords (snd res) + totalRecordsImported e
  = processedRecords e + totalRecordsImported (snd res)
  /\ totalRecordsImported e <= totalRecordsImported (snd res)
  /\ totalRecordsImported (snd res)
     <= totalRecordsImported e + List.length (filter write_bounds_ok records)
  /\ (forall u, fst res = Ok u ->
                totalRecordsImported (snd res)
                = totalRecordsImported e + List.length (filter write_bounds_ok records)).
Proof.
  induction records as [|r records IH]; intros e; cbv zeta; cbn [forEach filter].
  - cbn. repeat split; lia.
  - unfold bind. pose proof (importRecord_cases user r e) as H.
    destruct (write_bounds_ok r).
    + destruct (upsert_salary_record _ _ _ _ _ _ _ _ _) as [[row|msg] d']; rewrite H.
      * match goal with |- context [forEach records _ ?e1] =>
          destruct (IH e1) as (I1 & I2 & I3 & I4) end.
        cbn [totalRecordsImported processedRecords List.length] in *.
        repeat split; try lia. intros u Hu. rewrite (I4 u Hu). lia.
      * cbn. repeat split; try lia. discriminate.
    + rewrite H. apply IH.
Qed.

(** *** What one sheet does to the run *)

Lemma when_insert_template_earnings rows e :
  when (0 <? List.length rows)%nat (call (insert_template_earnings rows)) e
  = (Ok tt, with_db e (insert_template_earnings rows (db e))).
Proof.
  destruct rows as [|c rows]; [|reflexivity]. cbn.
  unfold insert_template_earnings, set_template_earnings. cbn. rewrite app_nil_r.
  destruct e as [[] ? ? ?]. reflexivity.
Qed.

Lemma when_insert_template_deductions rows e :
  when (0 <? List.length rows)%nat (call (insert_template_deductions rows)) e
  = (Ok tt, with_db e (insert_template_deductions rows (db e))).
Proof.
  destruct rows as [|c rows]; [|reflexivity]. cbn.
  unfold insert_template_deductions, set_template_deductions. cbn. rewrite app_nil_r.
  destruct e as [[] ? ? ?]. reflexivity.
Qed.

Lemma importSheet_cases user s e :
  match sp_records s with
  | [] => importSheet user s e = (Ok tt, e)
  | _ :: _ =>
      match select_template user (sp_sheetName s) (db e) with
      | Err msg => importSheet user s e = (Err msg, e)
      | Ok existingTemplate =>
          importSheet user s e
          = forEach (sp_records s) (importRecord user) (templatePhase user s existingTemplate e)
      end
  end.
Proof.
  unfold importSheet. destruct (sp_records s) as [|r records] eqn:Hrec; [reflexivity|].
  cbn [List.length Nat.eqb].
  destruct (select_template user (sp_sheetName s) (db e)) as [[t|]|msg] eqn:Hsel;
    unfold bind at 1; unfold query; rewrite Hsel; [| |reflexivity].
  - unfold bind at 1. unfold bind at 1. unfold call at 1.
    unfold bind at 1. unfold call at 1. unfold ret at 1.
    unfold bind at 1. unfold count_template at 1.
    unfold bind at 1. rewrite when_insert_template_earnings.
    unfold bind at 1. rewrite when_insert_template_deductions.
    unfold templatePhase. rewrite Hrec. reflexivity.
  - unfold bind at 1. unfold call_ret at 1. cbn [insert_template].
    unfold bind at 1. unfold count_template at 1.
    unfold bind at 1. rewrite when_insert_template_earnings.
    unfold bind at 1. rewrite when_insert_template_deductions.
    unfold templatePhase. rewrite Hrec. reflexivity.
Qed.

Lemma grows_keeps e e' : grows e e' -> keeps (db e) (db e').
Proof.
  intros (H1 & _ & _ & H4 & H5 & H6 & _). unfold keeps.
  repeat split; auto. exists []. now rewrite app_nil_r.
Qed.

Lemma keeps_refl d : keeps d d.
Proof.
  unfold keeps. repeat split; try (exists []; now rewrite app_nil_r). lia.
Qed.

Lemma keeps_trans a b c : keeps a b -> keeps b c -> keeps a c.
Proof.
  unfold keeps.
  intros ((n1 & A1) & (n2 & A2) & A3 & (n4 & A4)) ((m1 & B1) & (m2 & B2) & B3 & (m4 & B4)).
  repeat split; [| | lia |].
  - exists (n1 ++ m1). now rewrite B1, A1, app_assoc.
  - exists (n2 ++ m2). now rewrite B2, A2, app_assoc.
  - exists (n4 ++ m4). now rewrite B4, A4, app_assoc.
Qed.

Lemma templatePhase_keeps user s o e : keeps (db e) (db (templatePhase user s o e)).
Proof.
  unfold keeps, templatePhase. destruct o as [t|]; cbn.
  - repeat split; try (exists []; now rewrite app_nil_r). lia.
  - repeat split; try (exists []; now rewrite app_nil_r); [lia | eauto].
Qed.

Lemma importSheet_keeps user s e : keeps (db e) (db (snd (importSheet user s e))).
Proof.
  pose proof (importSheet_cases user s e) as H.
  destruct (sp_records s) as [|r records]; [rewrite H; apply keeps_refl|].
  destruct (select_template user (sp_sheetName s) (db e)) as [o|msg];
    rewrite H; [|apply keeps_refl].
  eapply keeps_trans; [apply templatePhase_keeps|].
  apply grows_keeps, forEach_records_grows.
Qed.

(** X9. An import never removes what the store holds: whatever the
    outcome of the run, the rows of the earnings and deductions tables
    are still there, at the front of their tables and unchanged, no
    salary record has gone and no template has gone. *)
Theorem import_never_removes_rows :
  forall user plan d, keeps d (db (snd (performImport user plan d))).
Proof.
  intros user plan d. unfold performImport.
  change d with (db (exec0 d)) at 1. generalize (exec0 d).
  induction (sheets plan) as [|s l IH]; intros e; cbn [forEach]; [apply keeps_refl|].
  unfold bind. pose proof (importSheet_keeps user s e) as H.
  destruct (importSheet user s e) as [[[]|msg] e1]; cbn [snd] in *; [|exact H].
  eapply keeps_trans; [exact H | apply IH].
Qed.

Lemma filter_other_template tid tbl cats :
  filter (fun c => negb (c_template_id c =? tid)%nat) (map (mkCategory tid) cats) = []
  /\ filter (fun c => (c_template_id c =? tid)%nat) (map (mkCategory tid) cats)
     = map (mkCategory tid) cats
  /\ filter (fun c => (c_template_id c =? tid)%nat)
            (filter (fun c => negb (c_template_id c =? tid)%nat) tbl) = [].
Proof.
  split; [|split].
  - induction cats as [|c cats IH]; cbn; [reflexivity|]. now rewrite Nat.eqb_refl.
  - induction cats as [|c cats IH]; cbn; [reflexivity|]. now rewrite Nat.eqb_refl, IH.
  - induction tbl as [|c tbl IH]; cbn; [reflexivity|].
    destruct (c_template_id c =? tid)%nat eqn:E; cbn; [exact IH | now rewrite E].
Qed.

Lemma template_categories_replaced tid tbl cats :
  template_categories tid
    (filter (fun c => negb (c_template_id c =? tid)%nat) tbl ++ map (mkCategory tid) cats)
  = cats.
Proof.
  unfold template_categories. rewrite filter_app.
  destruct (filter_other_template tid tbl cats) as (_ & -> & ->).
  cbn [app]. rewrite map_map. cbn. apply map_id.
Qed.

Lemma template_categories_others tid tid' tbl cats :
  tid' <> tid ->
  template_categories tid'
    (filter (fun c => negb (c_template_id c =? tid)%nat) tbl ++ map (mkCategory tid) cats)
  = template_categories tid' tbl.
Proof.
  intros Hne. unfold template_categories. rewrite filter_app, map_app.
  replace (filter (fun c => (c_template_id c =? tid')%nat) (map (mkCategory tid) cats))
    with (@nil CategoryRow).
  2:{ induction cats as [|c cats IH]; cbn; [reflexivity|].
      destruct (Nat.eqb_spec tid tid'); [congruence | exact IH]. }
  cbn [map]. rewrite app_nil_r. f_equal.
  induction tbl as [|c tbl IH]; cbn; [reflexivity|].
  destruct (Nat.eqb_spec (c_template_id c) tid) as [E|E]; cbn.
  - rewrite E. destruct (Nat.eqb_spec tid tid'); [congruence | exact IH].
  - now rewrite IH.
Qed.

(** X10. A sheet whose template exists replaces the template's category
    lists: after the sheet, whether or not its record loop ran to the
    end, the template has exactly the categories of the sheet's listed
    records, the categories of the other templates are as they were, and
    no template was added. *)
Theorem existing_template_is_replaced :
  forall user s e t0,
    sp_records s <> [] ->
    select_template user (sp_sheetName s) (db e) = Ok (Some t0) ->
    let d' := db (snd (importSheet user s e)) in
    template_categories (t_id t0) (template_earnings d')
    = allEarningsCategories (sp_records s)
    /\ template_categories (t_id t0) (template_deductions d')
       = allDeductionsCategories (sp_records s)
    /\ (forall tid, tid <> t_id t0 ->
          template_categories tid (template_earnings d')
          = template_categories tid (template_earnings (db e))
          /\ template_categories tid (template_deductions d')
             = template_categories tid (template_deductions (db e)))
    /\ organization_templates d' = organization_templates (db e).
Proof.
  intros user s e t0 Hrec Hsel. cbv zeta.
  pose proof (importSheet_cases user s e) as H.
  destruct (sp_records s) as [|r records] eqn:Er; [congruence|]. rewrite Hsel in H.
  rewrite H. rewrite <- Er in *.
  destruct (forEach_records_grows user (sp_records s) (templatePhase user s (Some t0) e))
    as (G1 & G2 & G3 & _).
  rewrite G1, G2, G3. unfold templatePhase. cbn.
  split; [apply template_categories_replaced|].
  split; [apply template_categories_replaced|].
  split; [|reflexivity].
  intros tid Hne. split; now apply template_categories_others.
Qed.

(** X11. A sheet that has no template yet gets one, named after the
    sheet, with exactly the categories of the sheet's listed records,
    provided no category row already carries the identifier the store
    issues next. *)
Theorem new_template_gets_the_sheet_categories :
  forall user s e,
    sp_records s <> [] ->
    select_template user (sp_sheetName s) (db e) = Ok None ->
    Forall (fun c => c_template_id c < next_id (db e))
           (template_earnings (db e) ++ template_deductions (db e)) ->
    let d' := db (snd (importSheet user s e)) in
    let t := mkTemplate (next_id (db e)) user (sp_sheetName s) in
    organization_templates d' = organization_templates (db e) ++ [t]
    /\ template_categories (t_id t) (template_earnings d')
       = allEarningsCategories (sp_records s)
    /\ template_categories (t_id t) (template_deductions d')
       = allDeductionsCategories (sp_records s).
Proof.
  intros user s e Hrec Hsel Hfresh. cbv zeta.
  pose proof (importSheet_cases user s e) as H.
  destruct (sp_records s) as [|r records] eqn:Er; [congruence|]. rewrite Hsel in H.
  rewrite H. rewrite <- Er in *.
  destruct (forEach_records_grows user (sp_records s) (templatePhase user s None e))
    as (G1 & G2 & G3 & _).
  rewrite G1, G2, G3. unfold templatePhase. cbn.
  apply Forall_app in Hfresh as [He Hd].
  assert (K : forall tbl cats,
             Forall (fun c => c_template_id c < next_id (db e)) tbl ->
             template_categories (next_id (db e)) (tbl ++ map (mkCategory (next_id (db e))) cats)
             = cats).
  { intros tbl cats Hlt.
    assert (Hf : filter (fun c => negb (c_template_id c =? next_id (db e))%nat) tbl = tbl).
    { induction Hlt as [|c tbl Hc _ IH]; cbn; [reflexivity|].
      destruct (Nat.eqb_spec (c_template_id c) (next_id (db e))); [lia|]. cbn. now rewrite IH. }
    rewrite <- Hf. apply template_categories_replaced. }
  split; [reflexivity|]. split; apply K; assumption.
Qed.

(** *** The counters *)

Lemma importSheet_counts user s e :
  let res := importSheet user s e in
  let n := List.length (filter write_bounds_ok (sp_records s)) in
  let t := if (List.length (sp_records s) =? 0)%nat then 0 else 1 in
  processedRecords (snd res) + totalRecordsImported e
  = processedRecords e + totalRecordsImported (snd res)
  /\ totalRecordsImported (snd res) <= totalRecordsImported e + n
  /\ totalTemplates (snd res) <= totalTemplates e + t
  /\ (forall u, fst res = Ok u ->
                totalRecordsImported (snd res) = totalRecordsImported e + n
                /\ totalTemplates (snd res) = totalTemplates e + t).
Proof.
  cbv zeta. pose proof (importSheet_cases user s e) as H.
  destruct (sp_records s) as [|r records] eqn:Er.
  { rewrite H. cbn. repeat split; lia. }
  destruct (select_template user (sp_sheetName s) (db e)) as [o|msg]; rewrite H.
  2:{ cbn. repeat split; try lia; discriminate. }
  destruct (forEach_records_counts user (r :: records) (templatePhase user s o e))
    as (C1 & C2 & C3 & C4).
  destruct (forEach_records_grows user (r :: records) (templatePhase user s o e))
    as (_ & _ & _ & _ & _ & _ & G).
  cbv zeta in C1, C2, C3, C4.
  set (res := forEach (r :: records) (importRecord user) (templatePhase user s o e)) in *.
  change (totalRecordsImported (templatePhase user s o e)) with (totalRecordsImported e) in *.
  change (processedRecords (templatePhase user s o e)) with (processedRecords e) in *.
  change (totalTemplates (templatePhase user s o e)) with (S (totalTemplates e)) in *.
  change (List.length (r :: records) =? 0)%nat with false. cbv iota.
  split; [lia|]. split; [lia|]. split; [lia|].
  intros u Hu. rewrite (C4 u Hu). lia.
Qed.

Lemma performImport_counts user l : forall e,
  let res := forEach l (importSheet user) e in
  let n := list_sum (map (fun s => List.length (filter write_bounds_ok (sp_records s))) l) in
  let t := List.length (filter (fun s => negb (List.length (sp_records s) =? 0)%nat) l) in
  processedRecords (snd res) + totalRecordsImported e
  = processedRecords e + totalRecordsImported (snd res)
  /\ totalRecordsImported (snd res) <= totalRecordsImported e + n
  /\ totalTemplates (snd res) <= totalTemplates e + t
  /\ (forall u, fst res = Ok u ->
                totalRecordsImported (snd res) = totalRecordsImported e + n
                /\ totalTemplates (snd res) = totalTemplates e + t).
Proof.
  induction l as [|s l IH]; intros e; cbv zeta; cbn [forEach map filter].
  - cbn. repeat split; lia.
  - unfold bind. destruct (importSheet_counts user s e) as (S1 & S2 & S3 & S4).
    cbv zeta in S1, S2, S3, S4.
    assert (Hlen : List.length
                     (if negb (List.length (sp_records s) =? 0)%nat
                      then s :: filter (fun s => negb (List.length (sp_records s) =? 0)%nat) l
                      else filter (fun s => negb (List.length (sp_records s) =? 0)%nat) l)
                   = (if (List.length (sp_records s) =? 0)%nat then 0 else 1)
                     + List.length
                         (filter (fun s => negb (List.length (sp_records s) =? 0)%nat) l)).
    { destruct (List.length (sp_records s) =? 0)%nat; reflexivity. }
    rewrite Hlen. clear Hlen. unfold list_sum. cbn [fold_right]. fold list_sum.
    fold (list_sum (map (fun s => List.length (filter write_bounds_ok (sp_records s))) l)).
    destruct (importSheet user s e) as [[[]|msg] e1]; cbn [fst snd] in *.
    + destruct (IH e1) as (I1 & I2 & I3 & I4). cbv zeta in I1, I2, I3, I4.
      destruct (S4 tt eq_refl) as [S5 S6].
      split; [lia|]. split; [lia|]. split; [lia|].
      intros u Hu. destruct (I4 u Hu). lia.
    + split; [lia|]. split; [lia|]. split; [lia|]. discriminate.
Qed.

Lemma written_per_sheet (ok : ParsedRecord -> bool) l :
  list_sum (map (fun s => List.length (filter ok (sp_records s))) l)
  = List.length (filter ok (flat_map sp_records l)).
Proof.
  induction l as [|s l IH]; [reflexivity|].
  cbn [map flat_map]. rewrite filter_app, length_app, <- IH. reflexivity.
Qed.

Lemma listed_per_sheet l :
  list_sum (map (fun s => List.length (sp_records s)) l)
  = List.length (flat_map sp_records l).
Proof.
  induction l as [|s l IH]; [reflexivity|].
  cbn [map flat_map]. rewrite length_app, <- IH. reflexivity.
Qed.

(** X12. The summary of an import that ran to the end: its total of
    records is the number of listed records within the executor's
    bounds, its total of templates the number of sheets with a listed
    record, while the per-sheet figures count every listed record,
    written or not; so the per-sheet figures can add up to more than the
    total, never to less. *)
Theorem summary_counts_written_records :
  forall user plan d s,
    importSummary user plan d = Some s ->
    sum_totalRecords s = List.length (filter write_bounds_ok (plan_records plan))
    /\ sum_totalTemplates s
       = List.length (filter (fun sh => negb (List.length (sp_records sh) =? 0)%nat)
                             (sheets plan))
    /\ list_sum (map recordsImported (sum_sheets s)) = List.length (plan_records plan)
    /\ sum_totalRecords s <= list_sum (map recordsImported (sum_sheets s)).
Proof.
  intros user plan d s. unfold importSummary, performImport.
  destruct (performImport_counts user (sheets plan) (exec0 d)) as (_ & _ & _ & C).
  cbv zeta in C.
  destruct (forEach (sheets plan) (importSheet user) (exec0 d)) as [[[]|msg] e];
    [|discriminate].
  intros [= <-]. cbn [sum_totalRecords sum_totalTemplates sum_sheets].
  destruct (C tt eq_refl) as [C1 C2].
  cbn [fst snd exec0 totalRecordsImported totalTemplates] in C1, C2.
  rewrite written_per_sheet in C1.
  assert (Hsum : list_sum (map recordsImported (sheetsFromPlan plan))
                 = List.length (plan_records plan)).
  { unfold sheetsFromPlan. rewrite map_map. cbn [recordsImported]. apply listed_per_sheet. }
  split; [exact C1|]. split; [exact C2|]. split; [exact Hsum|].
  rewrite Hsum, C1. apply filter_length_le.
Qed.

(** *** The progress counter and the salary table *)

(** The upsert adds at most one salary row, and none when it refuses. *)
Lemma upsert_rows user org m y te td net gross d :
  let res := upsert_salary_record user org m y te td net gross d in
  match fst res with
  | Ok _ => List.length (salary_records (snd res)) <= S (List.length (salary_records d))
  | Err _ => List.length (salary_records (snd res)) = List.length (salary_records d)
  end.
Proof.
  cbv zeta. unfold upsert_salary_record.
  destruct (as_integer m) as [mz|]; [|reflexivity].
  destruct (as_integer y) as [yz|]; [|reflexivity].
  destruct (negb _); [reflexivity|].
  destruct (negb _); [reflexivity|].
  destruct (negb _); [reflexivity|].
  destruct (negb _); [reflexivity|].
  destruct (find _ _); cbn; rewrite ?length_map, ?length_app; cbn; lia.
Qed.

Lemma importRecord_rows user r e :
  let e' := snd (importRecord user r e) in
  List.length (salary_records (db e')) + processedRecords e
  <= List.length (salary_records (db e)) + processedRecords e'.
Proof.
  cbv zeta. pose proof (importRecord_cases user r e) as H.
  destruct (write_bounds_ok r); [|rewrite H; cbn [snd]; lia].
  pose proof (upsert_rows user (organization r) (month r) (year r) (totalEarnings r)
                (totalDeductions r) (netSalary r) (totalEarnings r) (db e)) as U.
  cbv zeta in U.
  destruct (upsert_salary_record _ _ _ _ _ _ _ _ _) as [[row|msg] d'];
    rewrite H; cbn [fst snd] in *; cbn; lia.
Qed.

Lemma forEach_records_rows user records : forall e,
  let e' := snd (forEach records (importRecord user) e) in
  List.length (salary_records (db e')) + processedRecords e
  <= List.length (salary_records (db e)) + processedRecords e'.
Proof.
  induction records as [|r records IH]; intros e; cbv zeta; cbn [forEach]; [cbn; lia|].
  unfold bind. pose proof (importRecord_rows user r e) as H. cbv zeta in H.
  destruct (importRecord user r e) as [[[]|msg] e1]; cbn [snd] in *; [|exact H].
  specialize (IH e1). cbv zeta in IH. lia.
Qed.

Lemma templatePhase_rows user s o e :
  salary_records (db (templatePhase user s o e)) = salary_records (db e)
  /\ processedRecords (templatePhase user s o e) = processedRecords e.
Proof. unfold templatePhase. destruct o as [t|]; split; reflexivity. Qed.

Lemma importSheet_rows user s e :
  let e' := snd (importSheet user s e) in
  List.length (salary_records (db e')) + processedRecords e
  <= List.length (salary_records (db e)) + processedRecords e'.
Proof.
  cbv zeta. pose proof (importSheet_cases user s e) as H.
  destruct (sp_records s) as [|r records]; [rewrite H; cbn [snd]; lia|].
  destruct (select_template user (sp_sheetName s) (db e)) as [o|msg];
    rewrite H; [|cbn [snd]; lia].
  pose proof (forEach_records_rows user (r :: records) (templatePhase user s o e)) as F.
  cbv zeta in F. destruct (templatePhase_rows user s o e) as [T1 T2].
  rewrite T1, T2 in F. exact F.
Qed.

Lemma performImport_rows user l : forall e,
  let e' := snd (forEach l (importSheet user) e) in
  List.length (salary_records (db e')) + processedRecords e
  <= List.length (salary_records (db e)) + processedRecords e'.
Proof.
  induction l as [|s l IH]; intros e; cbv zeta; cbn [forEach]; [cbn; lia|].
  unfold bind. pose proof (importSheet_rows user s e) as H. cbv zeta in H.
  destruct (importSheet user s e) as [[[]|msg] e1]; cbn [snd] in *; [|exact H].
  specialize (IH e1). cbv zeta in IH. lia.
Qed.

(** X13. While a plan built from a workbook is imported, the progress
    counter moves with the writes: at the end of the run, however it
    ends, the salary table has gained at most as many rows as the
    counter shows and the counter does not exceed the plan's total; and
    when the run succeeds the counter is the number of listed records
    within the write bounds. *)
Theorem progress_stays_within_the_plan_total :
  forall Number_toString wb user d,
    let plan := buildPlan Number_toString wb in
    let e := snd (performImport user plan d) in
    List.length (salary_records (db e)) <= List.length (salary_records d) + processedRecords e
    /\ processedRecords e <= totalRecordsToImport plan
    /\ (fst (performImport user plan d) = Ok tt ->
        processedRecords e = List.length (filter write_bounds_ok (plan_records plan))).
Proof.
  intros N wb user d. cbv zeta. unfold performImport.
  pose proof (performImport_rows user (sheets (buildPlan N wb)) (exec0 d)) as R.
  destruct (performImport_counts user (sheets (buildPlan N wb)) (exec0 d))
    as (C1 & C2 & _ & C4).
  cbv zeta in R, C1, C2, C4.
  cbn [exec0 totalRecordsImported processedRecords db] in R, C1, C2, C4.
  rewrite written_per_sheet in C2, C4.
  split; [lia|]. split.
  - assert (Htot : totalRecordsToImport (buildPlan N wb)
                   = List.length (flat_map sp_records (sheets (buildPlan N wb)))).
    { unfold buildPlan. rewrite (buildPlan_fold N wb plan0).
      cbn [sheets totalRecordsToImport plan0 app Nat.add].
      rewrite <- listed_per_sheet, map_map. reflexivity. }
    rewrite Htot.
    pose proof (filter_length_le write_bounds_ok
                  (flat_map sp_records (sheets (buildPlan N wb)))). lia.
  - intros Hok. destruct (C4 tt Hok) as [C5 _]. unfold plan_records. lia.
Qed.

(** *** The same month twice *)

Lemma upsert_within_bounds user org m y te td net gross d :
  (1 <=? m)%Z && (m <=? 12)%Z = true ->
  (2000 <=? y)%Z && (y <=? 2100)%Z = true ->
  isFinite te = true -> isFinite td = true ->
  isFinite net = true -> isFinite gross = true ->
  fits_numeric te = true -> fits_numeric td = true ->
  fits_numeric net = true -> fits_numeric gross = true ->
  upsert_salary_record user org (ofZ m) (ofZ y) te td net gross d
  = match find (same_key user m y) (salary_records d) with
    | Some old =>
        let row := mkSalary (s_id old) user (Some org) m y
                     (round2 te) (round2 td) (round2 net) (round2 gross) in
        (Ok row,
         set_salary_records d
           (map (fun s => if same_key user m y s then row else s) (salary_records d)))
    | None =>
        let row := mkSalary (next_id d) user (Some org) m y
                     (round2 te) (round2 td) (round2 net) (round2 gross) in
        (Ok row, bump_id (set_salary_records d (salary_records d ++ [row])))
    end.
Proof.
  intros Hm Hy Hte Htd Hnet Hgross Fte Ftd Fnet Fgross. unfold upsert_salary_record.
  rewrite !ExecutorFacts.as_integer_ofZ, Hte, Htd, Hnet, Hgross, Fte, Ftd, Fnet, Fgross,
    Hm, Hy.
  reflexivity.
Qed.

(** X25. Two listed records of the same month and year, both within
    the executor's guards and with a net salary that its column takes,
    for a month the store does not hold yet, end as one salary record: it
    carries the organization and the totals of the second record (as the
    numeric(12,2) columns keep them), the line items of both records hang
    on it, and the counter of imported records has advanced by two. *)
Theorem same_month_twice_gives_one_row_with_both_item_lists :
  forall user r1 r2 e m y,
    write_bounds_ok r1 = true -> write_bounds_ok r2 = true ->
    fits_numeric (netSalary r1) = true -> fits_numeric (netSalary r2) = true ->
    month r1 = ofZ m -> year r1 = ofZ y ->
    month r2 = ofZ m -> year r2 = ofZ y ->
    find (same_key user m y) (salary_records (db e)) = None ->
    let id := next_id (db e) in
    let e2 := snd (forEach [r1; r2] (importRecord user) e) in
    salary_records (db e2)
    = salary_records (db e)
      ++ [mkSalary id user (Some (organization r2)) m y
            (round2 (totalEarnings r2)) (round2 (totalDeductions r2))
            (round2 (netSalary r2)) (round2 (totalEarnings r2))]
    /\ earnings_tbl (db e2)
       = earnings_tbl (db e) ++ stored_rows id (earnings r1) ++ stored_rows id (earnings r2)
    /\ deductions_tbl (db e2)
       = deductions_tbl (db e)
         ++ stored_rows id (deductions r1) ++ stored_rows id (deductions r2)
    /\ totalRecordsImported e2 = totalRecordsImported e + 2.
Proof.
  intros user r1 r2 e m y Hok1 Hok2 F1 F2 Hm1 Hy1 Hm2 Hy2 Hnone. cbv zeta.
  destruct (ExecutorFacts.write_bounds_facts r1 m y Hok1 Hm1 Hy1)
    as (A1 & A2 & A3 & A4 & A5 & A6 & A7 & _).
  destruct (ExecutorFacts.write_bounds_facts r2 m y Hok2 Hm2 Hy2)
    as (B1 & B2 & B3 & B4 & B5 & B6 & B7 & _).
  pose proof (importRecord_cases user r1 e) as C1.
  rewrite Hok1, Hm1, Hy1,
    (upsert_within_bounds _ _ _ _ _ _ _ _ _ A1 A2 A3 A4 A5 A3 A6 A7 F1 A6), Hnone in C1.
  cbv beta iota zeta in C1.
  set (row1 := mkSalary (next_id (db e)) user (Some (organization r1)) m y
                 (round2 (totalEarnings r1)) (round2 (totalDeductions r1))
                 (round2 (netSalary r1)) (round2 (totalEarnings r1)))
    in C1.
  match type of C1 with _ = (_, ?x) => set (e1 := x) in C1 end.
  assert (Hkey : same_key user m y row1 = true).
  { unfold same_key. cbn. now rewrite String.eqb_refl, !Z.eqb_refl. }
  assert (Hfind : find (same_key user m y) (salary_records (db e1)) = Some row1).
  { subst e1. cbn. clear -Hnone Hkey.
    induction (salary_records (db e)) as [|s l IH]; cbn [app find] in *; [now rewrite Hkey|].
    destruct (same_key user m y s); [discriminate | now apply IH]. }
  pose proof (importRecord_cases user r2 e1) as C2.
  rewrite Hok2, Hm2, Hy2,
    (upsert_within_bounds _ _ _ _ _ _ _ _ _ B1 B2 B3 B4 B5 B3 B6 B7 F2 B6), Hfind in C2.
  cbv beta iota zeta in C2.
  assert (E : forEach [r1; r2] (importRecord user) e
              = (Ok tt, snd (importRecord user r2 e1))).
  { cbn [forEach]. unfold bind. rewrite C1, C2. reflexivity. }
  rewrite E, C2. clear E C1 C2. subst e1. cbn.
  split; [|split; [|split]].
  - rewrite map_app. cbn [map]. rewrite Hkey. f_equal.
    clear -Hnone. induction (salary_records (db e)) as [|s l IH]; [reflexivity|].
    cbn [find map] in *. destruct (same_key user m y s); [discriminate|].
    now rewrite IH.
  - now rewrite <- app_assoc.
  - now rewrite <- app_assoc.
  - lia.
Qed.

End ExecutorMore.

Lemma existing_template_is_replaced_witness :
  let s := mkSheetPlan "ACME" [january_v2] 0 in
  let e := Executor.exec0 store_with_acme in
  template_categories 0 (Store.template_earnings store_with_acme) = ["Basic"]
  /\ template_categories 0
       (Store.template_earnings (Executor.db (snd (Executor.importSheet "u" s e))))
     = ["HRA"].
Proof.
  cbv zeta. split; [reflexivity|].
  destruct (ExecutorMore.existing_template_is_replaced "u"
              (mkSheetPlan "ACME" [january_v2] 0) (Executor.exec0 store_with_acme)
              (Store.mkTemplate 0 "u" "ACME"))
    as (H & _); [discriminate | reflexivity | exact H].
Defined.

Lemma new_template_gets_the_sheet_categories_witness :
  let s := mkSheetPlan "ACME" [january_v1] 0 in
  let d' := Executor.db (snd (Executor.importSheet "u" s (Executor.exec0 Store.empty))) in
  Store.organization_templates d' = [Store.mkTemplate 0 "u" "ACME"]
  /\ template_categories 0 (Store.template_earnings d') = ["Basic"]
  /\ template_categories 0 (Store.template_deductions d') = ["Income Tax"].
Proof.
  cbv zeta.
  exact (ExecutorMore.new_template_gets_the_sheet_categories "u"
           (mkSheetPlan "ACME" [january_v1] 0) (Executor.exec0 Store.empty)
           ltac:(discriminate) eq_refl (Forall_nil _)).
Defined.

Lemma summary_counts_written_records_witness :
  exists s,
    importSummary "u" mixed_plan Store.empty = Some s
    /\ sum_totalRecords s = 2
    /\ list_sum (map recordsImported (sum_sheets s)) = 3.
Proof.
  destruct (importSummary "u" mixed_plan Store.empty) as [s|] eqn:E;
    [|vm_compute in E; discriminate].
  exists s. split; [reflexivity|].
  destruct (ExecutorMore.summary_counts_written_records "u" mixed_plan Store.empty s E)
    as (H1 & _ & H3 & _).
  split; [exact H1 | exact H3].
Defined.

Lemma same_month_twice_witness :
  let e2 := snd (Executor.forEach [january_v1; january_v2] (Executor.importRecord "u")
                   (Executor.exec0 Store.empty)) in
  map Store.s_organization (Store.salary_records (Executor.db e2)) = [Some "ACME"]
  /\ Store.earnings_tbl (Executor.db e2)
     = stored_rows 0 (earnings january_v1) ++ stored_rows 0 (earnings january_v2)
  /\ Executor.totalRecordsImported e2 = 2.
Proof.
  cbv zeta.
  destruct (ExecutorMore.same_month_twice_gives_one_row_with_both_item_lists "u"
              january_v1 january_v2 (Executor.exec0 Store.empty) 1 2025
              eq_refl eq_refl eq_refl eq_refl eq_refl eq_refl eq_refl eq_refl eq_refl)
    as (H1 & H2 & _ & H4).
  split; [now rewrite H1|]. split; [exact H2 | exact H4].
Defined.

(** * Further properties of the export *)

Module ExporterMore.
Import Exporter.

(** *** Organization names *)

Lemma trimStart_fixed s : trimStart (trimStart s) = trimStart s.
Proof.
  induction s as [|c s IH]; [reflexivity|]. cbn [trimStart].
  destruct (is_space c) eqn:E; [exact IH|]. cbn [trimStart]. now rewrite E.
Qed.

Lemma trimEnd_fixed s : trimEnd (trimEnd s) = trimEnd s.
Proof.
  induction s as [|c s IH]; [reflexivity|]. cbn [trimEnd].
  destruct (trimEnd s) as [|c' t] eqn:E.
  - destruct (is_space c) eqn:Ec; [reflexivity|]. cbn [trimEnd]. now rewrite Ec.
  - cbn [trimEnd]. cbn [trimEnd] in IH. now rewrite IH.
Qed.

Lemma trimStart_trimEnd s : trimStart s = s -> trimStart (trimEnd s) = trimEnd s.
Proof.
  destruct s as [|c s]; [reflexivity|]. cbn [trimStart].
  destruct (is_space c) eqn:Ec.
  - intros H. exfalso.
    assert (Hlen : String.length (trimStart s) <= String.length s).
    { clear. induction s as [|c' s IH]; cbn; [auto|]. destruct (is_space c'); cbn; lia. }
    rewrite H in Hlen. cbn in Hlen. lia.
  - intros _. cbn [trimEnd]. destruct (trimEnd s); rewrite ?Ec; cbn [trimStart]; now rewrite Ec.
Qed.

Lemma trim_fixed s : trim (trim s) = trim s.
Proof.
  unfold trim. rewrite (trimStart_trimEnd (trimStart s)) by apply trimStart_fixed.
  apply trimEnd_fixed.
Qed.

(** X14. The name under which an organization is exported is never
    empty and is its own normal form, so that exporting what was
    imported from an export groups the records as before; and the
    default that line 723 applies before normalizing changes nothing. *)
Theorem normalized_name_is_stable :
  forall o,
    normalizeOrgName (Some (normalizeOrgName o)) = normalizeOrgName o
    /\ normalizeOrgName o <> ""
    /\ normalizeOrgName (Some (org_or_default o)) = normalizeOrgName o.
Proof.
  intros o.
  assert (Hdef : normalizeOrgName (Some (org_or_default o)) = normalizeOrgName o).
  { destruct o as [s|]; [|reflexivity]. cbn [org_or_default].
    destruct (String.eqb_spec s ""); [now subst | reflexivity]. }
  split; [|split; [|exact Hdef]].
  - unfold normalizeOrgName at 2 3.
    set (t := trim match o with Some s => s | None => "" end).
    assert (Ht : trim t = t) by apply trim_fixed.
    destruct (String.eqb t "") eqn:E0; [reflexivity|].
    destruct (includes "TATA CONSULTANCY" (toUpperCase t) || String.eqb (toUpperCase t) "TCS")
      eqn:E1; [reflexivity|].
    destruct (includes "NATWEST" (toUpperCase t)
              || includes "NATIONAL WESTMINSTER" (toUpperCase t)) eqn:E2; [reflexivity|].
    destruct (includes "RBS" (toUpperCase t)
              || includes "ROYAL BANK OF SCOTLAND" (toUpperCase t)) eqn:E3; [reflexivity|].
    destruct (includes "CITI" (toUpperCase t) || includes "CITIBANK" (toUpperCase t)) eqn:E4;
      [reflexivity|].
    unfold normalizeOrgName. rewrite Ht, E0, E1, E2, E3, E4. reflexivity.
  - unfold normalizeOrgName.
    destruct (String.eqb (trim _) "") eqn:E0; [discriminate|].
    repeat (match goal with |- context [if ?b then _ else _] => destruct b end;
            [discriminate|]).
    intros H. rewrite H in E0. discriminate.
Qed.

(** *** Rows *)

Lemma month_name_range m name : month_name m = Some name -> (1 <= m <= 12)%Z.
Proof.
  unfold month_name. destruct (m - 1 <? 0)%Z eqn:E; [discriminate|].
  apply Z.ltb_ge in E. intros H.
  assert (Hlt : Z.to_nat (m - 1) < List.length MONTHS).
  { apply nth_error_Some. congruence. }
  cbn in Hlt. lia.
Qed.

(** X15. The export writes a row exactly for the records whose month is
    between 1 and 12; the row starts with a label that the importer's
    parseMonthYear reads back as the record's month and year, whatever
    the year. *)
Theorem exported_label_is_read_back :
  forall earningCats deductionCats r,
    ((1 <= f_month r <= 12)%Z ->
       exists label rest,
         export_row earningCats deductionCats r = Some (CStr label :: rest)
         /\ parseMonthYear label = Some (ofZ (f_month r), ofZ (f_year r)))
    /\ (~ (1 <= f_month r <= 12)%Z -> export_row earningCats deductionCats r = None).
Proof.
  intros E D r. split.
  - intros Hm.
    destruct (LabelText.month_label_parses (f_month r) (f_year r) Hm) as (name & Hn & _ & Hp).
    unfold export_row. rewrite Hn. eexists _, _. split; [reflexivity | exact Hp].
  - intros Hm. unfold export_row.
    destruct (month_name (f_month r)) as [name|] eqn:Hn; [|reflexivity].
    exfalso. eapply Hm, month_name_range, Hn.
Qed.

(** *** Groups *)

Lemma count_get_set m c v c' :
  count_get (count_set m c v) c' = if String.eqb c c' then v else count_get m c'.
Proof.
  induction m as [|[k w] m IH]; cbn [count_set count_get]; [reflexivity|].
  destruct (String.eqb_spec k c) as [->|Hne]; cbn [count_get].
  - destruct (String.eqb c c'); reflexivity.
  - rewrite IH. destruct (String.eqb_spec k c') as [->|Hne'].
    + destruct (String.eqb_spec c c'); [congruence | reflexivity].
    + reflexivity.
Qed.

Lemma add_earnings_counts l : forall o,
  let o' := fold_left (fun o e =>
                 mkOrgData (od_records o) (Executor.set_add (earningCategories o) (category e))
                   (deductionCategories o)
                   (count_set (earningCounts o) (category e)
                      (count_get (earningCounts o) (category e) + 1))
                   (deductionCounts o)) l o in
  deductionCounts o' = deductionCounts o
  /\ forall c, count_get (earningCounts o') c
               = count_get (earningCounts o) c
                 + List.length (filter (fun e => String.eqb (category e) c) l).
Proof.
  induction l as [|e l IH]; intros o; cbv zeta; cbn [fold_left filter List.length].
  - split; [reflexivity | intros c; lia].
  - match goal with |- context [fold_left _ l ?o1] => destruct (IH o1) as [H1 H2] end.
    cbv zeta in H1, H2. split; [exact H1|]. intros c. rewrite H2.
    cbn [earningCounts]. rewrite count_get_set.
    destruct (String.eqb_spec (category e) c) as [->|Hne]; cbn [List.length]; lia.
Qed.

Lemma add_deductions_counts l : forall o,
  let o' := fold_left (fun o e =>
                 mkOrgData (od_records o) (earningCategories o)
                   (Executor.set_add (deductionCategories o) (category e))
                   (earningCounts o)
                   (count_set (deductionCounts o) (category e)
                      (count_get (deductionCounts o) (category e) + 1))) l o in
  earningCounts o' = earningCounts o
  /\ forall c, count_get (deductionCounts o') c
               = count_get (deductionCounts o) c
                 + List.length (filter (fun e => String.eqb (category e) c) l).
Proof.
  induction l as [|e l IH]; intros o; cbv zeta; cbn [fold_left filter List.length].
  - split; [reflexivity | intros c; lia].
  - match goal with |- context [fold_left _ l ?o1] => destruct (IH o1) as [H1 H2] end.
    cbv zeta in H1, H2. split; [exact H1|]. intros c. rewrite H2.
    cbn [deductionCounts]. rewrite count_get_set.
    destruct (String.eqb_spec (category e) c) as [->|Hne]; cbn [List.length]; lia.
Qed.

Lemma occurrences_snoc items recs r c :
  occurrences items (recs ++ [r]) c
  = occurrences items recs c
    + List.length (filter (fun e => String.eqb (category e) c) (items r)).
Proof.
  unfold occurrences. rewrite flat_map_app, filter_app, length_app.
  cbn [flat_map]. now rewrite app_nil_r.
Qed.

Lemma In_category_count (l : list LineItem) c :
  In c (map category l) <-> 1 <= List.length (filter (fun e => String.eqb (category e) c) l).
Proof.
  induction l as [|e l IH]; cbn [map In filter List.length]; [lia|].
  destruct (String.eqb_spec (category e) c) as [->|Hne]; cbn [List.length].
  - split; [lia | auto].
  - rewrite IH. split; [intros [H | H]; [congruence | exact H] | auto].
Qed.

Lemma counts_ok_empty : counts_ok orgData0.
Proof. intros c. cbn. repeat split; try lia; intros []. Qed.

Lemma add_record_counts od r : counts_ok od -> counts_ok (add_record od r).
Proof.
  intros Hok c. destruct (Hok c) as (K1 & K2 & K3 & K4).
  destruct (Grouping.add_record_spec od r) as (R & Ce & Cd & _).
  rewrite R, !occurrences_snoc, (Ce c), (Cd c), K3, K4, !In_category_count.
  unfold add_record.
  match goal with |- context [fold_left ?fd (f_deductions r) (fold_left ?fe (f_earnings r) ?o1)] =>
    destruct (add_deductions_counts (f_deductions r) (fold_left fe (f_earnings r) o1))
      as [D1 D2];
    destruct (add_earnings_counts (f_earnings r) o1) as [E1 E2]
  end.
  cbv zeta in D1, D2, E1, E2. rewrite D1, (D2 c), E1, (E2 c). cbn [earningCounts deductionCounts].
  rewrite K1, K2. repeat split; lia.
Qed.

Lemma orgMap_update_In m k r g :
  NoDup (map fst m) ->
  In g (orgMap_update m k r) ->
  (fst g <> k /\ In g m)
  \/ (fst g = k
      /\ exists od, snd g = add_record od r
                    /\ (In (k, od) m \/ (od = orgData0 /\ ~ In k (map fst m)))).
Proof.
  induction m as [|[k0 od0] m IH]; cbn [orgMap_update map]; intros Hnd Hin.
  - destruct Hin as [<- | []]. right. split; [reflexivity|]. exists orgData0. auto.
  - inversion Hnd as [|? ? Hk0 Hnd']; subst.
    destruct (String.eqb_spec k0 k) as [->|Hne].
    + destruct Hin as [<- | Hin].
      * right. split; [reflexivity|]. exists od0. split; [reflexivity|]. left. now left.
      * left. split; [|now right]. intros E. apply Hk0. rewrite <- E. now apply in_map.
    + destruct Hin as [<- | Hin]; [left; split; [exact Hne | now left]|].
      destruct (IH Hnd' Hin) as [[H1 H2] | (H1 & od & H2 & [H3 | [H3 H4]])].
      * left. split; [exact H1 | now right].
      * right. split; [exact H1|]. exists od. split; [exact H2|]. left. now right.
      * right. split; [exact H1|]. exists od. split; [exact H2|]. right.
        split; [exact H3|]. cbn [map In fst]. intros [E | E]; [congruence | contradiction].
Qed.

Lemma filter_snoc {A} (p : A -> bool) l x :
  filter p (l ++ [x]) = filter p l ++ (if p x then [x] else []).
Proof. now rewrite filter_app. Qed.

Lemma grouped_step m recs r :
  grouped m recs -> grouped (orgMap_update m (org_key r) r) (recs ++ [r]).
Proof.
  intros (Hnd & Hall & Hg). unfold grouped.
  pose proof (Grouping.orgMap_update_keys m (org_key r) r) as Hkeys.
  split; [now apply Grouping.orgMap_update_NoDup|]. split.
  - intros r' Hr'. rewrite Hkeys.
    destruct (list_includes (org_key r) (map fst m)) eqn:E.
    + apply in_app_iff in Hr' as [Hr' | [<- | []]]; [now apply Hall|].
      now apply RowRoundTrip.list_includes_In.
    + apply in_app_iff. apply in_app_iff in Hr' as [Hr' | [<- | []]];
        [left; now apply Hall | right; now left].
  - apply Forall_forall. intros g Hin. rewrite Forall_forall in Hg.
    rewrite map_app, filter_snoc. cbn [map].
    destruct (orgMap_update_In m (org_key r) r g Hnd Hin)
      as [[Hne Hm] | (Hk & od & Hod & [Hm | [H0 Hfresh]])].
    + destruct (Hg g Hm) as (G1 & G2 & G3).
      split; [apply in_app_iff; now left|]. split; [|exact G3].
      destruct (String.eqb_spec (org_key r) (fst g)); [congruence|].
      now rewrite app_nil_r.
    + destruct (Hg _ Hm) as (G1 & G2 & G3). cbn [fst snd] in G1, G2, G3.
      rewrite Hk, Hod, String.eqb_refl.
      split; [apply in_app_iff; right; now left|].
      split; [|now apply add_record_counts].
      destruct (Grouping.add_record_spec od r) as (R & _). now rewrite R, G2.
    + rewrite Hk, Hod, H0, String.eqb_refl.
      split; [apply in_app_iff; right; now left|].
      split; [|apply add_record_counts, counts_ok_empty].
      destruct (Grouping.add_record_spec orgData0 r) as (R & _). rewrite R. cbn [od_records app].
      replace (filter (fun r0 => String.eqb (org_key r0) (org_key r)) recs) with (@nil Fetched);
        [reflexivity|].
      symmetry. clear -Hall Hfresh. induction recs as [|r0 recs IH]; [reflexivity|].
      cbn [filter]. destruct (String.eqb_spec (org_key r0) (org_key r)) as [E|E].
      * exfalso. apply Hfresh. rewrite <- E. apply Hall. now left.
      * apply IH. intros r' Hr'. apply Hall. now right.
Qed.

Lemma grouped_fold recs2 : forall m recs1,
  grouped m recs1 ->
  grouped (fold_left (fun m record => orgMap_update m (org_key record) record) recs2 m)
          (recs1 ++ recs2).
Proof.
  induction recs2 as [|r recs2 IH]; intros m recs1 H; cbn [fold_left].
  - now rewrite app_nil_r.
  - replace (recs1 ++ r :: recs2) with ((recs1 ++ [r]) ++ recs2)
      by now rewrite <- app_assoc.
    apply IH, grouped_step, H.
Qed.

Lemma build_orgMap_grouped recs : grouped (build_orgMap recs) recs.
Proof.
  apply (grouped_fold recs [] []). unfold grouped.
  split; [constructor|]. split; [intros r []|constructor].
Qed.

(** X16. The export groups the records by normalized organization
    name: the groups have distinct names, every record is in the group
    of its name, and a group holds exactly the records of its name, in
    the order of the query result; no group is empty. *)
Theorem groups_partition_the_records :
  forall recs,
    NoDup (map fst (build_orgMap recs))
    /\ (forall r, In r recs -> In (org_key r) (map fst (build_orgMap recs)))
    /\ Forall (fun g =>
                 od_records (snd g) = filter (fun r => String.eqb (org_key r) (fst g)) recs
                 /\ od_records (snd g) <> [])
              (build_orgMap recs).
Proof.
  intros recs. destruct (build_orgMap_grouped recs) as (H1 & H2 & H3).
  split; [exact H1|]. split; [exact H2|].
  eapply Forall_impl; [|exact H3]. cbn beta. intros g (G1 & G2 & _).
  split; [exact G2|]. rewrite G2.
  apply in_map_iff in G1 as (r & Hr & Hin). intros E.
  assert (Hr' : In r (filter (fun r0 => String.eqb (org_key r0) (fst g)) recs)).
  { apply filter_In. split; [exact Hin|]. rewrite Hr. apply String.eqb_refl. }
  rewrite E in Hr'. exact Hr'.
Qed.

(** *** Sheets *)

Lemma sequence_Forall2 {A B} (f : A -> option B) l : forall rows,
  sequence (map f l) = Some rows -> Forall2 (fun x row => f x = Some row) l rows.
Proof.
  induction l as [|x l IH]; cbn [map sequence]; intros rows H.
  - injection H as <-. constructor.
  - destruct (f x) as [row|] eqn:E; [|discriminate].
    destruct (sequence (map f l)) as [rest|]; [|discriminate].
    injection H as <-. constructor; [exact E | now apply IH].
Qed.

Lemma export_sheet_inv opts od headers rows :
  export_sheet opts od = Some (headers, rows) ->
  headers = export_headers (earning_columns opts od) (deduction_columns opts od)
  /\ Forall2 (fun r row =>
                export_row (earning_columns opts od) (deduction_columns opts od) r = Some row)
             (sort by_year_month (od_records od)) rows.
Proof.
  unfold export_sheet. fold (earning_columns opts od) (deduction_columns opts od).
  destruct (sequence _) as [rs|] eqn:E; [|discriminate].
  intros [= <- <-]. split; [reflexivity|]. now apply sequence_Forall2.
Qed.

Lemma export_row_shape E D r row :
  export_row E D r = Some row ->
  List.length row = List.length (export_headers E D)
  /\ hd_error row = Some (CStr (label_of r))
  /\ (1 <= f_month r <= 12)%Z.
Proof.
  unfold export_row, label_of.
  destruct (month_name (f_month r)) as [name|] eqn:Hn; [|discriminate].
  intros [= <-]. split; [|split; [reflexivity | eapply month_name_range, Hn]].
  unfold export_headers. cbn [List.length]. rewrite !length_app, !length_map. reflexivity.
Qed.

Lemma by_year_month_true a b : by_year_month a b = true -> no_later a b.
Proof.
  unfold by_year_month, no_later.
  destruct (Z.eqb_spec (f_year a) (f_year b)); intros H; apply Z.leb_le in H; lia.
Qed.

Lemma by_year_month_false a b : by_year_month a b = false -> no_later b a.
Proof.
  unfold by_year_month, no_later.
  destruct (Z.eqb_spec (f_year a) (f_year b)); intros H; apply Z.leb_gt in H; lia.
Qed.

Lemma no_later_trans a b c : no_later a b -> no_later b c -> no_later a c.
Proof. unfold no_later. lia. Qed.

Lemma insert_sorted_chronological x l :
  StronglySorted no_later l -> StronglySorted no_later (insert_sorted by_year_month x l).
Proof.
  induction l as [|y t IH]; intros Hs; cbn [insert_sorted].
  - repeat constructor.
  - inversion Hs as [|? ? Ht Hy]; subst.
    destruct (by_year_month x y) eqn:E.
    + constructor; [exact Hs|]. apply by_year_month_true in E.
      constructor; [exact E|]. eapply Forall_impl; [|exact Hy].
      intros z Hz. eapply no_later_trans; eassumption.
    + constructor; [now apply IH|]. apply by_year_month_false in E.
      apply Forall_forall. intros z Hz.
      apply (Permutation_in _ (Grouping.insert_sorted_perm by_year_month x t)) in Hz.
      destruct Hz as [<- | Hz]; [exact E|]. rewrite Forall_forall in Hy. now apply Hy.
Qed.

Lemma sort_chronological l : StronglySorted no_later (sort by_year_month l).
Proof.
  induction l as [|x l IH]; cbn [sort]; [constructor|].
  now apply insert_sorted_chronological.
Qed.

(** X17. The data rows of an exported sheet are the rows of the
    group's records in chronological order: by year, and by month
    within a year. *)
Theorem exported_rows_are_chronological :
  forall opts od headers rows,
    export_sheet opts od = Some (headers, rows) ->
    exists sorted,
      Permutation sorted (od_records od)
      /\ StronglySorted no_later sorted
      /\ Forall2 (fun r row =>
                    export_row (earning_columns opts od) (deduction_columns opts od) r
                    = Some row
                    /\ hd_error row = Some (CStr (label_of r)))
                 sorted rows.
Proof.
  intros opts od headers rows H. apply export_sheet_inv in H as [_ H].
  exists (sort by_year_month (od_records od)).
  split; [apply Grouping.sort_perm|]. split; [apply sort_chronological|].
  eapply Forall2_impl; [|exact H]. cbn beta. intros r row Hr.
  split; [exact Hr | eapply export_row_shape, Hr].
Qed.

Lemma In_export_headers E D c :
  In c (export_headers E D) <-> In c fixed_headers \/ In c E \/ In c D.
Proof.
  unfold export_headers, fixed_headers. cbn [In]. rewrite !in_app_iff. cbn [In]. tauto.
Qed.

Lemma In_earning_columns opts od c :
  counts_ok od ->
  In c (earning_columns opts od)
  <-> threshold (includeRareEarningCategories opts)
      <= occurrences f_earnings (od_records od) c.
Proof.
  intros Hok. destruct (Hok c) as (K1 & _ & K3 & _).
  unfold earning_columns, threshold, RARE_CATEGORY_THRESHOLD.
  destruct (includeRareEarningCategories opts).
  - now rewrite Grouping.sort_In.
  - rewrite filter_In, Grouping.sort_In, K3, K1, Nat.leb_le. lia.
Qed.

Lemma In_deduction_columns opts od c :
  counts_ok od ->
  In c (deduction_columns opts od)
  <-> threshold (includeRareDeductionCategories opts)
      <= occurrences f_deductions (od_records od) c.
Proof.
  intros Hok. destruct (Hok c) as (_ & K2 & _ & K4).
  unfold deduction_columns, threshold, RARE_CATEGORY_THRESHOLD.
  destruct (includeRareDeductionCategories opts).
  - now rewrite Grouping.sort_In.
  - rewrite filter_In, Grouping.sort_In, K4, K2, Nat.leb_le. lia.
Qed.

(** X18. Which columns a group's sheet has: the four fixed headers,
    and a category when enough line items of the group's records carry
    it as an earning, or as a deduction; one line item is enough while
    rare categories are included, three are needed when they are
    not. *)
Theorem category_column_needs_enough_line_items :
  forall opts recs g headers rows,
    In g (build_orgMap recs) ->
    export_sheet opts (snd g) = Some (headers, rows) ->
    forall c,
      In c headers
      <-> In c fixed_headers
          \/ threshold (includeRareEarningCategories opts)
             <= occurrences f_earnings (od_records (snd g)) c
          \/ threshold (includeRareDeductionCategories opts)
             <= occurrences f_deductions (od_records (snd g)) c.
Proof.
  intros opts recs g headers rows Hg H c.
  destruct (build_orgMap_grouped recs) as (_ & _ & Hall).
  rewrite Forall_forall in Hall. destruct (Hall g Hg) as (_ & _ & Hok).
  apply export_sheet_inv in H as [-> _].
  now rewrite In_export_headers, In_earning_columns, In_deduction_columns.
Qed.

(** *** The workbook *)

Lemma substring_length_le n : forall s, String.length (substring 0 n s) <= n.
Proof.
  induction n as [|n IH]; intros [|c s]; cbn; try lia. specialize (IH s). lia.
Qed.

Lemma safeSheetName_length k :
  1 <= String.length (safeSheetName k) <= 31.
Proof.
  unfold safeSheetName. pose proof (substring_length_le 31 k) as H.
  destruct (String.eqb_spec (substring 0 31 k) "") as [E|E]; [cbn; lia|].
  destruct (substring 0 31 k); [congruence | cbn in *; lia].
Qed.

Lemma export_fold_None opts groups :
  fold_left (fun wb entry =>
               match wb with
               | None => None
               | Some b =>
                   match export_sheet opts (snd entry) with
                   | Some ws => book_append_sheet b ws (safeSheetName (fst entry))
                   | None => None
                   end
               end) groups None = None.
Proof. induction groups as [|g groups IH]; [reflexivity | exact IH]. Qed.

Lemma export_fold opts groups : forall acc book,
  fold_left (fun wb entry =>
               match wb with
               | None => None
               | Some b =>
                   match export_sheet opts (snd entry) with
                   | Some ws => book_append_sheet b ws (safeSheetName (fst entry))
                   | None => None
                   end
               end) groups (Some acc) = Some book ->
  exists sheets,
    book = acc ++ sheets
    /\ Forall2 (fun g sh => fst sh = safeSheetName (fst g)
                            /\ export_sheet opts (snd g) = Some (snd sh))
               groups sheets
    /\ (NoDup (map fst acc) -> NoDup (map fst book)).
Proof.
  induction groups as [|g groups IH]; intros acc book; cbn [fold_left].
  - intros [= <-]. exists []. rewrite app_nil_r. repeat split; [constructor | auto].
  - destruct (export_sheet opts (snd g)) as [ws|] eqn:Ews;
      [|rewrite export_fold_None; discriminate].
    unfold book_append_sheet.
    destruct (_ || _) eqn:Ename; [rewrite export_fold_None; discriminate|].
    apply orb_false_iff in Ename as [_ Ex].
    intros H. destruct (IH _ _ H) as (sheets & -> & HF & Hnd).
    exists ((safeSheetName (fst g), ws) :: sheets). rewrite <- app_assoc.
    split; [reflexivity|]. split; [constructor; [split; [reflexivity | exact Ews] | exact HF]|].
    intros Hacc. rewrite app_assoc. apply Hnd. rewrite map_app. cbn [map fst].
    eapply Permutation_NoDup; [apply Permutation_cons_append|].
    constructor; [|exact Hacc]. intros Hin.
    apply in_map_iff in Hin as (sh & Hsh & Hin).
    assert (Hex : existsb (fun s : string * Aoa => String.eqb (fst s) (safeSheetName (fst g))) acc
                  = true).
    { apply existsb_exists. exists sh. split; [exact Hin|]. rewrite Hsh. apply String.eqb_refl. }
    congruence.
Qed.

Lemma exportToExcel_inv opts recs book :
  exportToExcel opts recs = Some book ->
  NoDup (map fst book)
  /\ Forall2 (fun g sh => fst sh = safeSheetName (fst g)
                          /\ export_sheet opts (snd g) = Some (snd sh))
             (build_orgMap (filter_years opts recs)) book.
Proof.
  unfold exportToExcel. destruct recs as [|r0 recs0]; [discriminate|].
  set (recs := r0 :: recs0). destruct (filter_years opts recs) as [|r l] eqn:Ef; [discriminate|].
  intros H. apply export_fold in H as (sheets & -> & HF & Hnd).
  split; [apply Hnd; constructor | exact HF].
Qed.

(** X19. The shape of an exported workbook: one sheet per group, under
    distinct names of 1 to 31 characters; every sheet starts with the
    "Month Year" column and every data row has a cell for each
    header. *)
Theorem exported_workbook_shape :
  forall opts recs book,
    exportToExcel opts recs = Some book ->
    NoDup (map fst book)
    /\ List.length book = List.length (build_orgMap (filter_years opts recs))
    /\ Forall (fun sh =>
                 1 <= String.length (fst sh) <= 31
                 /\ hd_error (fst (snd sh)) = Some "Month Year"
                 /\ Forall (fun row => List.length row = List.length (fst (snd sh)))
                           (snd (snd sh)))
              book.
Proof.
  intros opts recs book H. apply exportToExcel_inv in H as [Hnd HF].
  split; [exact Hnd|]. split; [symmetry; eapply Forall2_length, HF|].
  clear Hnd. induction HF as [|g [name [headers rows]] groups book [Hname Hws] _ IH];
    constructor; [|exact IH].
  cbn [fst snd] in *. subst name. split; [apply safeSheetName_length|].
  apply export_sheet_inv in Hws as [-> Hrows]. split; [reflexivity|].
  clear -Hrows. induction Hrows as [|r row rs rows Hr _ IH]; constructor; [|exact IH].
  eapply export_row_shape, Hr.
Qed.

Lemma build_orgMap_records recs :
  Permutation (flat_map (fun g => od_records (snd g)) (build_orgMap recs)) recs.
Proof.
  unfold build_orgMap.
  change recs with ([] ++ recs) at 2.
  change (@nil Fetched) with (flat_map (fun g : string * OrgExportData => od_records (snd g)) [])
    at 1.
  generalize (@nil (string * OrgExportData)).
  induction recs as [|r recs IH]; intros m; cbn [fold_left].
  - now rewrite app_nil_r.
  - etransitivity; [apply IH|].
    etransitivity; [apply Permutation_app_tail, Grouping.orgMap_update_records|].
    rewrite <- app_assoc. reflexivity.
Qed.

(** X20. An export that is written has one data row for each record
    of the selected years, no more and no less: the rows of the
    workbook, sheet after sheet, are the rows of these records in some
    order, each with the record's month label; and every such record
    has a month between 1 and 12. *)
Theorem export_writes_one_row_per_record :
  forall opts recs book,
    exportToExcel opts recs = Some book ->
    (exists exported,
        Permutation exported (filter_years opts recs)
        /\ Forall2 (fun r row => hd_error row = Some (CStr (label_of r)))
                   exported (book_rows book))
    /\ List.length (book_rows book) = List.length (filter_years opts recs)
    /\ Forall (fun r => (1 <= f_month r <= 12)%Z) (filter_years opts recs).
Proof.
  intros opts recs book H. apply exportToExcel_inv in H as [_ HF].
  set (groups := build_orgMap (filter_years opts recs)) in *.
  assert (Hrows : Forall2 (fun r row => hd_error row = Some (CStr (label_of r))
                                        /\ (1 <= f_month r <= 12)%Z)
                          (flat_map (fun g => sort by_year_month (od_records (snd g))) groups)
                          (book_rows book)).
  { unfold book_rows. clear -HF.
    induction HF as [|g [name [headers rows]] gs book [_ Hws] _ IH]; cbn [flat_map];
      [constructor|].
    apply Forall2_app; [|exact IH]. cbn [snd] in *.
    apply export_sheet_inv in Hws as [_ Hrows].
    eapply Forall2_impl; [|exact Hrows]. cbn beta. intros r row Hr.
    apply export_row_shape in Hr. tauto. }
  assert (Hperm : Permutation
                    (flat_map (fun g => sort by_year_month (od_records (snd g))) groups)
                    (filter_years opts recs)).
  { etransitivity; [|apply build_orgMap_records]. fold groups.
    clear. induction groups as [|g gs IH]; cbn [flat_map]; [reflexivity|].
    apply Permutation_app; [apply Grouping.sort_perm | exact IH]. }
  split; [|split].
  - eexists. split; [exact Hperm|]. eapply Forall2_impl; [|exact Hrows]. cbn beta. tauto.
  - rewrite <- (Forall2_length Hrows). now apply Permutation_length.
  - apply Forall_forall. intros r Hr.
    apply (Permutation_in _ (Permutation_sym Hperm)) in Hr.
    clear -Hrows Hr. induction Hrows as [|r' row rs rows [_ Hm] _ IH]; [contradiction|].
    destruct Hr as [<- | Hr]; [exact Hm | now apply IH].
Qed.

End ExporterMore.

Lemma exported_label_is_read_back_witness :
  exists label rest,
    Exporter.export_row ["Basic"] [] acme_jan = Some (CStr label :: rest)
    /\ parseMonthYear label
       = Some (ofZ (Exporter.f_month acme_jan), ofZ (Exporter.f_year acme_jan)).
Proof.
  destruct (ExporterMore.exported_label_is_read_back ["Basic"] [] acme_jan) as [H _].
  apply H. vm_compute. split; discriminate.
Defined.

Lemma exported_rows_are_chronological_witness :
  exists headers rows,
    Exporter.export_sheet Exporter.defaults tcs_group = Some (headers, rows)
    /\ exists sorted,
         Permutation sorted (Exporter.od_records tcs_group)
         /\ StronglySorted no_later sorted
         /\ Forall2 (fun r row =>
                       Exporter.export_row (earning_columns Exporter.defaults tcs_group)
                         (deduction_columns Exporter.defaults tcs_group) r
                       = Some row
                       /\ hd_error row = Some (CStr (label_of r)))
                    sorted rows.
Proof.
  destruct (Exporter.export_sheet Exporter.defaults tcs_group) as [[headers rows]|] eqn:E;
    [|vm_compute in E; discriminate].
  exists headers, rows. split; [reflexivity|].
  exact (ExporterMore.exported_rows_are_chronological Exporter.defaults tcs_group headers rows E).
Defined.

Lemma category_column_needs_enough_line_items_witness :
  occurrences Exporter.f_earnings (Exporter.od_records tcs_group) "Basic" = 2
  /\ exists headers rows,
       Exporter.export_sheet no_rare tcs_group = Some (headers, rows)
       /\ ~ In "Basic" headers.
Proof.
  split; [reflexivity|].
  destruct (Exporter.export_sheet no_rare tcs_group) as [[headers rows]|] eqn:E;
    [|vm_compute in E; discriminate].
  exists headers, rows. split; [reflexivity|]. intros Hin.
  assert (Hg : In ("TCS", tcs_group) (Exporter.build_orgMap fetched_sample))
    by (left; reflexivity).
  apply (ExporterMore.category_column_needs_enough_line_items no_rare fetched_sample
           ("TCS", tcs_group) headers rows Hg E "Basic") in Hin.
  destruct Hin as [H | [H | H]].
  - cbn in H. intuition discriminate.
  - vm_compute in H. lia.
  - vm_compute in H. lia.
Defined.

Lemma exported_workbook_shape_witness :
  exists book,
    Exporter.exportToExcel Exporter.defaults fetched_sample = Some book
    /\ NoDup (map fst book)
    /\ List.length book = 2.
Proof.
  destruct (Exporter.exportToExcel Exporter.defaults fetched_sample) as [book|] eqn:E;
    [|vm_compute in E; discriminate].
  exists book. split; [reflexivity|].
  destruct (ExporterMore.exported_workbook_shape Exporter.defaults fetched_sample book E)
    as (H1 & H2 & _).
  split; [exact H1 | exact H2].
Defined.

Lemma export_writes_one_row_per_record_witness :
  exists book,
    Exporter.exportToExcel Exporter.defaults fetched_sample = Some book
    /\ List.length (book_rows book) = 3.
Proof.
  destruct (Exporter.exportToExcel Exporter.defaults fetched_sample) as [book|] eqn:E;
    [|vm_compute in E; discriminate].
  exists book. split; [reflexivity|].
  destruct (ExporterMore.export_writes_one_row_per_record Exporter.defaults fetched_sample
              book E) as (_ & H & _).
  exact H.
Defined.

(** * Further properties of the backup *)

Section BackupMore.
Import Backup.

Variable JSON_parse : string -> option Json.
Variable service_ok : list Call -> Call -> bool.

(** X21. A backup written by the export is accepted by the import
    when its file is within the size limit and parsing gives back what
    was serialized; the counts shown for confirmation are the numbers of
    exported salary records, templates, employment entries and budget
    entries, and 1 for the profile when there is one. *)
Theorem exported_backup_is_accepted :
  forall f exportedAt userId salaryRecords organizationTemplates employmentHistory
         profile budgetHistory,
    let payload := backupPayload exportedAt userId salaryRecords organizationTemplates
                     employmentHistory profile budgetHistory in
    (size f <= MAX_FILE_SIZE)%N ->
    JSON_parse (text f) = Some payload ->
    validate JSON_parse f = inl payload
    /\ c_totalSalaryRecords (counts_of payload) = List.length salaryRecords
    /\ c_totalTemplates (counts_of payload) = List.length organizationTemplates
    /\ c_totalEmploymentHistory (counts_of payload) = List.length employmentHistory
    /\ c_totalBudgetHistory (counts_of payload) = List.length budgetHistory
    /\ c_totalProfileEntries (counts_of payload)
       = match profile with Some _ => 1 | None => 0 end.
Proof.
  intros f exportedAt userId sal tpl emp profile bud payload Hsize Hparse.
  split.
  - unfold validate. apply N.ltb_ge in Hsize. rewrite Hsize, Hparse. reflexivity.
  - destruct profile; repeat split.
Qed.

(** *** The restore sequence *)

Lemma run_program_finished prog : forall sent0 sent,
  run_program service_ok prog sent0 = (sent, true) ->
  sent = sent0 ++ calls_of prog /\ no_raise prog = true.
Proof.
  induction prog as [|[c|] prog IH]; intros sent0 sent; cbn [run_program].
  - intros [= <-]. cbn. now rewrite app_nil_r.
  - destruct (service_ok sent0 c); [|discriminate].
    intros H. apply IH in H as [-> Hnr]. cbn. now rewrite <- app_assoc.
  - discriminate.
Qed.

Lemma restore_program_head data :
  exists rest,
    restore_program data = Do wipe :: Do clear_budget :: rest
    /\ forall c, In (Do c) rest -> is_write c = true.
Proof.
  unfold restore_program. cbn [app]. eexists. split; [reflexivity|].
  intros c Hin.
  assert (Hnested : forall t j, In (Do c) (restore_nested t j) -> is_write c = true).
  { intros t j. unfold restore_nested. destruct (array_of j) as [[|x l]|]; try contradiction.
    destruct (existsb is_null (x :: l)); intros [H | []]; [discriminate | now injection H as <-]. }
  assert (Hitems : forall t e d ek dk l,
             In (Do c) (flat_map (restore_with_items t e d ek dk) l) -> is_write c = true).
  { intros t e d ek dk l H. apply in_flat_map in H as (item & _ & H).
    assert (Hitem : restore_with_items t e d ek dk item = [Raise]
                    \/ restore_with_items t e d ek dk item
                       = [Do (Insert t item)] ++ restore_nested e (get item ek)
                         ++ restore_nested d (get item dk))
      by (destruct item; auto).
    destruct Hitem as [Hitem | Hitem]; rewrite Hitem in H.
    - destruct H as [H | []]. discriminate.
    - cbn [app In] in H. rewrite in_app_iff in H.
      destruct H as [H | [H | H]];
        [now injection H as <- | exact (Hnested e _ H) | exact (Hnested d _ H)]. }
  assert (Hplain : forall t l, In (Do c) (flat_map (restore_plain t) l) -> is_write c = true).
  { intros t l H. apply in_flat_map in H as (item & _ & H).
    unfold restore_plain in H.
    destruct item; destruct H as [H | []]; try discriminate; now injection H as <-. }
  unfold for_array in Hin.
  repeat (apply in_app_iff in Hin as [Hin | Hin]).
  - destruct (array_of _); [eapply Hitems, Hin | contradiction].
  - destruct (array_of _); [eapply Hitems, Hin | contradiction].
  - destruct (array_of _); [eapply Hplain, Hin | contradiction].
  - destruct (array_of _); [eapply Hplain, Hin | contradiction].
  - destruct (profile_object data); [|contradiction].
    destruct (get data "profile"); [|contradiction].
    destruct Hin as [H | []]. now injection H as <-.
Qed.

(** X22. A restore writes nothing unless both clearing requests were
    sent and accepted: the wipe is sent first and the deletion of the
    budget history second; when the service refuses one of them nothing
    is sent after it, and every row that is written was sent after both
    were accepted. *)
Theorem nothing_is_restored_unless_both_clears_succeed :
  forall data sent0,
    exists new,
      fst (run_program service_ok (restore_program data) sent0) = sent0 ++ new
      /\ hd_error new = Some wipe
      /\ (service_ok sent0 wipe = false -> new = [wipe])
      /\ (service_ok sent0 wipe = true ->
          service_ok (sent0 ++ [wipe]) clear_budget = false ->
          new = [wipe; clear_budget])
      /\ (forall c, In c new -> is_write c = true ->
            service_ok sent0 wipe = true
            /\ service_ok (sent0 ++ [wipe]) clear_budget = true
            /\ exists rows, new = wipe :: clear_budget :: rows).
Proof.
  intros data sent0.
  destruct (restore_program_head data) as (rest & -> & Hrest).
  cbn [run_program].
  destruct (service_ok sent0 wipe) eqn:Hw.
  - destruct (service_ok (sent0 ++ [wipe]) clear_budget) eqn:Hb.
    + destruct (run_program_prefix service_ok rest ((sent0 ++ [wipe]) ++ [clear_budget]))
        as (rows & Hfst).
      exists (wipe :: clear_budget :: rows). rewrite Hfst, <- !app_assoc.
      split; [reflexivity|]. split; [reflexivity|].
      split; [discriminate|]. split; [discriminate|].
      intros c _ _. eauto.
    + exists [wipe; clear_budget]. cbn [fst]. rewrite <- app_assoc.
      split; [reflexivity|]. split; [reflexivity|].
      split; [discriminate|]. split; [reflexivity|].
      intros c [<- | [<- | []]]; discriminate.
  - exists [wipe]. cbn [fst].
    split; [reflexivity|]. split; [reflexivity|].
    split; [reflexivity|]. split; [discriminate|].
    intros c [<- | []]; discriminate.
Qed.

Lemma calls_of_app a b : calls_of (a ++ b) = calls_of a ++ calls_of b.
Proof. unfold calls_of. apply flat_map_app. Qed.

Lemma no_raise_app a b : no_raise (a ++ b) = no_raise a && no_raise b.
Proof. unfold no_raise. apply forallb_app. Qed.

Lemma inserts_into_app tbl a b :
  inserts_into tbl (a ++ b) = inserts_into tbl a + inserts_into tbl b.
Proof. unfold inserts_into. now rewrite filter_app, length_app. Qed.

Lemma upserts_on_app tbl a b :
  upserts_on tbl (a ++ b) = upserts_on tbl a + upserts_on tbl b.
Proof. unfold upserts_on. now rewrite filter_app, length_app. Qed.

Lemma nested_counts tbl t j :
  String.eqb t tbl = false ->
  inserts_into tbl (calls_of (restore_nested t j)) = 0
  /\ forall u, upserts_on u (calls_of (restore_nested t j)) = 0.
Proof.
  intros Hne. unfold restore_nested.
  destruct (array_of j) as [[|x l]|]; try (split; reflexivity).
  destruct (existsb is_null (x :: l)); [split; reflexivity|].
  unfold inserts_into, upserts_on. cbn. rewrite Hne. split; reflexivity.
Qed.

Lemma with_items_counts tbl t e d ek dk l :
  String.eqb e tbl = false -> String.eqb d tbl = false ->
  no_raise (flat_map (restore_with_items t e d ek dk) l) = true ->
  inserts_into tbl (calls_of (flat_map (restore_with_items t e d ek dk) l))
  = (if String.eqb t tbl then List.length l else 0)
  /\ forall u, upserts_on u (calls_of (flat_map (restore_with_items t e d ek dk) l)) = 0.
Proof.
  intros He Hd. induction l as [|item l IH]; cbn [flat_map List.length].
  - intros _. split; [now destruct (String.eqb t tbl) | reflexivity].
  - rewrite no_raise_app, andb_true_iff. intros [Hitem Hl].
    destruct (IH Hl) as [IH1 IH2].
    assert (E : restore_with_items t e d ek dk item
                = [Do (Insert t item)] ++ restore_nested e (get item ek)
                  ++ restore_nested d (get item dk))
      by (destruct item; [discriminate Hitem | reflexivity ..]).
    rewrite E, !calls_of_app, !inserts_into_app, IH1.
    destruct (nested_counts tbl e (get item ek) He) as [N1 N2].
    destruct (nested_counts tbl d (get item dk) Hd) as [N3 N4].
    rewrite N1, N3. split.
    + unfold inserts_into at 1. cbn. destruct (String.eqb t tbl); cbn; lia.
    + intros u. rewrite !upserts_on_app, IH2, N2, N4. reflexivity.
Qed.

Lemma plain_counts tbl t l :
  no_raise (flat_map (restore_plain t) l) = true ->
  inserts_into tbl (calls_of (flat_map (restore_plain t) l))
  = (if String.eqb t tbl then List.length l else 0)
  /\ forall u, upserts_on u (calls_of (flat_map (restore_plain t) l)) = 0.
Proof.
  induction l as [|item l IH]; cbn [flat_map List.length].
  - intros _. split; [now destruct (String.eqb t tbl) | reflexivity].
  - rewrite no_raise_app, andb_true_iff. intros [Hitem Hl].
    destruct (IH Hl) as [IH1 IH2].
    assert (E : restore_plain t item = [Do (Insert t item)])
      by (destruct item; [discriminate Hitem | reflexivity ..]).
    rewrite E, !calls_of_app, !inserts_into_app, IH1. split.
    + unfold inserts_into at 1. cbn. destruct (String.eqb t tbl); cbn; lia.
    + intros u. rewrite !upserts_on_app, IH2. reflexivity.
Qed.

Lemma for_array_items_counts tbl t e d ek dk j :
  String.eqb e tbl = false -> String.eqb d tbl = false ->
  no_raise (for_array j (restore_with_items t e d ek dk)) = true ->
  inserts_into tbl (calls_of (for_array j (restore_with_items t e d ek dk)))
  = (if String.eqb t tbl then array_length j else 0)
  /\ forall u, upserts_on u (calls_of (for_array j (restore_with_items t e d ek dk))) = 0.
Proof.
  unfold for_array, array_length. destruct (array_of j) as [l|].
  - apply with_items_counts.
  - intros _ _ _. split; [now destruct (String.eqb t tbl) | reflexivity].
Qed.

Lemma for_array_plain_counts tbl t j :
  no_raise (for_array j (restore_plain t)) = true ->
  inserts_into tbl (calls_of (for_array j (restore_plain t)))
  = (if String.eqb t tbl then array_length j else 0)
  /\ forall u, upserts_on u (calls_of (for_array j (restore_plain t))) = 0.
Proof.
  unfold for_array, array_length. destruct (array_of j) as [l|].
  - apply plain_counts.
  - intros _. split; [now destruct (String.eqb t tbl) | reflexivity].
Qed.

Lemma restore_program_counts data :
  no_raise (restore_program data) = true ->
  inserts_into "organization_templates" (calls_of (restore_program data))
  = c_totalTemplates (counts_of data)
  /\ inserts_into "salary_records" (calls_of (restore_program data))
     = c_totalSalaryRecords (counts_of data)
  /\ inserts_into "employment_history" (calls_of (restore_program data))
     = c_totalEmploymentHistory (counts_of data)
  /\ inserts_into "budget_history" (calls_of (restore_program data))
     = c_totalBudgetHistory (counts_of data)
  /\ upserts_on "profiles" (calls_of (restore_program data))
     = c_totalProfileEntries (counts_of data).
Proof.
  unfold restore_program. rewrite !no_raise_app, !andb_true_iff.
  intros (_ & H1 & H2 & H3 & H4 & _).
  rewrite !calls_of_app, !inserts_into_app, !upserts_on_app.
  assert (P : forall tbl,
             inserts_into tbl
               (calls_of (if profile_object data
                          then match get data "profile" with
                               | Some p => [Do (Upsert "profiles" p)]
                               | None => []
                               end
                          else [])) = 0
             /\ upserts_on "profiles"
                  (calls_of (if profile_object data
                             then match get data "profile" with
                                  | Some p => [Do (Upsert "profiles" p)]
                                  | None => []
                                  end
                             else [])) = (if profile_object data then 1 else 0)).
  { intros tbl. unfold profile_object.
    destruct (get data "profile") as [p|]; [|split; reflexivity].
    destruct (is_object p); split; reflexivity. }
  assert (C : forall tbl,
             String.eqb "template_earnings" tbl = false ->
             String.eqb "template_deductions" tbl = false ->
             String.eqb "earnings" tbl = false ->
             String.eqb "deductions" tbl = false ->
             inserts_into tbl
               (calls_of (for_array (get data "organizationTemplates")
                            (restore_with_items "organization_templates" "template_earnings"
                               "template_deductions" "template_earnings"
                               "template_deductions")))
             + (inserts_into tbl
                  (calls_of (for_array (get data "salaryRecords")
                               (restore_with_items "salary_records" "earnings" "deductions"
                                  "earnings" "deductions")))
                + (inserts_into tbl
                     (calls_of (for_array (get data "employmentHistory")
                                  (restore_plain "employment_history")))
                   + (inserts_into tbl
                        (calls_of (for_array (get data "budgetHistory")
                                     (restore_plain "budget_history")))
                      + 0)))
             = (if String.eqb "organization_templates" tbl
                then array_length (get data "organizationTemplates") else 0)
               + (if String.eqb "salary_records" tbl
                  then array_length (get data "salaryRecords") else 0)
               + (if String.eqb "employment_history" tbl
                  then array_length (get data "employmentHistory") else 0)
               + (if String.eqb "budget_history" tbl
                  then array_length (get data "budgetHistory") else 0)).
  { intros tbl E1 E2 E3 E4.
    rewrite (proj1 (for_array_items_counts tbl _ _ _ _ _ _ E1 E2 H1)).
    rewrite (proj1 (for_array_items_counts tbl _ _ _ _ _ _ E3 E4 H2)).
    rewrite (proj1 (for_array_plain_counts tbl _ _ H3)).
    rewrite (proj1 (for_array_plain_counts tbl _ _ H4)). lia. }
  change (calls_of [Do (Rpc "wipe_all_salary_data"); Do (DeleteWhereUser "budget_history")])
    with [Rpc "wipe_all_salary_data"; DeleteWhereUser "budget_history"].
  change (inserts_into ?t [Rpc "wipe_all_salary_data"; DeleteWhereUser "budget_history"])
    with 0.
  change (upserts_on ?t [Rpc "wipe_all_salary_data"; DeleteWhereUser "budget_history"])
    with 0.
  cbn [Nat.add].
  rewrite !(proj1 (P _)), !C by reflexivity. cbn [String.eqb Ascii.eqb Bool.eqb].
  split; [cbn; lia|]. split; [cbn; lia|]. split; [cbn; lia|]. split; [cbn; lia|].
  rewrite (proj2 (for_array_items_counts "profiles" "organization_templates"
                    "template_earnings" "template_deductions" "template_earnings"
                    "template_deductions" _ eq_refl eq_refl H1)).
  rewrite (proj2 (for_array_items_counts "profiles" "salary_records" "earnings" "deductions"
                    "earnings" "deductions" _ eq_refl eq_refl H2)).
  rewrite (proj2 (for_array_plain_counts "profiles" _ _ H3)).
  rewrite (proj2 (for_array_plain_counts "profiles" _ _ H4)).
  rewrite (proj2 (P "profiles")). reflexivity.
Qed.

(** X23. When a restore reports success, the summary it shows tells
    what was sent: after the two clearing requests, one insert into the
    templates table for each counted template, one into the salary table
    for each counted salary record, one for each employment entry and each
    budget entry, and one upsert of the profile when a profile was
    counted. *)
Theorem successful_restore_sends_what_it_counts :
  forall st data,
    pendingBackupData st = Some data ->
    pendingBackupCounts st = Some (counts_of data) ->
    toasts (performBackupImport service_ok st)
    = toasts st ++ ["Backup imported successfully"] ->
    let st' := performBackupImport service_ok st in
    backupImportSummary st' = Some (counts_of data)
    /\ exists new,
         calls st' = calls st ++ new
         /\ inserts_into "organization_templates" new = c_totalTemplates (counts_of data)
         /\ inserts_into "salary_records" new = c_totalSalaryRecords (counts_of data)
         /\ inserts_into "employment_history" new = c_totalEmploymentHistory (counts_of data)
         /\ inserts_into "budget_history" new = c_totalBudgetHistory (counts_of data)
         /\ upserts_on "profiles" new = c_totalProfileEntries (counts_of data).
Proof.
  intros st data Hd Hc. unfold performBackupImport. rewrite Hd, Hc.
  destruct (run_program service_ok (restore_program data) (calls st)) as [sent finished] eqn:Hrun.
  destruct finished; cbn [toasts backupImportSummary calls].
  - intros _. split; [reflexivity|].
    apply run_program_finished in Hrun as [-> Hnr].
    exists (calls_of (restore_program data)). split; [reflexivity|].
    now apply restore_program_counts.
  - intros H. apply app_inv_head in H. discriminate.
Qed.

(** X26. Whatever the user has done so far, the counts kept for
    confirmation are those of the pending backup: both are set by the
    same accepted file and both are cleared by a restore. *)
Theorem pending_counts_are_those_of_the_pending_backup :
  forall evs,
    pendingBackupCounts (run JSON_parse service_ok evs)
    = option_map counts_of (pendingBackupData (run JSON_parse service_ok evs)).
Proof.
  induction evs as [|ev evs IH] using rev_ind; [reflexivity|].
  rewrite (run_snoc JSON_parse service_ok).
  destruct ev as [[f|] | | open]; cbn [step handleImportBackupFile]; try exact IH.
  - destruct (validate JSON_parse f); [reflexivity | exact IH].
  - unfold performBackupImport.
    destruct (pendingBackupData (run JSON_parse service_ok evs)) as [data|] eqn:Hd;
      [|rewrite Hd; exact IH].
    destruct (pendingBackupCounts (run JSON_parse service_ok evs)) as [counts|] eqn:Hc;
      [|discriminate].
    destruct (run_program service_ok (restore_program data) _) as [sent finished].
    destruct finished; reflexivity.
Qed.

End BackupMore.

Lemma exported_backup_is_accepted_witness :
  Backup.validate parse_sample sample_file = inl sample_backup
  /\ Backup.c_totalSalaryRecords (Backup.counts_of sample_backup) = 1
  /\ Backup.c_totalProfileEntries (Backup.counts_of sample_backup) = 1.
Proof.
  destruct (exported_backup_is_accepted parse_sample sample_file
              "2025-01-31T00:00:00.000Z" "u"
              [Backup.JObject [("month", Backup.JNumber (ofZ 1));
                               ("earnings",
                                Backup.JArray
                                  [Backup.JObject [("category", Backup.JString "Basic")]])]]
              [] [] (Some [("full_name", Backup.JString "A")]) [])
    as (H1 & H2 & _ & _ & _ & H6); [discriminate | reflexivity |].
  split; [exact H1|]. split; [exact H2 | exact H6].
Defined.

Lemma successful_restore_sends_what_it_counts_witness :
  let st := Backup.handleImportBackupFile parse_sample Backup.init (Some sample_file) in
  exists new,
    Backup.calls (Backup.performBackupImport always_ok st) = new
    /\ inserts_into "salary_records" new = 1
    /\ upserts_on "profiles" new = 1.
Proof.
  cbv zeta.
  destruct (successful_restore_sends_what_it_counts always_ok
              (Backup.handleImportBackupFile parse_sample Backup.init (Some sample_file))
              sample_backup eq_refl eq_refl eq_refl)
    as (_ & new & Hcalls & _ & H2 & _ & _ & H5).
  exists new. split; [exact Hcalls|]. split; [exact H2 | exact H5].
Defined.

(** * Further properties: classification, repeated months, pending backup *)

Module HeaderText.

Lemma to_lower_to_upper c : to_lower (to_upper c) = to_lower c.
Proof. destruct c as [[] [] [] [] [] [] [] []]; reflexivity. Qed.

Lemma to_lower_to_lower c : to_lower (to_lower c) = to_lower c.
Proof. destruct c as [[] [] [] [] [] [] [] []]; reflexivity. Qed.

Lemma toLowerCase_toUpperCase s : toLowerCase (toUpperCase s) = toLowerCase s.
Proof.
  induction s as [|c s IH]; [reflexivity|].
  cbn. f_equal; [apply to_lower_to_upper | exact IH].
Qed.

Lemma toLowerCase_toLowerCase s : toLowerCase (toLowerCase s) = toLowerCase s.
Proof.
  induction s as [|c s IH]; [reflexivity|].
  cbn. f_equal; [apply to_lower_to_lower | exact IH].
Qed.

Lemma toLowerCase_app a b : toLowerCase (a ++ b) = (toLowerCase a ++ toLowerCase b)%string.
Proof.
  induction a as [|c a IH]; [reflexivity|]. cbn. f_equal. exact IH.
Qed.

Lemma prefix_app kw : forall s b, prefix kw s = true -> prefix kw (s ++ b) = true.
Proof.
  induction kw as [|k kw IH]; intros s b; [now destruct (s ++ b)%string|].
  destruct s as [|c s]; [discriminate|]. cbn.
  destruct (ascii_dec k c); [apply IH | discriminate].
Qed.

Lemma includes_app_r kw : forall s b, includes kw s = true -> includes kw (s ++ b) = true.
Proof.
  induction s as [|c s IH]; intros b H.
  - cbn [includes] in H. rewrite orb_false_r in H.
    pose proof (prefix_app kw "" b H) as P. cbn [append] in *.
    destruct b; cbn [includes]; now rewrite P.
  - cbn [includes] in H. apply orb_true_iff in H as [H | H].
    + change ((String c s ++ b)%string) with (String c (s ++ b)). cbn [includes].
      change (String c (s ++ b)) with ((String c s ++ b)%string).
      now rewrite (prefix_app kw _ b H).
    + change ((String c s ++ b)%string) with (String c (s ++ b)). cbn [includes].
      rewrite (IH b H). apply orb_true_r.
Qed.

Lemma includes_app_l kw a : forall s, includes kw s = true -> includes kw (a ++ s) = true.
Proof.
  induction a as [|c a IH]; intros s H; [exact H|].
  change ((String c a ++ s)%string) with (String c (a ++ s)). cbn [includes].
  rewrite (IH s H). apply orb_true_r.
Qed.

(** X24. For headers of ASCII characters: whether a header counts as a
    deduction by its keywords does not depend on the case of its
    letters, and the keywords are looked for anywhere in the header: a
    header that has a deduction header as a part is a deduction header
    too. *)
Theorem deduction_keywords_ignore_case_and_position :
  forall h,
    is_ascii h = true ->
    isDeductionHeader (toUpperCase h) = isDeductionHeader h
    /\ isDeductionHeader (toLowerCase h) = isDeductionHeader h
    /\ forall a b, is_ascii a = true -> is_ascii b = true ->
                   isDeductionHeader h = true -> isDeductionHeader (a ++ h ++ b) = true.
Proof.
  intros h _. unfold isDeductionHeader.
  rewrite toLowerCase_toUpperCase, toLowerCase_toLowerCase.
  split; [reflexivity|]. split; [reflexivity|].
  intros a b _ _ H. rewrite !toLowerCase_app.
  apply existsb_exists in H as (kw & Hin & Hkw). apply existsb_exists.
  exists kw. split; [exact Hin|]. now apply includes_app_l, includes_app_r.
Qed.

End HeaderText.

Lemma deduction_keywords_witness :
  is_ascii "Income Tax" = true
  /\ isDeductionHeader "INCOME TAX" = isDeductionHeader "Income Tax"
  /\ isDeductionHeader "Old Income Tax (arrears)" = true.
Proof.
  destruct (HeaderText.deduction_keywords_ignore_case_and_position "Income Tax" eq_refl)
    as (Hupper & _ & Hpart).
  split; [reflexivity|]. split; [exact Hupper|].
  exact (Hpart "Old " " (arrears)" eq_refl eq_refl eq_refl).
Defined.
